(** * highs-js: the MPS reader and the solution-report reader of [src/post.js]

    A shallow embedding of the JavaScript of [post.js] and the properties
    its specification states about it.

    - JavaScript strings are [string]s whose characters are the code units
      below 256; the built-ins [substring], [trim], [trimEnd], [startsWith],
      [split] and indexing are written out in [Module JS].
    - JavaScript numbers are IEEE 754 binary64 values: Rocq's primitive
      [float]. [parseFloat] reads the longest decimal prefix and rounds it
      to the nearest double.
    - [Map]s are [gmap]s and [Set]s are [gset]s; the two-element arrays kept
      in [constraints] and [bounds] are pairs, updated in place in the
      source and functionally here (no array is shared by two keys).
    - A returned [Error] is a value of the inductive [Error]; [message]
      gives its text. *)

From Stdlib Require Import ZArith String Ascii List Lia Bool.
From Stdlib Require Import PrimFloat FloatOps SpecFloat.
From stdpp Require Import base option list gmap strings pretty.

Open Scope string_scope.

(* ===================================================================== *)
(** ** JavaScript built-ins on strings *)
(* ===================================================================== *)

Module JS.

(** [WhiteSpace] and [LineTerminator] code units below 256: TAB, LF, VT,
    FF, CR, SPACE and NO-BREAK SPACE. This is the set both
    [String.prototype.trim] and the regular expression class [\s] use. *)
Definition isWhiteSpace (c : ascii) : bool :=
  let n := nat_of_ascii c in
  (Nat.leb 9 n && Nat.leb n 13) || Nat.eqb n 32 || Nat.eqb n 160.

Fixpoint trimStart (s : string) : string :=
  match s with
  | EmptyString => EmptyString
  | String c s' => if isWhiteSpace c then trimStart s' else s
  end.

Fixpoint trimEnd (s : string) : string :=
  match s with
  | EmptyString => EmptyString
  | String c s' =>
      match trimEnd s' with
      | EmptyString => if isWhiteSpace c then EmptyString else String c EmptyString
      | t => String c t
      end
  end.

Definition trim (s : string) : string := trimEnd (trimStart s).

(** [s.substring(start, end)] for non-negative integer arguments: both are
    clamped to the length and swapped when out of order. *)
Definition substring (start end_ : nat) (s : string) : string :=
  let len := String.length s in
  let finalStart := Nat.min start len in
  let finalEnd := Nat.min end_ len in
  let from := Nat.min finalStart finalEnd in
  let to := Nat.max finalStart finalEnd in
  String.substring from (to - from) s.

Definition startsWith (p s : string) : bool := String.prefix p s.

(** [s[i]]: [None] is [undefined]. *)
Definition charAt (s : string) (i : nat) : option ascii := String.get i s.

(** [s.split(/\r?\n/)]: a line ends at LF or at CR LF; a CR that is not
    followed by LF stays in the line. *)
Fixpoint splitLines (s : string) : list string :=
  match s with
  | EmptyString => [EmptyString]
  | String c s' =>
      let rest := splitLines s' in
      if Ascii.eqb c "010" then EmptyString :: rest
      else if Ascii.eqb c "013" && startsWith (String "010" EmptyString) s'
      then rest
      else match rest with
           | l :: ls => String c l :: ls
           | [] => [String c EmptyString]
           end
  end.

(** [arr.findIndex(p)]: [None] is [-1]. *)
Fixpoint findIndex {A} (p : A -> bool) (l : list A) : option nat :=
  match l with
  | [] => None
  | x :: l' => if p x then Some 0 else option_map S (findIndex p l')
  end.

(** [map.has(k)] *)
Definition has {V} (m : gmap string V) (k : string) : bool :=
  match m !! k with Some _ => true | None => false end.

(** *** Numbers *)

Definition isNaN (x : float) : bool := PrimFloat.is_nan x.

Definition digitOf (c : ascii) : option Z :=
  let n := nat_of_ascii c in
  if Nat.leb 48 n && Nat.leb n 57 then Some (Z.of_nat (n - 48)) else None.

(** A maximal run of decimal digits appended to the decimal numeral
    [acc]: the numeral read, how many digits were read, and the rest. *)
Fixpoint readDigits (s : string) (acc : Z) (cnt : nat) : Z * nat * string :=
  match s with
  | EmptyString => (acc, cnt, s)
  | String c s' =>
      match digitOf c with
      | Some d => readDigits s' (10 * acc + d) (S cnt)
      | None => (acc, cnt, s)
      end
  end.

(** An optional [ExponentPart]: [e] or [E], an optional sign and at least
    one digit; anything less is not part of the literal. *)
Definition readExponent (s : string) : Z :=
  match s with
  | String c s' =>
      if Ascii.eqb c "e" || Ascii.eqb c "E" then
        let '(neg, s'') :=
          match s' with
          | String "-" t => (true, t)
          | String "+" t => (false, t)
          | _ => (false, s')
          end in
        let '(e, n, _) := readDigits s'' 0 0 in
        match n with
        | O => 0%Z
        | _ => if (neg : bool) then (- e)%Z else e
        end
      else 0%Z
  | EmptyString => 0%Z
  end.

(** The double nearest to [(-1)^neg * m * 10^e10] (ties to even), by the
    Standard Library's correctly rounded division of [m * 10^e10] by [1],
    or of [m] by [10^(-e10)]. *)
Definition decimalToNumber (neg : bool) (m e10 : Z) : float :=
  match m with
  | Zpos p =>
      let '(n, d) :=
        if (0 <=? e10)%Z then ((p * Z.to_pos (10 ^ e10))%positive, 1%positive)
        else (p, Z.to_pos (10 ^ (- e10))) in
      SF2Prim (SFdiv prec emax (S754_finite neg n 0) (S754_finite false d 0))
  | _ => if neg then (-0)%float else 0%float
  end.

(** [StrUnsignedDecimalLiteral]: [Infinity], digits with an optional
    fraction, or a fraction alone, then an optional exponent. The longest
    prefix that is a literal is read; [nan] when there is none. *)
Definition parseUnsigned (neg : bool) (s : string) : float :=
  if startsWith "Infinity" s then (if neg then neg_infinity else infinity)
  else
    let '(ip, ni, r1) := readDigits s 0 0 in
    match r1 with
    | String "." r1' =>
        let '(mant, nf, r2) := readDigits r1' ip 0 in
        match ni, nf with
        | O, O => nan
        | _, _ => decimalToNumber neg mant (readExponent r2 - Z.of_nat nf)
        end
    | _ =>
        match ni with
        | O => nan
        | _ => decimalToNumber neg ip (readExponent r1)
        end
    end.

(** [parseFloat(s)] *)
Definition parseFloat (s : string) : float :=
  match trimStart s with
  | String "-" t => parseUnsigned true t
  | String "+" t => parseUnsigned false t
  | t => parseUnsigned false t
  end.

(** [[...s.matchAll(/[^\s]+/g)]]: every maximal run of characters that are
    not white space, with the index of its first character. [i] is the
    index of the first character of [s] in the whole string. *)
Fixpoint matchAllFrom (s : string) (i : nat) : list (nat * string) :=
  match s with
  | EmptyString => []
  | String c s' =>
      if isWhiteSpace c then matchAllFrom s' (S i)
      else
        match matchAllFrom s' (S i) with
        | (j, t) :: rest =>
            if Nat.eqb j (S i) then (i, String c t) :: rest
            else (i, String c EmptyString) :: (j, t) :: rest
        | [] => [(i, String c EmptyString)]
        end
  end.

Definition matchAll (s : string) : list (nat * string) := matchAllFrom s 0.

End JS.

(* ===================================================================== *)
(** ** The field extractor (post.js, lines 48-53) *)
(* ===================================================================== *)

Definition field1 (line : string) : string := JS.trim (JS.substring 1 3 line).
Definition field2 (line : string) : string := JS.trim (JS.substring 4 12 line).
Definition field3 (line : string) : string := JS.trim (JS.substring 14 22 line).
Definition field4 (line : string) : string := JS.trim (JS.substring 24 36 line).
Definition field5 (line : string) : string := JS.trim (JS.substring 39 47 line).
Definition field6 (line : string) : string := JS.trim (JS.substring 49 61 line).

(** *** What the specification's words mean, stated independently *)

(** The characters of [line] at the 0-based positions [a <= i < b] that
    exist. *)
Definition window (a b : nat) (line : string) : string :=
  string_of_list_ascii (take (b - a) (drop a (list_ascii_of_string line))).

Fixpoint allWhiteSpace (s : string) : bool :=
  match s with
  | EmptyString => true
  | String c s' => JS.isWhiteSpace c && allWhiteSpace s'
  end.

Definition firstChar (s : string) : option ascii :=
  match s with EmptyString => None | String c _ => Some c end.

Fixpoint lastChar (s : string) : option ascii :=
  match s with
  | EmptyString => None
  | String c EmptyString => Some c
  | String _ s' => lastChar s'
  end.

(** [r] is [w] with its leading and trailing white space removed. *)
Definition trimmed_of (w r : string) : Prop :=
  exists pre post,
    w = pre +:+ r +:+ post /\
    allWhiteSpace pre = true /\ allWhiteSpace post = true /\
    (forall c, firstChar r = Some c -> JS.isWhiteSpace c = false) /\
    (forall c, lastChar r = Some c -> JS.isWhiteSpace c = false).

(* ===================================================================== *)
(** ** The MPS reader (post.js, lines 5-317) *)
(* ===================================================================== *)

Inductive OptimizationDirection := maximize | minimize.

(** The [parseState] object of [modelFromMps]. [constraintTypes] keeps the
    type text of each row: one of [L], [G], [E] and [N]. *)
Record ParseState := mkParseState {
  lines : list string;
  index : nat;
  constraintTypes : gmap string string
}.

(** The [model] object of [modelFromMps]. [objective] is absent until the
    first [N] row. *)
Record Model := mkModel {
  name : string;
  direction : OptimizationDirection;
  objective : option string;
  constraints : gmap string (float * float);
  variables : gmap string (gmap string float);
  integers : gset string;
  binaries : gset string;
  bounds : gmap string (float * float)
}.

Definition set_index (i : nat) (s : ParseState) : ParseState :=
  mkParseState (lines s) i (constraintTypes s).
Definition set_constraintTypes (t : gmap string string) (s : ParseState) : ParseState :=
  mkParseState (lines s) (index s) t.

Definition set_name (x : string) (m : Model) : Model :=
  mkModel x (direction m) (objective m) (constraints m) (variables m)
          (integers m) (binaries m) (bounds m).
Definition set_objective (x : option string) (m : Model) : Model :=
  mkModel (name m) (direction m) x (constraints m) (variables m)
          (integers m) (binaries m) (bounds m).
Definition set_constraints (x : gmap string (float * float)) (m : Model) : Model :=
  mkModel (name m) (direction m) (objective m) x (variables m)
          (integers m) (binaries m) (bounds m).
Definition set_variables (x : gmap string (gmap string float)) (m : Model) : Model :=
  mkModel (name m) (direction m) (objective m) (constraints m) x
          (integers m) (binaries m) (bounds m).
Definition set_integers (x : gset string) (m : Model) : Model :=
  mkModel (name m) (direction m) (objective m) (constraints m) (variables m)
          x (binaries m) (bounds m).
Definition set_binaries (x : gset string) (m : Model) : Model :=
  mkModel (name m) (direction m) (objective m) (constraints m) (variables m)
          (integers m) x (bounds m).
Definition set_bounds (x : gmap string (float * float)) (m : Model) : Model :=
  mkModel (name m) (direction m) (objective m) (constraints m) (variables m)
          (integers m) (binaries m) x.

(** The [Error] values the reader returns, named as the specification names
    them; [message] is the text the source gives each. *)
Inductive Error :=
| SectionNotFound
| SectionMismatch (expected : string) (actual : option string)
| MissingRowName
| DuplicateRow (row : string)
| MissingRowType
| UnknownRowType (type : string)
| MissingColumnName
| NonConsecutiveColumn (col : string)
| UnknownMarker (marker : string)
| MissingCoefficient
| UndefinedRow (row : string)
| DuplicateCoefficient (row : string)
| NumberParseError (value : string)
| MissingRHSValue
| MissingRangeValue
| MissingBoundValue
| MissingBoundType
| UnknownBoundType (type : string)
| UndefinedColumn (col : string)
| SemiContinuousUnsupported.

Definition message (e : Error) : string :=
  match e with
  | SectionNotFound => "No NAME section was found"
  | SectionMismatch expected actual =>
      "Expected section " +:+ expected +:+ " but got " +:+
      match actual with
      | None => "end of file"
      | Some section => "'" +:+ section +:+ "'"
      end
  | MissingRowName => "Missing row name"
  | DuplicateRow row => "The row '" +:+ row +:+ "' was already defined"
  | MissingRowType => "Missing row type"
  | UnknownRowType type => "Unexpected row type '" +:+ type +:+ "'"
  | MissingColumnName => "Missing column name"
  | NonConsecutiveColumn col =>
      "Values for the column '" +:+ col +:+
      "' were previously provided -- all values for a column must come consecutively"
  | UnknownMarker marker => "Unexpected MARKER '" +:+ marker +:+ "'"
  | MissingCoefficient => "Missing coefficient value"
  | UndefinedRow row =>
      "The row '" +:+ row +:+ "' was not defined in the ROWS section"
  | DuplicateCoefficient row =>
      "The coefficient for row '" +:+ row +:+ "' was previously set for this column"
  | NumberParseError value => "Failed to parse number '" +:+ value +:+ "'"
  | MissingRHSValue => "Missing rhs value"
  | MissingRangeValue => "Missing range value"
  | MissingBoundValue => "Missing bound value"
  | MissingBoundType => "Missing bound type"
  | UnknownBoundType type => "Unexpected bound type '" +:+ type +:+ "'"
  | UndefinedColumn col =>
      "The column '" +:+ col +:+ "' was not defined in the COLUMNS section"
  | SemiContinuousUnsupported => "SC bound type is unsupported"
  end.

(** What a section reader leaves behind: the state, the model, and the
    [Error] it returned ([None] is [null]). *)
Definition Outcome : Type := ParseState * Model * option Error.

(** An [Error + A] computation stops at the first error. *)
Notation "x <- e ;; k" :=
  (match e with inl err => inl err | inr x => k end)
  (at level 100, e at next level, k at level 200, right associativity,
   only parsing).

(** *** The section cursor (lines 63-83) *)

Definition notSectionEnd (line : option string) : bool :=
  match line with
  | Some l => JS.startsWith " " l
  | None => false
  end.

(** The first line of [ls] that is not a comment; [i] is the index of the
    head of [ls] in the document. *)
Fixpoint nextLineFrom (ls : list string) (i : nat) : option (nat * string) :=
  match ls with
  | [] => None
  | l :: ls' =>
      if negb (JS.startsWith "*" l) then Some (i, l)
      else nextLineFrom ls' (S i)
  end.

Definition nextLine (s : ParseState) : ParseState * option string :=
  match nextLineFrom (drop (S (index s)) (lines s)) (S (index s)) with
  | Some (i, l) => (set_index i s, Some l)
  | None => (s, None)
  end.

Definition readSection (s : ParseState) : option string :=
  option_map JS.trimEnd (lines s !! index s).

Definition sectionErr (expected : string) (section : option string) : Error :=
  SectionMismatch expected section.

Definition expectSection (s : ParseState) (section : string) : option Error :=
  let name := readSection s in
  match name with
  | Some n => if String.eqb n section then None else Some (sectionErr section name)
  | None => Some (sectionErr section name)
  end.

(** The lines a section loop runs on: the current line while it is a data
    line. *)
Definition dataLine (line : option string) : option string :=
  if notSectionEnd line then line else None.

(** Enough fuel for any loop over the lines of [s]: every turn of a loop
    moves [index] forward. *)
Definition fuelFor (s : ParseState) : nat := S (length (lines s)).

(** *** BOUNDS (lines 269-317) *)

Definition setBounds (m : Model) (name : string) (lower upper : float) : Model :=
  let bounds0 :=
    if JS.has (bounds m) name then bounds m
    else <[name := (0%float, infinity)]> (bounds m) in
  match bounds0 !! name with
  | Some bnds =>
      let bnds1 := if negb (JS.isNaN lower) then (lower, snd bnds) else bnds in
      let bnds2 := if negb (JS.isNaN upper) then (fst bnds1, upper) else bnds1 in
      set_bounds (<[name := bnds2]> bounds0) m
  | None => set_bounds bounds0 m (* no such state: [name] is in [bounds0] *)
  end.

Definition integers_add (col : string) (m : Model) : Model :=
  set_integers ({[col]} ∪ integers m) m.
Definition binaries_add (col : string) (m : Model) : Model :=
  set_binaries ({[col]} ∪ binaries m) m.

(** The body of the loop of [readBounds] (lines 279-313) on one line. *)
Definition boundsLine (m : Model) (line : string) : Error + Model :=
  let type := field1 line in
  let col := field3 line in
  if String.eqb col "" then inl MissingColumnName
  else if negb (JS.has (variables m) col) then inl (UndefinedColumn col)
  else
    val <- (if existsb (String.eqb type) ["LO"; "UP"; "FX"; "LI"; "UI"] then
              let value := field4 line in
              if String.eqb value "" then inl MissingBoundValue
              else
                let val := JS.parseFloat value in
                if JS.isNaN val then inl (NumberParseError value) else inr val
            else inr nan) ;;
    if String.eqb type "LO" then inr (setBounds m col val infinity)
    else if String.eqb type "UP" then inr (setBounds m col 0%float val)
    else if String.eqb type "FX" then inr (setBounds m col val val)
    else if String.eqb type "FR" then inr (setBounds m col neg_infinity infinity)
    else if String.eqb type "MI" then inr (setBounds m col neg_infinity 0%float)
    else if String.eqb type "PL" then inr (setBounds m col 0%float infinity)
    else if String.eqb type "BV" then inr (binaries_add col m)
    else if String.eqb type "LI" then
      inr (setBounds (integers_add col m) col val infinity)
    else if String.eqb type "UI" then
      inr (setBounds (integers_add col m) col 0%float val)
    else if String.eqb type "SC" then inl SemiContinuousUnsupported
    else if String.eqb type "" then inl MissingBoundType
    else inl (UnknownBoundType type).

Fixpoint readBoundsLoop (fuel : nat) (s : ParseState) (m : Model)
    (line : option string) : option Outcome :=
  match fuel with
  | O => None
  | S fuel' =>
      match dataLine line with
      | Some l =>
          match boundsLine m l with
          | inl e => Some (s, m, Some e)
          | inr m' =>
              let '(s', line') := nextLine s in
              readBoundsLoop fuel' s' m' line'
          end
      | None => Some (s, m, expectSection s "ENDATA")
      end
  end.

Definition readBounds (s : ParseState) (m : Model) : option Outcome :=
  let '(s', line) := nextLine s in
  readBoundsLoop (fuelFor s) s' m line.

(** *** RANGES (lines 226-267) *)

Definition addRange (s : ParseState) (m : Model) (row value : string) : Error + Model :=
  if String.eqb row "" then inl MissingRowName
  else if String.eqb value "" then inl MissingRangeValue
  else
    match constraintTypes s !! row with
    | None => inl (UndefinedRow row)
    | Some type =>
        let val := JS.parseFloat value in
        if JS.isNaN val then inl (NumberParseError value)
        else
          match constraints m !! row with
          | Some bounds =>
              let bounds1 :=
                if String.eqb type "L" || (String.eqb type "E" && PrimFloat.ltb val 0)
                then (PrimFloat.sub (snd bounds) (PrimFloat.abs val), snd bounds)
                else bounds in
              let bounds2 :=
                if String.eqb type "G" || (String.eqb type "E" && PrimFloat.ltb 0 val)
                then (fst bounds1, PrimFloat.add (fst bounds1) (PrimFloat.abs val))
                else bounds1 in
              inr (set_constraints (<[row := bounds2]> (constraints m)) m)
          | None => inr m (* no such state: [readRows] fills both maps *)
          end
    end.

(** The body of a loop over lines that carry up to two (row, value) pairs,
    in fields 3, 4 and 5, 6 (lines 249-257, and 205-213 for RHS). The first
    pair has taken effect when the second one fails. *)
Definition pairLine (add : Model -> string -> string -> Error + Model)
    (m : Model) (line : string) : Model * option Error :=
  match add m (field3 line) (field4 line) with
  | inl err1 => (m, Some err1)
  | inr m1 =>
      let name2 := field5 line in
      let value2 := field6 line in
      if negb (String.eqb name2 "") || negb (String.eqb value2 "") then
        match add m1 name2 value2 with
        | inl err2 => (m1, Some err2)
        | inr m2 => (m2, None)
        end
      else (m1, None)
  end.

Fixpoint readRangesLoop (fuel : nat) (s : ParseState) (m : Model)
    (line : option string) : option Outcome :=
  match fuel with
  | O => None
  | S fuel' =>
      match dataLine line with
      | Some l =>
          match pairLine (addRange s) m l with
          | (m', Some e) => Some (s, m', Some e)
          | (m', None) =>
              let '(s', line') := nextLine s in
              readRangesLoop fuel' s' m' line'
          end
      | None =>
          let section := readSection s in
          match section with
          | Some "BOUNDS" => readBounds s m
          | Some "ENDATA" => Some (s, m, None)
          | _ => Some (s, m, Some (sectionErr "BOUNDS or ENDATA" section))
          end
      end
  end.

Definition readRanges (s : ParseState) (m : Model) : option Outcome :=
  let '(s', line) := nextLine s in
  readRangesLoop (fuelFor s) s' m line.

(** *** RHS (lines 179-224) *)

Definition addConstraint (s : ParseState) (m : Model) (row value : string) : Error + Model :=
  if String.eqb row "" then inl MissingRowName
  else if String.eqb value "" then inl MissingRHSValue
  else
    match constraintTypes s !! row with
    | None => inl (UndefinedRow row)
    | Some type =>
        let val := JS.parseFloat value in
        if JS.isNaN val then inl (NumberParseError value)
        else
          match constraints m !! row with
          | Some constraint =>
              let constraint1 :=
                if String.eqb type "L" || String.eqb type "E"
                then (fst constraint, val) else constraint in
              let constraint2 :=
                if String.eqb type "G" || String.eqb type "E"
                then (val, snd constraint1) else constraint1 in
              inr (set_constraints (<[row := constraint2]> (constraints m)) m)
          | None => inr m (* no such state: [readRows] fills both maps *)
          end
    end.

Fixpoint readRHSLoop (fuel : nat) (s : ParseState) (m : Model)
    (line : option string) : option Outcome :=
  match fuel with
  | O => None
  | S fuel' =>
      match dataLine line with
      | Some l =>
          match pairLine (addConstraint s) m l with
          | (m', Some e) => Some (s, m', Some e)
          | (m', None) =>
              let '(s', line') := nextLine s in
              readRHSLoop fuel' s' m' line'
          end
      | None =>
          let section := readSection s in
          match section with
          | Some "RANGES" => readRanges s m
          | Some "BOUNDS" => readBounds s m
          | Some "ENDATA" => Some (s, m, None)
          | _ => Some (s, m, Some (sectionErr "RANGES, BOUNDS, or ENDATA" section))
          end
      end
  end.

Definition readRHS (s : ParseState) (m : Model) : option Outcome :=
  match expectSection s "RHS" with
  | Some error => Some (s, m, Some error)
  | None =>
      let '(s', line) := nextLine s in
      readRHSLoop (fuelFor s) s' m line
  end.

(** *** COLUMNS (lines 115-177) *)

Definition addCoefficient (s : ParseState) (variable : gmap string float)
    (row value : string) : Error + gmap string float :=
  if String.eqb row "" then inl MissingRowName
  else if String.eqb value "" then inl MissingCoefficient
  else if negb (JS.has (constraintTypes s) row) then inl (UndefinedRow row)
  else if JS.has variable row then inl (DuplicateCoefficient row)
  else
    let val := JS.parseFloat value in
    if JS.isNaN val then inl (NumberParseError value)
    else inr (<[row := val]> variable).

(** The body of the [do ... while] of [readColumns] on one line, up to the
    call of [nextLine] (lines 159-167). *)
Definition columnLine (s : ParseState) (variable : gmap string float)
    (line : string) : Error + gmap string float :=
  variable1 <- addCoefficient s variable (field3 line) (field4 line) ;;
  let name2 := field5 line in
  let value2 := field6 line in
  if negb (String.eqb name2 "") || negb (String.eqb value2 "") then
    addCoefficient s variable1 name2 value2
  else inr variable1.

(** The [do ... while] of [readColumns] (lines 156-170): the lines of one
    column. It ends with the coefficients of the column and the line that
    follows them. *)
Fixpoint columnBlock (fuel : nat) (s : ParseState) (variable : gmap string float)
    (name line : string)
    : option (ParseState * (Error + gmap string float * option string)) :=
  match fuel with
  | O => None
  | S fuel' =>
      match columnLine s variable line with
      | inl err => Some (s, inl err)
      | inr variable' =>
          let '(s', line') := nextLine s in
          match dataLine line' with
          | Some l' =>
              if String.eqb (field2 l') name
              then columnBlock fuel' s' variable' name l'
              else Some (s', inr (variable', line'))
          | None => Some (s', inr (variable', line'))
          end
      end
  end.

Fixpoint readColumnsLoop (fuel : nat) (s : ParseState) (m : Model)
    (integerMarked : bool) (line : option string) : option Outcome :=
  match fuel with
  | O => None
  | S fuel' =>
      match dataLine line with
      | Some l =>
          if String.eqb (field3 l) "'MARKER'" then
            let marker := field4 l in
            if String.eqb marker "'INTORG'" then
              let '(s', line') := nextLine s in
              readColumnsLoop fuel' s' m true line'
            else if String.eqb marker "'INTEND'" then
              let '(s', line') := nextLine s in
              readColumnsLoop fuel' s' m false line'
            else Some (s, m, Some (UnknownMarker marker))
          else
            let name := field2 l in
            if String.eqb name "" then Some (s, m, Some MissingColumnName)
            else if JS.has (variables m) name
            then Some (s, m, Some (NonConsecutiveColumn name))
            else
              match columnBlock (fuelFor s) s ∅ name l with
              | None => None
              | Some (s', inl err) => Some (s', m, Some err)
              | Some (s', inr (variable, line')) =>
                  let m1 := set_variables (<[name := variable]> (variables m)) m in
                  let m2 := if integerMarked then integers_add name m1 else m1 in
                  readColumnsLoop fuel' s' m2 integerMarked line'
              end
      | None => readRHS s m
      end
  end.

Definition readColumns (s : ParseState) (m : Model) : option Outcome :=
  match expectSection s "COLUMNS" with
  | Some sectionErr => Some (s, m, Some sectionErr)
  | None =>
      let '(s', line) := nextLine s in
      readColumnsLoop (fuelFor s) s' m false line
  end.

(** *** ROWS (lines 85-113) *)

(** The body of the loop of [readRows] on one line (lines 92-109). *)
Definition rowsLine (s : ParseState) (m : Model) (line : string)
    : Error + ParseState * Model :=
  let name := field2 line in
  if String.eqb name "" then inl MissingRowName
  else if JS.has (constraintTypes s) name then inl (DuplicateRow name)
  else
    let type := field1 line in
    m' <- (if String.eqb type "L" then
             inr (set_constraints (<[name := (neg_infinity, 0%float)]> (constraints m)) m)
           else if String.eqb type "G" then
             inr (set_constraints (<[name := (0%float, infinity)]> (constraints m)) m)
           else if String.eqb type "E" then
             inr (set_constraints (<[name := (0%float, 0%float)]> (constraints m)) m)
           else if String.eqb type "N" then
             let m1 :=
               match objective m with
               | Some _ => m
               | None => set_objective (Some name) m
               end in
             inr (set_constraints
                    (<[name := (neg_infinity, infinity)]> (constraints m1)) m1)
           else if String.eqb type "" then inl MissingRowType
           else inl (UnknownRowType type)) ;;
    inr (set_constraintTypes (<[name := type]> (constraintTypes s)) s, m').

Fixpoint readRowsLoop (fuel : nat) (s : ParseState) (m : Model)
    (line : option string) : option Outcome :=
  match fuel with
  | O => None
  | S fuel' =>
      match dataLine line with
      | Some l =>
          match rowsLine s m l with
          | inl e => Some (s, m, Some e)
          | inr (s1, m') =>
              let '(s', line') := nextLine s1 in
              readRowsLoop fuel' s' m' line'
          end
      | None => readColumns s m
      end
  end.

Definition readRows (s : ParseState) (m : Model) : option Outcome :=
  match expectSection s "ROWS" with
  | Some sectionErr => Some (s, m, Some sectionErr)
  | None =>
      let '(s', line) := nextLine s in
      readRowsLoop (fuelFor s) s' m line
  end.

(** *** NAME and the entry point (lines 24-61) *)

Definition readName (s : ParseState) (m : Model) : option Outcome :=
  match JS.findIndex (JS.startsWith "NAME") (lines s) with
  | None => Some (s, m, Some SectionNotFound)
  | Some i =>
      let m' := set_name (field3 (default "" (lines s !! i))) m in
      readRows (set_index (i + 1) s) m'
  end.

(** The [Error] that [modelFromMps] throws: the line shown in its message,
    [parseState.index + 1], and the error of the section readers. *)
Record Thrown := mkThrown { thrownLine : nat; thrownError : Error }.

Definition thrownMessage (t : Thrown) : string :=
  "Line " +:+ pretty (thrownLine t) +:+ ": " +:+ message (thrownError t).

(** [modelFromMps(mps, direction)]. [None] only if a loop ran out of fuel,
    which [modelFromMps_returns] excludes. *)
Definition modelFromMps (mps : string) (direction : OptimizationDirection)
    : option (Thrown + Model) :=
  let parseState := mkParseState (JS.splitLines mps) 0 ∅ in
  let model := mkModel "" direction None ∅ ∅ ∅ ∅ ∅ in
  match readName parseState model with
  | None => None
  | Some (s, _, Some error) => Some (inl (mkThrown (index s + 1) error))
  | Some (_, m, None) => Some (inr m)
  end.

(* ===================================================================== *)
(** ** The solution report: column inference (post.js, lines 519-527) *)
(* ===================================================================== *)

(** [x !== ' '] for [x] a character or [undefined]. *)
Definition notBlank (x : option ascii) : bool :=
  match x with
  | Some c => negb (Ascii.eqb c " ")
  | None => true
  end.

Definition headersForNonEmptyColumns (headerLine firstDataLine : string) : list string :=
  map snd
    (List.filter (fun match_ : nat * string =>
                    notBlank (JS.charAt firstDataLine (fst match_)) ||
                    notBlank (JS.charAt firstDataLine
                                (fst match_ + String.length (snd match_) - 1)))
                 (JS.matchAll headerLine)).

(* ===================================================================== *)
(** ** Notions the statements below use *)
(* ===================================================================== *)


(** The data lines a section loop goes through, from [line] on. *)
Fixpoint sectionEntries (fuel : nat) (s : ParseState) (line : option string)
    : list string :=
  match fuel with
  | O => []
  | S fuel' =>
      match dataLine line with
      | Some l =>
          let '(s', line') := nextLine s in
          l :: sectionEntries fuel' s' line'
      | None => []
      end
  end.

(** [fuel] is enough to run a section loop from [line], the current line of
    [s], to its end. *)
Definition enough (fuel : nat) (s : ParseState) (line : option string) : Prop :=
  match line with
  | Some _ => index s < length (lines s) /\ length (lines s) - index s < fuel
  | None => 0 < fuel
  end.

(** The cursor moved from [s] to [s'], whose current line is [line']. *)
Definition advanced (s s' : ParseState) (line' : option string) : Prop :=
  lines s' = lines s /\
  match line' with
  | Some _ => index s < index s' /\ index s' < length (lines s)
  | None => True
  end.

(** The coefficients a run of COLUMNS lines gives one column: [columnLine]
    over the lines, first to last. *)
Fixpoint columnLines (s : ParseState) (variable : gmap string float)
    (ls : list string) : Error + gmap string float :=
  match ls with
  | [] => inr variable
  | l :: ls' =>
      variable' <- columnLine s variable l ;;
      columnLines s variable' ls'
  end.

Fixpoint noWhiteSpace (s : string) : bool :=
  match s with
  | EmptyString => true
  | String c s' => negb (JS.isWhiteSpace c) && noWhiteSpace s'
  end.

(** [t] is a maximal run of characters of [s] that are not white space,
    and it starts at index [i]: what a match of [/[^\s]+/g] is. *)
Definition isTokenAt (s : string) (i : nat) (t : string) : Prop :=
  exists pre post,
    s = pre +:+ t +:+ post /\ String.length pre = i /\
    t <> "" /\ noWhiteSpace t = true /\
    (forall c, lastChar pre = Some c -> JS.isWhiteSpace c = true) /\
    (forall c, firstChar post = Some c -> JS.isWhiteSpace c = true).

(** Every row with a type has a bound pair. The reader starts in such a
    state, and [rowsLine], [addConstraint] and [addRange], which alone
    write the two maps, keep it: [addConstraint] and [addRange] find the
    pair of any row whose type they have found. *)
Definition registered (s : ParseState) (m : Model) : Prop :=
  forall row, is_Some (constraintTypes s !! row) -> is_Some (constraints m !! row).

(* ===================================================================== *)
(** ** Documents and lines the properties are evaluated on *)
(* ===================================================================== *)

Definition LF : string := String "010" EmptyString.

Definition unlines (ls : list string) : string :=
  foldr (fun l doc => l +:+ LF +:+ doc) "" ls.

(** A line on which [field2] .. [field6] differ from the windows the
    specification lists. *)
Definition ruler : string :=
  "0123456789abcdefghijklmnopqrstuvwxyzABCDEFGHIJKLMNOPQRSTUVWXYZ+-".

(** The minimal document of the end-to-end scenario. *)
Definition doc_minimal : string :=
  unlines
    [ "NAME          test";
      "ROWS";
      " N  COST";
      " L  LIM1";
      "COLUMNS";
      "    X         COST      1.0            LIM1      1.0";
      "RHS";
      "    RHS       LIM1      10.0";
      "ENDATA" ].

(** Column [X] has one BOUNDS entry: UP with value -5.0. *)
Definition doc_up_only : string :=
  unlines
    [ "NAME          test";
      "ROWS";
      " N  COST";
      " L  LIM1";
      "COLUMNS";
      "    X         COST      1.0            LIM1      1.0";
      "RHS";
      "    RHS       LIM1      10.0";
      "BOUNDS";
      " UP BND       X         -5.0";
      "ENDATA" ].

(** Column [X] has an LO entry and then an UP entry. *)
Definition doc_lo_then_up : string :=
  unlines
    [ "NAME          test";
      "ROWS";
      " N  COST";
      " L  LIM1";
      "COLUMNS";
      "    X         COST      1.0            LIM1      1.0";
      "RHS";
      "    RHS       LIM1      10.0";
      "BOUNDS";
      " LO BND       X         3.0";
      " UP BND       X         10.0";
      "ENDATA" ].

(** Column [X] has an UP entry and then an LO entry. *)
Definition doc_up_then_lo : string :=
  unlines
    [ "NAME          test";
      "ROWS";
      " N  COST";
      " L  LIM1";
      "COLUMNS";
      "    X         COST      1.0            LIM1      1.0";
      "RHS";
      "    RHS       LIM1      10.0";
      "BOUNDS";
      " UP BND       X         10.0";
      " LO BND       X         3.0";
      "ENDATA" ].

(** [doc_minimal] with a comment line between the NAME line and ROWS. *)
Definition doc_comment_after_name : string :=
  unlines
    [ "NAME          test";
      "* rows follow";
      "ROWS";
      " N  COST";
      " L  LIM1";
      "COLUMNS";
      "    X         COST      1.0            LIM1      1.0";
      "RHS";
      "    RHS       LIM1      10.0";
      "ENDATA" ].

(** [doc_minimal] with a comment line everywhere but after the NAME line. *)
Definition doc_comments_elsewhere : string :=
  unlines
    [ "* a model";
      "NAME          test";
      "ROWS";
      "* the objective";
      " N  COST";
      " L  LIM1";
      "* columns follow";
      "COLUMNS";
      "* one column";
      "    X         COST      1.0            LIM1      1.0";
      "* and the right-hand sides";
      "RHS";
      "    RHS       LIM1      10.0";
      "* done";
      "ENDATA" ].

(** Two lines for column [X], a line for [Y], and a line for [X] again, line 10. *)
Definition doc_nonconsecutive : string :=
  unlines
    [ "NAME          test";
      "ROWS";
      " N  COST";
      " L  R1";
      " L  R2";
      "COLUMNS";
      "    X         COST      1.0";
      "    X         R1        1.0";
      "    Y         COST      2.0";
      "    X         R2        1.0";
      "RHS";
      "ENDATA" ].

(** A COLUMNS line with a row name in field 5 and nothing in field 6. *)
Definition doc_row_without_value : string :=
  unlines
    [ "NAME          test";
      "ROWS";
      " N  COST";
      " L  LIM1";
      "COLUMNS";
      "    X         COST      1.0            LIM1";
      "RHS";
      "ENDATA" ].

(** A COLUMNS line with nothing in field 5 and a value in field 6. *)
Definition doc_value_without_row : string :=
  unlines
    [ "NAME          test";
      "ROWS";
      " N  COST";
      " L  LIM1";
      "COLUMNS";
      "    X         COST      1.0                      1.0";
      "RHS";
      "ENDATA" ].

(** An E row with RHS 10 and range +4. *)
Definition doc_range_plus : string :=
  unlines
    [ "NAME          test";
      "ROWS";
      " N  COST";
      " E  BAL";
      "COLUMNS";
      "    X         COST      1.0            BAL       1.0";
      "RHS";
      "    RHS       BAL       10";
      "RANGES";
      "    RNG       BAL       4";
      "ENDATA" ].

(** An E row with RHS 10 and range -4. *)
Definition doc_range_minus : string :=
  unlines
    [ "NAME          test";
      "ROWS";
      " N  COST";
      " E  BAL";
      "COLUMNS";
      "    X         COST      1.0            BAL       1.0";
      "RHS";
      "    RHS       BAL       10";
      "RANGES";
      "    RNG       BAL       -4";
      "ENDATA" ].

(** The state and the model of [doc_up_only] when [readBounds] has stepped
    on its BOUNDS entry, line 10. *)
Definition up_only_state : ParseState :=
  mkParseState (JS.splitLines doc_up_only) 9 {[ "COST" := "N"; "LIM1" := "L" ]}.

Definition up_only_model : Model :=
  mkModel "test" minimize (Some "COST")
    {[ "COST" := (neg_infinity, infinity); "LIM1" := (neg_infinity, 10%float) ]}
    {[ "X" := {[ "COST" := 1%float; "LIM1" := 1%float ]} ]}
    ∅ ∅ ∅.

Definition up_only_entry : string := " UP BND       X         -5.0".

(** An E row [BAL] whose RHS entry has set its pair to (10, 10). *)
Definition range_state : ParseState :=
  mkParseState (JS.splitLines doc_range_plus) 9 {[ "COST" := "N"; "BAL" := "E" ]}.

Definition range_model : Model :=
  mkModel "test" minimize (Some "COST")
    {[ "COST" := (neg_infinity, infinity); "BAL" := (10%float, 10%float) ]}
    {[ "X" := {[ "COST" := 1%float; "BAL" := 1%float ]} ]}
    ∅ ∅ ∅.

(** The state of [doc_minimal] in its COLUMNS section. *)
Definition columns_state : ParseState :=
  mkParseState (JS.splitLines doc_minimal) 5 {[ "COST" := "N"; "LIM1" := "L" ]}.

Definition line_two_pairs : string :=
  "    X         COST      1.0            LIM1      1.0".
Definition line_row_without_value : string :=
  "    X         COST      1.0            LIM1".
Definition line_value_without_row : string :=
  "    X         COST      1.0                      1.0".
Definition line_one_pair : string :=
  "    X         COST      1.0".

(** The header of the report and first data lines under it. *)
Definition report_header : string := "Index Lower Upper Primal Dual".
Definition data_without_dual : string := "    0     0   inf      3     ".
Definition data_without_lower : string := "    0         inf      3     ".
Definition data_short : string := "    0     0   inf".

(** The state of [doc_nonconsecutive] on the first line of its COLUMNS
    section, line 7. *)
Definition nonconsecutive_state : ParseState :=
  mkParseState (JS.splitLines doc_nonconsecutive) 6
    {[ "COST" := "N"; "R1" := "L"; "R2" := "L" ]}.

Definition nonconsecutive_model : Model :=
  mkModel "test" minimize (Some "COST")
    {[ "COST" := (neg_infinity, infinity);
       "R1" := (neg_infinity, 0%float); "R2" := (neg_infinity, 0%float) ]}
    ∅ ∅ ∅ ∅.

(* ===================================================================== *)
(** ** More notions and values for the statements below *)
(* ===================================================================== *)

(** The model [modelFromMps] returns for [doc_minimal] and [minimize]. *)
Definition minimal_model : Model :=
  mkModel "test" minimize (Some "COST")
    {[ "COST" := (neg_infinity, infinity); "LIM1" := (neg_infinity, 10%float) ]}
    {[ "X" := {[ "COST" := 1%float; "LIM1" := 1%float ]} ]}
    ∅ ∅ ∅.

(** The model [modelFromMps] returns for [doc_up_only] and [minimize]. *)
Definition up_only_result : Model :=
  mkModel "test" minimize (Some "COST")
    {[ "COST" := (neg_infinity, infinity); "LIM1" := (neg_infinity, 10%float) ]}
    {[ "X" := {[ "COST" := 1%float; "LIM1" := 1%float ]} ]}
    ∅ ∅ {[ "X" := (0%float, (-5)%float) ]}.

(** The coefficients of every column of a state: for rows that have a
    type, and numbers. *)
Definition coefficients_ok_in (s : ParseState) (variable : gmap string float) : Prop :=
  forall row x, variable !! row = Some x ->
    is_Some (constraintTypes s !! row) /\ JS.isNaN x = false.

(** The text of line [i] of a document as a section header: the line
    without the white space at its end. *)
Definition sectionAt (ls : list string) (i : nat) : option string :=
  option_map JS.trimEnd (ls !! i).

(** Where a section loop stops without error: on a line of the same
    document that reads ENDATA, not before the line it started on. *)
Definition stops_on_ENDATA (s s' : ParseState) : Prop :=
  lines s' = lines s /\ index s <= index s' /\
  sectionAt (lines s) (index s') = Some "ENDATA".

(** From line [i] on, the header RHS stands at [i3] and ENDATA at [i4]. *)
Definition rhs_then_ENDATA (ls : list string) (i i3 i4 : nat) : Prop :=
  i <= i3 /\ i3 <= i4 /\
  sectionAt ls i3 = Some "RHS" /\ sectionAt ls i4 = Some "ENDATA".

(** A document made of the lines [ls], each ended by [eol]. *)
Definition unlinesWith (eol : string) (ls : list string) : string :=
  foldr (fun l doc => l +:+ eol +:+ doc) "" ls.

Definition CRLF : string := String "013" (String "010" EmptyString).

Fixpoint hasLF (s : string) : bool :=
  match s with
  | EmptyString => false
  | String c s' => Ascii.eqb c "010" || hasLF s'
  end.

(** A line of text: no line feed in it, and no carriage return at its
    end. *)
Definition plainLine (l : string) : Prop :=
  hasLF l = false /\ lastChar l <> Some "013"%char.

(** A document with every section, two rows of type N, an integer column,
    comments, and entries of several types. *)
Definition doc_full : string :=
  unlines
    [ "* a model with every section";
      "NAME          full";
      "ROWS";
      " N  COST";
      " N  OTHER";
      " L  CAP";
      " G  DEM";
      " E  BAL";
      "COLUMNS";
      "    X         COST      1.0            CAP       1.0";
      "    X         BAL       1.0";
      "    MARKER    'MARKER'  'INTORG'";
      "    Y         COST      2.0            DEM       1.0";
      "    MARKER    'MARKER'  'INTEND'";
      "* the last column";
      "    Z         OTHER     3.0            BAL       -1.0";
      "RHS";
      "    RHS       CAP       8.0            DEM       2.0";
      "    RHS       BAL       10.0           COST      7.0";
      "RANGES";
      "    RNG       CAP       3.0            DEM       -4.0";
      "BOUNDS";
      " UP BND       X         4.0";
      " MI BND       Y";
      " BV BND       Z";
      "ENDATA" ].

(** The lines of [doc_full] by name. *)
Definition full_row_COST : string := " N  COST".
Definition full_row_OTHER : string := " N  OTHER".
Definition full_row_CAP : string := " L  CAP".
Definition full_column_X : string := "    X         COST      1.0            CAP       1.0".
Definition full_marker_INTORG : string := "    MARKER    'MARKER'  'INTORG'".
Definition full_column_Y : string := "    Y         COST      2.0            DEM       1.0".
Definition full_rhs_CAP_DEM : string := "    RHS       CAP       8.0            DEM       2.0".
Definition full_range_CAP_DEM : string := "    RNG       CAP       3.0            DEM       -4.0".
Definition full_bound_UP_X : string := " UP BND       X         4.0".
Definition full_bound_MI_Y : string := " MI BND       Y".
Definition full_bound_BV_Z : string := " BV BND       Z".

(** The state of [doc_full] on line [i + 1], with the row types [types]. *)
Definition full_state (i : nat) (types : gmap string string) : ParseState :=
  mkParseState (JS.splitLines doc_full) i types.

Definition full_types : gmap string string :=
  {[ "COST" := "N"; "OTHER" := "N"; "CAP" := "L"; "DEM" := "G"; "BAL" := "E" ]}.

(** The model of [doc_full] before its ROWS section, after it, after its
    COLUMNS section and after its RHS section. *)
Definition full_model_named : Model := mkModel "full" minimize None ∅ ∅ ∅ ∅ ∅.

Definition full_model_rows : Model :=
  mkModel "full" minimize (Some "COST")
    {[ "COST" := (neg_infinity, infinity); "OTHER" := (neg_infinity, infinity);
       "CAP" := (neg_infinity, 0%float); "DEM" := (0%float, infinity);
       "BAL" := (0%float, 0%float) ]}
    ∅ ∅ ∅ ∅.

Definition full_model_columns : Model :=
  set_integers {[ "Y" ]}
    (set_variables
       {[ "X" := {[ "COST" := 1%float; "CAP" := 1%float; "BAL" := 1%float ]};
          "Y" := {[ "COST" := 2%float; "DEM" := 1%float ]};
          "Z" := {[ "OTHER" := 3%float; "BAL" := (-1)%float ]} ]}
       full_model_rows).

Definition full_model_rhs : Model :=
  set_constraints
    {[ "COST" := (neg_infinity, infinity); "OTHER" := (neg_infinity, infinity);
       "CAP" := (neg_infinity, 8%float); "DEM" := (2%float, infinity);
       "BAL" := (10%float, 10%float) ]}
    full_model_columns.

(** The model [modelFromMps] returns for [doc_full] and [minimize]. *)
Definition full_model : Model :=
  mkModel "full" minimize (Some "COST")
    {[ "COST" := (neg_infinity, infinity); "OTHER" := (neg_infinity, infinity);
       "CAP" := (5%float, 8%float); "DEM" := (2%float, 6%float);
       "BAL" := (10%float, 10%float) ]}
    {[ "X" := {[ "COST" := 1%float; "CAP" := 1%float; "BAL" := 1%float ]};
       "Y" := {[ "COST" := 2%float; "DEM" := 1%float ]};
       "Z" := {[ "OTHER" := 3%float; "BAL" := (-1)%float ]} ]}
    {[ "Y" ]} {[ "Z" ]}
    {[ "X" := (0%float, 4%float); "Y" := (neg_infinity, 0%float) ]}.

(** [doc_full] while its RHS section is read: CAP has its value, the
    other rows not yet. *)
Definition full_model_rhs_CAP : Model :=
  set_constraints (<[ "CAP" := (neg_infinity, 8%float) ]> (constraints full_model_columns))
    full_model_columns.

(** The lines of [doc_minimal]. *)
Definition minimal_lines : list string :=
  [ "NAME          test";
    "ROWS";
    " N  COST";
    " L  LIM1";
    "COLUMNS";
    "    X         COST      1.0            LIM1      1.0";
    "RHS";
    "    RHS       LIM1      10.0";
    "ENDATA" ].

(* ===================================================================== *)
(** ** The solution report (post.js, lines 433-511) *)
(* ===================================================================== *)

(** *** Numbers from text: [Number(s)] and [parseInt(s)] *)

Module JSNumber.

(** The value of a digit or a letter as a digit of [radix]. *)
Definition digitIn (radix : Z) (c : ascii) : option Z :=
  let n := Z.of_nat (nat_of_ascii c) in
  let d :=
    if ((48 <=? n) && (n <=? 57))%Z then Some (n - 48)%Z
    else if ((97 <=? n) && (n <=? 122))%Z then Some (n - 87)%Z
    else if ((65 <=? n) && (n <=? 90))%Z then Some (n - 55)%Z
    else None in
  match d with
  | Some v => if (v <? radix)%Z then Some v else None
  | None => None
  end.

Fixpoint readDigitsIn (radix : Z) (s : string) (acc : Z) (cnt : nat)
    : Z * nat * string :=
  match s with
  | EmptyString => (acc, cnt, s)
  | String c s' =>
      match digitIn radix c with
      | Some d => readDigitsIn radix s' (radix * acc + d) (S cnt)
      | None => (acc, cnt, s)
      end
  end.

(** The rest of a literal after its digits: nothing, or a whole
    [ExponentPart]. *)
Definition readExponentExact (s : string) : option Z :=
  match s with
  | EmptyString => Some 0%Z
  | String c s' =>
      if Ascii.eqb c "e" || Ascii.eqb c "E" then
        let '(neg, s'') :=
          match s' with
          | String "-" t => (true, t)
          | String "+" t => (false, t)
          | _ => (false, s')
          end in
        match JS.readDigits s'' 0 0 with
        | (e, S _, EmptyString) => Some (if (neg : bool) then (- e)%Z else e)
        | _ => None
        end
      else None
  end.

(** A whole [StrUnsignedDecimalLiteral], or [nan]. *)
Definition unsignedNumber (neg : bool) (s : string) : float :=
  if String.eqb s "Infinity" then (if neg then neg_infinity else infinity)
  else
    let '(ip, ni, r1) := JS.readDigits s 0 0 in
    match r1 with
    | String "." r1' =>
        let '(mant, nf, r2) := JS.readDigits r1' ip 0 in
        match ni, nf with
        | O, O => nan
        | _, _ =>
            match readExponentExact r2 with
            | Some e => JS.decimalToNumber neg mant (e - Z.of_nat nf)
            | None => nan
            end
        end
    | _ =>
        match ni with
        | O => nan
        | _ =>
            match readExponentExact r1 with
            | Some e => JS.decimalToNumber neg ip e
            | None => nan
            end
        end
    end.

(** The digits of a [NonDecimalIntegerLiteral] after its prefix. *)
Definition nonDecimal (radix : Z) (s : string) : float :=
  match readDigitsIn radix s 0 0 with
  | (v, S _, EmptyString) => JS.decimalToNumber false v 0
  | _ => nan
  end.

(** [s] without a prefix [0a] or [0b]. *)
Definition prefixed (a b : ascii) (s : string) : option string :=
  match s with
  | String "0" (String c rest) =>
      if Ascii.eqb c a || Ascii.eqb c b then Some rest else None
  | _ => None
  end.

(** [Number(s)], which is [+s]: the white space around [s] apart, the
    whole of [s] is a numeric literal, or nothing (which is 0); [nan]
    otherwise. *)
Definition toNumber (s : string) : float :=
  let t := JS.trim s in
  match t with
  | EmptyString => 0%float
  | _ =>
      match prefixed "x" "X" t, prefixed "o" "O" t, prefixed "b" "B" t with
      | Some r, _, _ => nonDecimal 16 r
      | _, Some r, _ => nonDecimal 8 r
      | _, _, Some r => nonDecimal 2 r
      | None, None, None =>
          match t with
          | String "-" u => unsignedNumber true u
          | String "+" u => unsignedNumber false u
          | _ => unsignedNumber false t
          end
      end
  end.

(** [parseInt(s)] with no radix: a sign, then hexadecimal digits after
    [0x] and decimal digits otherwise, as far as they go. *)
Definition parseInt (s : string) : float :=
  let t := JS.trimStart s in
  let '(neg, u) :=
    match t with
    | String "-" u => (true, u)
    | String "+" u => (false, u)
    | _ => (false, t)
    end in
  let '(radix, v) :=
    match prefixed "x" "X" u with
    | Some r => (16%Z, r)
    | None => (10%Z, u)
    end in
  match readDigitsIn radix v 0 0 with
  | (_, O, _) => nan
  | (n, _, _) => JS.decimalToNumber neg n 0
  end.

End JSNumber.

(** *** Lines of the report *)

Definition parseNum (s : string) : float :=
  if String.eqb s "inf" then infinity
  else if String.eqb s "-inf" then neg_infinity
  else JSNumber.toNumber s.

(** What a field of a record holds. The last two kinds come from headers
    that name a property of [Object.prototype]. *)
Inductive Cell :=
| CellString (s : string)
| CellNumber (x : float)
| CellBoolean (b : bool)
| CellStringObject (s : string).

(** What the report reader throws: its two [Error]s, and the [TypeError]
    of the engine when a line, a match or a function is missing. *)
Inductive ReportError :=
| TooFewLines
| UnparseableLine (line : string)
| TypeError.

Definition reportMessage (e : ReportError) : option string :=
  match e with
  | TooFewLines => Some "Unable to parse solution. Too few lines."
  | UnparseableLine line => Some ("Unable to parse solution line: " +:+ line)
  | TypeError => None
  end.

(** [parser ? parser(value) : value] for [parser = known_columns[header]].
    [known_columns] is an object literal: besides its five own properties,
    [known_columns[header]] finds the properties of [Object.prototype], and
    calls them with no [this]. *)
Definition decode (header value : string) : ReportError + Cell :=
  if String.eqb header "Index" then inr (CellNumber (JSNumber.parseInt value))
  else if existsb (String.eqb header) ["Lower"; "Upper"; "Primal"; "Dual"]
  then inr (CellNumber (parseNum value))
  else if String.eqb header "constructor" then inr (CellStringObject value)
  else if String.eqb header "toString" then inr (CellString "[object Undefined]")
  else if String.eqb header "isPrototypeOf" then inr (CellBoolean false)
  else if existsb (String.eqb header)
            ["valueOf"; "hasOwnProperty"; "propertyIsEnumerable";
             "toLocaleString"; "__defineGetter__"; "__defineSetter__";
             "__lookupGetter__"; "__lookupSetter__"; "__proto__"]
  then inl TypeError
  else inr (CellString value).

Definition lineValues (s : string) : list string := map snd (JS.matchAll s).

(** The loop of [lineToObj] from index [idx] on, [values] being the values
    from that index on. *)
Fixpoint lineToObjLoop (headers : list string) (line : string)
    (values : list string) (idx : nat) (result : gmap string Cell)
    : ReportError + gmap string Cell :=
  match values with
  | [] => inr result
  | value :: rest =>
      match headers !! idx with
      | None => inl (UnparseableLine line)
      | Some header =>
          parsed <- decode header value ;;
          lineToObjLoop headers line rest (S idx) (<[header := parsed]> result)
      end
  end.

(** [lineToObj(headers, line)]; [line] is [None] when the caller passes
    [undefined], a line that is not there. *)
Definition lineToObj (headers : list string) (line : option string)
    : ReportError + gmap string Cell :=
  match line with
  | None => inl TypeError
  | Some l => lineToObjLoop headers l (lineValues l) 0 ∅
  end.

(** [headersForNonEmptyColumns] on lines that may not be there: without a
    data line, the first header that is looked under throws. *)
Definition headersOf (headerLine firstDataLine : option string)
    : ReportError + list string :=
  match headerLine with
  | None => inl TypeError
  | Some h =>
      match firstDataLine with
      | Some d => inr (headersForNonEmptyColumns h d)
      | None =>
          match JS.matchAll h with
          | [] => inr []
          | _ => inl TypeError
          end
      end
  end.

Record Solution := mkSolution {
  Status : string;
  Columns : gmap string (gmap string Cell);
  Rows : list (gmap string Cell);
  ObjectiveValue : float
}.

(** [obj["Name"]] as a property key. The header [Name] has no parser, so
    the field is text when it is there; [undefined] gives the key
    [undefined]. *)
Definition columnKey (obj : gmap string Cell) : string :=
  match obj !! "Name" with
  | Some (CellString n) => n
  | Some (CellStringObject n) => n
  | Some (CellBoolean b) => if b then "true" else "false"
  | Some (CellNumber _) => "NaN" (* no such record: see [decode] *)
  | None => "undefined"
  end.

(** [columns[obj["Name"]] = obj]: the key [__proto__] sets the prototype
    and adds no property. *)
Definition insertColumn (columns : gmap string (gmap string Cell))
    (obj : gmap string Cell) : gmap string (gmap string Cell) :=
  if String.eqb (columnKey obj) "__proto__" then columns
  else <[columnKey obj := obj]> columns.

(** The loop over the columns table from line [i] on, [rest] being the
    lines from [i] on: it stops on the line [Rows]. Past the last line,
    [lines[i]] is [undefined], which is not [Rows], and [lineToObj]
    throws. *)
Fixpoint columnsLoop (headers : list string) (rest : list string) (i : nat)
    (columns : gmap string (gmap string Cell))
    : ReportError + nat * gmap string (gmap string Cell) :=
  match rest with
  | [] => inl TypeError
  | l :: rest' =>
      if String.eqb l "Rows" then inr (i, columns)
      else
        obj <- lineToObj headers (Some l) ;;
        columnsLoop headers rest' (S i) (insertColumn columns obj)
  end.

(** The loop over the rows table from line [j] on: it stops on an empty
    line. *)
Fixpoint rowsLoop (headers : list string) (rest : list string) (j : nat)
    (rows : list (gmap string Cell))
    : ReportError + nat * list (gmap string Cell) :=
  match rest with
  | [] => inl TypeError
  | l :: rest' =>
      if String.eqb l "" then inr (j, rows)
      else
        obj <- lineToObj headers (Some l) ;;
        rowsLoop headers rest' (S j) (rows ++ [obj])
  end.

(** The characters [.] matches, from the start of [s] on. *)
Fixpoint takeLine (s : string) : string :=
  match s with
  | EmptyString => EmptyString
  | String c s' =>
      if Ascii.eqb c "010" || Ascii.eqb c "013" then EmptyString
      else String c (takeLine s')
  end.

(** [s.match(/Objective value: (.+)/)[1]]: the first place where the text
    stands with a character after it, and the characters after it up to
    the end of the line. [None] is [null]. *)
Fixpoint matchObjective (s : string) : option string :=
  match s with
  | EmptyString => None
  | String _ s' =>
      match (if JS.startsWith "Objective value: " s
             then takeLine (JS.substring 17 (String.length s) s)
             else EmptyString) with
      | EmptyString => matchObjective s'
      | capture => Some capture
      end
  end.

Definition parseResult (lines : list string) (status : string)
    : ReportError + Solution :=
  if Nat.ltb (length lines) 3 then inl TooFewLines
  else
    headers <- headersOf (lines !! 1) (lines !! 2) ;;
    found <- columnsLoop headers (drop 2 lines) 2 ∅ ;;
    let '(i, columns) := found in
    headers' <- headersOf (lines !! (i + 1)) (lines !! (i + 2)) ;;
    found' <- rowsLoop headers' (drop (i + 2) lines) (i + 2) [] ;;
    let '(j, rows) := found' in
    match lines !! (j + 3) with
    | None => inl TypeError
    | Some l =>
        match matchObjective l with
        | None => inl TypeError
        | Some text => inr (mkSolution status columns rows (parseNum text))
        end
    end.

(** A report, as the engine prints it. *)
Definition report_lines : list string :=
  [ "Columns";
    "    Index Status        Lower        Upper       Primal         Dual  Name";
    "        0     BS            0           40         17.5           -0  x1";
    "        1     LB            0          inf            0          2.5  x2";
    "Rows";
    "    Index Status        Lower        Upper       Primal         Dual  Name";
    "        0     UB         -inf           20           20           -1  c1";
    "";
    "Model status: Optimal";
    "";
    "Objective value: 87.5" ].

(** The records of the lines [ls], in order, or the error of the first line
    that has none. *)
Fixpoint lineRecords (headers : list string) (ls : list string)
    : ReportError + list (gmap string Cell) :=
  match ls with
  | [] => inr []
  | l :: ls' =>
      obj <- lineToObj headers (Some l) ;;
      objs <- lineRecords headers ls' ;;
      inr (obj :: objs)
  end.

(** [s] holds no line terminator. *)
Fixpoint oneLine (s : string) : bool :=
  match s with
  | EmptyString => true
  | String c s' => negb (Ascii.eqb c "010" || Ascii.eqb c "013") && oneLine s'
  end.

(** The words [ts] with [gap] between them. *)
Fixpoint spaced (gap : string) (ts : list string) : string :=
  match ts with
  | [] => EmptyString
  | [t] => t
  | t :: ts' => t +:+ gap +:+ spaced gap ts'
  end.

Definition report_record (index : float) (status : string)
    (lower upper primal dual : float) (name : string) : gmap string Cell :=
  <["Index" := CellNumber index]>
    (<["Status" := CellString status]>
      (<["Lower" := CellNumber lower]>
        (<["Upper" := CellNumber upper]>
          (<["Primal" := CellNumber primal]>
            (<["Dual" := CellNumber dual]>
              (<["Name" := CellString name]> ∅)))))).

Definition report_x1 : gmap string Cell :=
  report_record 0 "BS" 0 40 17.5 (-0) "x1".

Definition report_x2 : gmap string Cell :=
  report_record 1 "LB" 0 infinity 0 2.5 "x2".

Definition report_c1 : gmap string Cell :=
  report_record 0 "UB" neg_infinity 20 20 (-1) "c1".

Definition report_solution : Solution :=
  mkSolution "Optimal" (<["x1" := report_x1]> (<["x2" := report_x2]> ∅))
    [report_c1] 87.5.

Definition report_headers : list string :=
  ["Index"; "Status"; "Lower"; "Upper"; "Primal"; "Dual"; "Name"].

(* ===================================================================== *)
(** ** Places in a document *)
(* ===================================================================== *)

(** A comment or a data line: what the loop of a section steps over or
    reads on. *)
Definition bodyLine (l : string) : bool :=
  JS.startsWith "*" l || JS.startsWith " " l.

(** The lines of [ls] between its lines [a] and [b], both left out. *)
Definition between (ls : list string) (a b : nat) : list string :=
  take (b - S a) (drop (S a) ls).

(** Line [n] of [ls] is the data line [l]. *)
Definition dataAt (ls : list string) (n : nat) (l : string) : Prop :=
  ls !! n = Some l /\ JS.startsWith " " l = true.

(** Line [n] of [ls] lies in the ROWS section: the first line that starts
    with NAME is line [i0], the line below it reads ROWS, and from there
    to line [n] there are only comments and data lines. Lines count from
    0. *)
Definition inRows (ls : list string) (i0 n : nat) : Prop :=
  JS.findIndex (JS.startsWith "NAME") ls = Some i0 /\
  sectionAt ls (i0 + 1) = Some "ROWS" /\
  i0 + 1 < n /\
  forallb bodyLine (between ls (i0 + 1) n) = true.

(** Line [n] of [ls] lies in the COLUMNS section: the ROWS section goes up
    to line [c], which reads COLUMNS, and from there to line [n] there are
    only comments and data lines. *)
Definition inColumns (ls : list string) (i0 c n : nat) : Prop :=
  inRows ls i0 c /\
  sectionAt ls c = Some "COLUMNS" /\
  c < n /\
  forallb bodyLine (between ls c n) = true.

(** A line that reads neither BOUNDS nor ENDATA. *)
Definition notBoundsOrEnd (l : string) : bool :=
  negb (String.eqb (JS.trimEnd l) "BOUNDS") &&
  negb (String.eqb (JS.trimEnd l) "ENDATA").

(** Line [b] of [ls] is the header of the BOUNDS section: of the lines
    after the first line that starts with NAME, line [i0], it is the first
    to read BOUNDS or ENDATA, and it reads BOUNDS. *)
Definition boundsHeader (ls : list string) (i0 b : nat) : Prop :=
  JS.findIndex (JS.startsWith "NAME") ls = Some i0 /\
  i0 < b /\
  sectionAt ls b = Some "BOUNDS" /\
  forallb notBoundsOrEnd (between ls i0 b) = true.

(** The data lines at the start of [ls]: comments are left out, and the
    first line that is neither a comment nor a data line ends them. *)
Fixpoint bodyFrom (ls : list string) : list string :=
  match ls with
  | [] => []
  | l :: ls' =>
      if JS.startsWith "*" l then bodyFrom ls'
      else if JS.startsWith " " l then l :: bodyFrom ls'
      else []
  end.

(** The data lines of the section whose header is line [h] of [ls]. *)
Definition sectionBody (ls : list string) (h : nat) : list string :=
  bodyFrom (drop (S h) ls).

(** A run of a reader that ends with an error on a line before line [n]
    (lines count from 0). *)
Definition failsBefore (R : option Outcome) (n : nat) : Prop :=
  exists s m e, R = Some (s, m, Some e) /\ index s < n.

(** What [modelFromMps] makes of the outcome of [readName]. *)
Definition thrownOrModel (R : option Outcome) : option (Thrown + Model) :=
  match R with
  | None => None
  | Some (s, _, Some error) => Some (inl (mkThrown (index s + 1) error))
  | Some (_, m, None) => Some (inr m)
  end.

(** The rest of a turn of the [while] of [readColumns] (lines 156-173)
    from the line [l] of column [name] on: the [do ... while] from [l],
    with the coefficients [variable] of the lines of the column before
    [l], then the column is stored and the loop goes on. *)
Definition columnFrom (fuel fuelB : nat) (s : ParseState) (m : Model)
    (integerMarked : bool) (variable : gmap string float) (name l : string)
    : option Outcome :=
  match columnBlock fuelB s variable name l with
  | None => None
  | Some (s', inl err) => Some (s', m, Some err)
  | Some (s', inr (variable', line')) =>
      let m1 := set_variables (<[name := variable']> (variables m)) m in
      let m2 := if integerMarked then integers_add name m1 else m1 in
      readColumnsLoop fuel s' m2 integerMarked line'
  end.

(** Every data line of [ls] from line [a] on and before line [b] that is
    not a marker line names a column of [m]. *)
Definition columnsStored (ls : list string) (a b : nat) (m : Model) : Prop :=
  forall j l, a <= j < b -> dataAt ls j l -> field3 l <> "'MARKER'" ->
              JS.has (variables m) (field2 l) = true.

(** Every data line of [ls] from line [a] on and before line [b] names a
    row that has a type in [s]. *)
Definition rowsTyped (ls : list string) (a b : nat) (s : ParseState) : Prop :=
  forall j l, a <= j < b -> dataAt ls j l ->
              JS.has (constraintTypes s) (field2 l) = true.


(** A COLUMNS line with a row name in field 5 and nothing in field 6, and
    nothing in field 3 either. *)
Definition doc_first_pair_refused : string :=
  unlines
    [ "NAME          test";
      "ROWS";
      " N  COST";
      " L  LIM1";
      "COLUMNS";
      "    X                   1.0            LIM1";
      "RHS";
      "ENDATA" ].


(** What [modelFromMps] makes of the second pair of the COLUMNS line [l],
    the line at index [n], whose number is [n + 1]: [out] is what it
    returns or throws. The first three errors are those that the line can
    raise before its second pair is looked at, when its first four fields
    are filled in and the value is a number. *)
Definition thrownEarlier (n : nat) (out : Thrown + Model) : Prop :=
  exists t, out = inl t /\ thrownLine t <= n.

Definition firstPairRefused (l : string) (n : nat) (out : Thrown + Model) : Prop :=
  exists e, out = inl (mkThrown (n + 1) e) /\
    In e [NonConsecutiveColumn (field2 l); UndefinedRow (field3 l);
          DuplicateCoefficient (field3 l)].

Definition secondPairOutcome (l : string) (n : nat) (out : Thrown + Model) : Prop :=
  (field5 l = "" -> field6 l = "" ->
     out <> inl (mkThrown (n + 1) MissingRowName)) /\
  (field5 l <> "" -> field6 l <> "" ->
     forall m, out = inr m ->
       exists variable, variables m !! field2 l = Some variable /\
         variable !! field5 l = Some (JS.parseFloat (field6 l))) /\
  (field5 l <> "" -> field6 l = "" ->
     thrownEarlier n out \/ firstPairRefused l n out \/
     out = inl (mkThrown (n + 1) MissingCoefficient)) /\
  (field5 l = "" -> field6 l <> "" ->
     thrownEarlier n out \/ firstPairRefused l n out \/
     out = inl (mkThrown (n + 1) MissingRowName)).

(** No line of [ls] between line [a] and line [b] reads BOUNDS or
    ENDATA. *)
Definition quiet (ls : list string) (a b : nat) : Prop :=
  forall k l, a < k < b -> ls !! k = Some l -> notBoundsOrEnd l = true.

(** The line a loop holds is the line of the state. *)
Definition onLine (ls : list string) (s : ParseState) (line : option string) : Prop :=
  forall l, line = Some l -> ls !! index s = Some l.

(** Where a parse that ends without error in [s_f] with the model [m_f]
    has got to: the call of [readBounds] on the first line after line [a]
    to read BOUNDS or ENDATA, or the end on such a line that reads
    ENDATA. *)
Definition arrives (ls : list string) (a : nat) (s_f : ParseState) (m_f : Model)
    : Prop :=
  (exists sb mb,
     lines sb = ls /\ a < index sb /\ quiet ls a (index sb) /\
     sectionAt ls (index sb) = Some "BOUNDS" /\
     readBounds sb mb = Some (s_f, m_f, None)) \/
  (lines s_f = ls /\ a < index s_f /\ quiet ls a (index s_f) /\
   sectionAt ls (index s_f) = Some "ENDATA").

(* ===================================================================== *)
(** ** Facts about the string built-ins *)
(* ===================================================================== *)

Section StringFacts.

Lemma length_list_ascii (s : string) :
  length (list_ascii_of_string s) = String.length s.
Proof. induction s as [|c s IH]; simpl; congruence. Qed.

Lemma stdlib_substring_slice (s : string) : forall n m,
  String.substring n m s =
  string_of_list_ascii (take m (drop n (list_ascii_of_string s))).
Proof.
  induction s as [|c s IH]; intros [|n] [|m]; simpl; try reflexivity.
  - rewrite IH. rewrite drop_0. reflexivity.
  - rewrite IH. reflexivity.
  - rewrite IH. reflexivity.
Qed.

(** With its arguments in order, [substring] is the window: clamping to
    the length loses nothing. *)
Lemma substring_window (a b : nat) (line : string) :
  a <= b -> JS.substring a b line = window a b line.
Proof.
  intros Hab. unfold JS.substring, window.
  rewrite stdlib_substring_slice. f_equal.
  rewrite <- length_list_ascii.
  set (l := list_ascii_of_string line). set (n := length l).
  replace (Nat.min (Nat.min a n) (Nat.min b n)) with (Nat.min a n) by lia.
  replace (Nat.max (Nat.min a n) (Nat.min b n)) with (Nat.min b n) by lia.
  destruct (Nat.le_gt_cases n a) as [Hle|Hlt].
  - rewrite (drop_ge l a) by (fold n; lia).
    rewrite (drop_ge l (Nat.min a n)) by (fold n; lia).
    rewrite !take_nil. reflexivity.
  - replace (Nat.min a n) with a by lia.
    destruct (Nat.le_gt_cases b n) as [Hb|Hb].
    + replace (Nat.min b n) with b by lia. reflexivity.
    + rewrite !take_ge; [reflexivity | |]; rewrite length_drop; fold n; lia.
Qed.

Lemma allWhiteSpace_trimStart (s : string) :
  allWhiteSpace s = true -> JS.trimStart s = "".
Proof.
  induction s as [|c s IH]; simpl; [reflexivity|].
  intros [Hc Hs]%andb_prop. rewrite Hc. auto.
Qed.

Lemma allWhiteSpace_trimEnd (s : string) :
  allWhiteSpace s = true -> JS.trimEnd s = "".
Proof.
  induction s as [|c s IH]; simpl; [reflexivity|].
  intros [Hc Hs]%andb_prop. rewrite IH, Hc by assumption. reflexivity.
Qed.

Lemma trimStart_split (w : string) :
  exists pre, w = pre +:+ JS.trimStart w /\ allWhiteSpace pre = true.
Proof.
  induction w as [|c w [pre [Hw Hpre]]]; simpl.
  - exists "". split; reflexivity.
  - destruct (JS.isWhiteSpace c) eqn:Hc.
    + exists (String c pre). split.
      * change (String c w = String c (pre +:+ JS.trimStart w)). f_equal. exact Hw.
      * simpl. rewrite Hc. exact Hpre.
    + exists "". split; reflexivity.
Qed.

Lemma trimStart_first (w : string) (c : ascii) :
  firstChar (JS.trimStart w) = Some c -> JS.isWhiteSpace c = false.
Proof.
  induction w as [|c' w IH]; simpl; [discriminate|].
  destruct (JS.isWhiteSpace c') eqn:Hc; [exact IH|].
  simpl. congruence.
Qed.

Lemma trimEnd_split (t : string) :
  exists post, t = JS.trimEnd t +:+ post /\ allWhiteSpace post = true.
Proof.
  induction t as [|c t [post [Ht Hpost]]]; simpl.
  - exists "". split; reflexivity.
  - destruct (JS.trimEnd t) as [|c' t'] eqn:Ht'.
    + destruct (JS.isWhiteSpace c) eqn:Hc.
      * exists (String c t). split; [reflexivity|].
        simpl. rewrite Hc. simpl in Ht. rewrite Ht. exact Hpost.
      * exists post. split; [|assumption].
        change (String c t = String c ("" +:+ post)). f_equal. exact Ht.
    + exists post. split; [|assumption].
      change (String c t = String c (String c' t' +:+ post)). f_equal. exact Ht.
Qed.

Lemma trimEnd_last (t : string) (c : ascii) :
  lastChar (JS.trimEnd t) = Some c -> JS.isWhiteSpace c = false.
Proof.
  induction t as [|c' t IH]; simpl; [discriminate|].
  destruct (JS.trimEnd t) as [|c'' t'] eqn:Ht'.
  - destruct (JS.isWhiteSpace c') eqn:Hc; simpl; [discriminate | congruence].
  - intros H. apply IH. exact H.
Qed.

Lemma trimEnd_first (t : string) (c : ascii) :
  firstChar (JS.trimEnd t) = Some c -> firstChar t = Some c.
Proof.
  destruct t as [|c' t]; simpl; [discriminate|].
  destruct (JS.trimEnd t); [destruct (JS.isWhiteSpace c')|]; simpl; congruence.
Qed.

(** [trim] removes exactly the leading and trailing white space. *)
Lemma trim_trimmed_of (w : string) : trimmed_of w (JS.trim w).
Proof.
  destruct (trimStart_split w) as [pre [Hw Hpre]].
  destruct (trimEnd_split (JS.trimStart w)) as [post [Ht Hpost]].
  exists pre, post. unfold JS.trim. repeat split; try assumption.
  - rewrite <- Ht. exact Hw.
  - intros c Hc. apply (trimStart_first w), trimEnd_first, Hc.
  - intros c. apply trimEnd_last.
Qed.

Lemma trimStart_skip (pre x : string) :
  allWhiteSpace pre = true -> JS.trimStart (pre +:+ x) = JS.trimStart x.
Proof.
  induction pre as [|c pre IH]; simpl; [reflexivity|].
  intros [Hc Hs]%andb_prop. rewrite Hc. auto.
Qed.

Lemma trimEnd_cons (c : ascii) (s : string) :
  JS.trimEnd (String c s) =
  match JS.trimEnd s with
  | EmptyString => if JS.isWhiteSpace c then EmptyString else String c EmptyString
  | t => String c t
  end.
Proof. reflexivity. Qed.

Lemma trimEnd_drop (r post : string) :
  allWhiteSpace post = true ->
  (forall c, lastChar r = Some c -> JS.isWhiteSpace c = false) ->
  JS.trimEnd (r +:+ post) = r.
Proof.
  intros Hpost. induction r as [|c r IH]; intros Hlast.
  - apply allWhiteSpace_trimEnd, Hpost.
  - change (String c r +:+ post) with (String c (r +:+ post)).
    rewrite trimEnd_cons. destruct r as [|c' r'].
    + change ("" +:+ post) with post.
      rewrite (allWhiteSpace_trimEnd post Hpost).
      rewrite (Hlast c eq_refl). reflexivity.
    + rewrite IH by (intros x Hx; apply Hlast; exact Hx). reflexivity.
Qed.

(** ... and nothing else does: [trimmed_of] determines its result. *)
Lemma trimmed_of_unique (w r : string) : trimmed_of w r -> r = JS.trim w.
Proof.
  intros (pre & post & -> & Hpre & Hpost & Hfirst & Hlast).
  unfold JS.trim. rewrite trimStart_skip by assumption.
  destruct r as [|c r].
  - simpl. rewrite allWhiteSpace_trimStart by assumption. reflexivity.
  - change (String c r +:+ post) with (String c (r +:+ post)).
    simpl JS.trimStart. rewrite (Hfirst c eq_refl).
    change (String c (r +:+ post)) with (String c r +:+ post).
    symmetry. apply trimEnd_drop; assumption.
Qed.

End StringFacts.

(* ===================================================================== *)
(** ** The field extractor *)
(* ===================================================================== *)

(** C2, as the code has it: for every line, [field1] .. [field6] are the
    contents of the 0-based half-open windows [1,3), [4,12), [14,22),
    [24,36), [39,47) and [49,61) of the line, with leading and trailing
    white space removed. *)
Theorem field_windows (line : string) :
  trimmed_of (window 1 3 line) (field1 line) /\
  trimmed_of (window 4 12 line) (field2 line) /\
  trimmed_of (window 14 22 line) (field3 line) /\
  trimmed_of (window 24 36 line) (field4 line) /\
  trimmed_of (window 39 47 line) (field5 line) /\
  trimmed_of (window 49 61 line) (field6 line).
Proof.
  unfold field1, field2, field3, field4, field5, field6.
  repeat split; (rewrite substring_window by lia); apply trim_trimmed_of.
Qed.

(** C2, as the specification words it, fails: on [ruler], [field2] is not
    the trimmed window [3,11) (and the windows given for [field3] ..
    [field6] are off by one in the same way). *)
Lemma field_windows_spec_counterexample :
  ~ (forall line,
       trimmed_of (window 1 3 line) (field1 line) /\
       trimmed_of (window 3 11 line) (field2 line) /\
       trimmed_of (window 13 21 line) (field3 line) /\
       trimmed_of (window 23 35 line) (field4 line) /\
       trimmed_of (window 38 46 line) (field5 line) /\
       trimmed_of (window 48 60 line) (field6 line)).
Proof.
  intros H. destruct (H ruler) as (_ & H2 & _).
  apply trimmed_of_unique in H2. vm_compute in H2. discriminate H2.
Qed.

(* ===================================================================== *)
(** ** The built-ins on examples *)
(* ===================================================================== *)

Example substring_clamps :
  JS.substring 4 12 "0123456789" = "456789" /\
  JS.substring 14 22 "0123456789" = "" /\
  JS.substring 5 2 "0123456789" = "234".
Proof. repeat split. Qed.

Example trim_examples :
  JS.trim "  a b  " = "a b" /\ JS.trim "    " = "" /\
  JS.trimEnd "  ROWS  " = "  ROWS" /\
  JS.trim (String "009" ("x" +:+ String "013" "")) = "x".
Proof. repeat split. Qed.

Example splitLines_examples :
  JS.splitLines ("a" +:+ LF +:+ "b") = ["a"; "b"] /\
  JS.splitLines ("a" +:+ String "013" LF +:+ "b" +:+ LF) = ["a"; "b"; ""] /\
  JS.splitLines "" = [""] /\
  JS.splitLines (String "013" "a") = [String "013" "a"].
Proof. repeat split. Qed.

Example matchAll_examples :
  JS.matchAll "  a  bc d " = [(2, "a"); (5, "bc"); (8, "d")] /\
  JS.matchAll "ab" = [(0, "ab")] /\
  JS.matchAll "   " = [] /\
  JS.matchAll ("a" +:+ String "009" "b") = [(0, "a"); (2, "b")].
Proof. repeat split. Qed.

Example parseFloat_examples :
  JS.parseFloat "1.0" = 1%float /\
  JS.parseFloat "-5.0" = (-5)%float /\
  JS.parseFloat "+.5E+1" = 5%float /\
  JS.parseFloat "1.5e3x" = 1500%float /\
  JS.parseFloat "1.5e" = 1.5%float /\
  JS.parseFloat "  12abc" = 12%float /\
  JS.parseFloat "0.1" = 0x1.999999999999ap-4%float /\
  JS.parseFloat "9007199254740993" = 9007199254740992%float /\
  JS.parseFloat "1e309" = infinity /\
  JS.parseFloat "-Infinity" = neg_infinity /\
  JS.parseFloat "-0" = (-0)%float /\
  JS.parseFloat "5e-324" = 0x0.0000000000001p-1022%float.
Proof. repeat split; vm_compute; reflexivity. Qed.

Example parseFloat_nan :
  JS.isNaN (JS.parseFloat "") = true /\
  JS.isNaN (JS.parseFloat "abc") = true /\
  JS.isNaN (JS.parseFloat ".") = true /\
  JS.isNaN (JS.parseFloat "-") = true /\
  JS.isNaN (JS.parseFloat "e5") = true.
Proof. repeat split. Qed.

(* ===================================================================== *)
(** ** [matchAll] finds the maximal runs that are not white space *)
(* ===================================================================== *)

Section MatchAll.

Lemma token_shift (c : ascii) (s' : string) (j : nat) (t : string) :
  isTokenAt (String c s') (S j) t <->
  isTokenAt s' j t /\ (j = 0 -> JS.isWhiteSpace c = true).
Proof.
  split.
  - intros (pre & post & Hs & Hlen & Ht & Hn & Hl & Hf).
    destruct pre as [|c0 pre']; [discriminate|].
    injection Hs as <- Hs'. injection Hlen as Hlen. split.
    + exists pre', post. repeat split; try assumption.
      intros x Hx. apply Hl. destruct pre'; [discriminate | exact Hx].
    + intros ->. destruct pre'; [|discriminate]. apply Hl. reflexivity.
  - intros [(pre' & post & Hs & Hlen & Ht & Hn & Hl & Hf) Hc].
    exists (String c pre'), post. repeat split; try assumption.
    + rewrite Hs. reflexivity.
    + simpl. congruence.
    + intros x Hx. destruct pre'.
      * injection Hx as <-. apply Hc. symmetry. exact Hlen.
      * apply Hl. exact Hx.
Qed.

Lemma token_zero (c : ascii) (s' t : string) :
  isTokenAt (String c s') 0 t <->
  exists t1 post,
    t = String c t1 /\ JS.isWhiteSpace c = false /\ noWhiteSpace t1 = true /\
    s' = t1 +:+ post /\
    (forall x, firstChar post = Some x -> JS.isWhiteSpace x = true).
Proof.
  split.
  - intros (pre & post & Hs & Hlen & Ht & Hn & Hl & Hf).
    destruct pre; [|discriminate]. destruct t as [|c1 t1]; [congruence|].
    injection Hs as <- Hs'. simpl in Hn. apply andb_prop in Hn as [Hc Hn].
    apply negb_true_iff in Hc. exists t1, post. auto.
  - intros (t1 & post & -> & Hc & Hn & -> & Hf).
    exists "", post. repeat split; try assumption; try discriminate.
    simpl. rewrite Hc, Hn. reflexivity.
Qed.

Lemma run_unique (t1 : string) : forall t2 p1 p2,
  t1 +:+ p1 = t2 +:+ p2 ->
  noWhiteSpace t1 = true -> noWhiteSpace t2 = true ->
  (forall x, firstChar p1 = Some x -> JS.isWhiteSpace x = true) ->
  (forall x, firstChar p2 = Some x -> JS.isWhiteSpace x = true) ->
  t1 = t2.
Proof.
  induction t1 as [|a t1 IH]; intros [|b t2] p1 p2 He H1 H2 F1 F2.
  - reflexivity.
  - exfalso. change ("" +:+ p1) with p1 in He. subst p1.
    simpl in H2. apply andb_prop in H2 as [Hb _].
    rewrite (F1 b eq_refl) in Hb. discriminate.
  - exfalso. change ("" +:+ p2) with p2 in He. subst p2.
    simpl in H1. apply andb_prop in H1 as [Ha _].
    rewrite (F2 a eq_refl) in Ha. discriminate.
  - injection He as <- He. simpl in H1, H2.
    apply andb_prop in H1 as [_ H1]. apply andb_prop in H2 as [_ H2].
    f_equal. eapply IH; eassumption.
Qed.

Lemma run_exists (s : string) :
  exists t post, s = t +:+ post /\ noWhiteSpace t = true /\
    (forall x, firstChar post = Some x -> JS.isWhiteSpace x = true).
Proof.
  induction s as [|c s (t & post & Hs & Hn & Hf)].
  - exists "", "". repeat split. discriminate.
  - destruct (JS.isWhiteSpace c) eqn:Hc.
    + exists "", (String c s). repeat split. intros x [= <-]. exact Hc.
    + exists (String c t), post. repeat split; [|simpl; rewrite Hc, Hn|]; try easy.
      rewrite Hs. reflexivity.
Qed.

Lemma no_token_in_empty (j : nat) (t : string) : ~ isTokenAt "" j t.
Proof.
  intros (pre & post & Hs & _ & Ht & _).
  destruct pre; [|discriminate]. destruct t; [congruence | discriminate].
Qed.

(** The matches of a string from index [k] on are its tokens, and the
    first match starts before the others. *)
Lemma matchAllFrom_tokens (s : string) : forall k,
  (forall i t, In (i, t) (JS.matchAllFrom s k) <->
               k <= i /\ isTokenAt s (i - k) t) /\
  (forall j t' rest, JS.matchAllFrom s k = (j, t') :: rest ->
     forall i t, In (i, t) rest -> j < i).
Proof.
  induction s as [|c s' IH]; intros k.
  { split; [|discriminate]. intros i t. simpl. split; [tauto|].
    intros [_ H]. exact (no_token_in_empty _ _ H). }
  destruct (IH (S k)) as [IHP IHH].
  assert (Hlater : forall i t, In (i, t) (JS.matchAllFrom s' (S k)) -> S k < i \/
                     (i = S k /\ isTokenAt s' 0 t)).
  { intros i t Hin. apply IHP in Hin as [Hle Ht].
    destruct (Nat.eq_dec i (S k)) as [->|Hne]; [right|left; lia].
    rewrite Nat.sub_diag in Ht. auto. }
  assert (Hshift : forall i t, S k < i ->
            (In (i, t) (JS.matchAllFrom s' (S k)) <->
             isTokenAt (String c s') (i - k) t)).
  { intros i t Hi. rewrite IHP.
    replace (i - k) with (S (i - S k)) by lia. rewrite token_shift.
    split; [intros [_ H]; split; [exact H | lia] | intros [H _]; split; [lia | exact H]]. }
  cbn [JS.matchAllFrom]. destruct (JS.isWhiteSpace c) eqn:Hc.
  - (* white space: the tokens of the rest, one further *)
    split.
    + intros i t. rewrite IHP. split.
      * intros [Hle Ht]. split; [lia|].
        replace (i - k) with (S (i - S k)) by lia.
        apply token_shift. auto.
      * intros [Hle Ht]. destruct (i - k) as [|j] eqn:Hj.
        -- apply token_zero in Ht as (t1 & post & _ & Hc' & _). congruence.
        -- apply token_shift in Ht as [Ht _].
           split; [lia|]. replace (i - S k) with j by lia. exact Ht.
    + intros j t' rest Heq i t Hin. eapply IHH; eassumption.
  - (* a character of a token *)
    destruct (JS.matchAllFrom s' (S k)) as [|[j0 t0] rest] eqn:HL.
    + (* nothing follows *)
      split; [|intros j t' rest [= <- <- <-] i t []].
      intros i t. split.
      * intros [[= <- <-]|[]]. split; [lia|]. rewrite Nat.sub_diag.
        apply token_zero. exists "", s'. repeat split; try assumption.
        intros x Hx. destruct (JS.isWhiteSpace x) eqn:Hx'; [reflexivity|].
        exfalso. destruct (run_exists s') as (t1 & post & Hs & Hn & Hf).
        destruct t1 as [|a t1].
        { change ("" +:+ post) with post in Hs. subst post.
          rewrite (Hf x Hx) in Hx'. discriminate. }
        assert (isTokenAt s' 0 (String a t1)) as Htok.
        { exists "", post. repeat split; try assumption; discriminate. }
        assert (In (S k, String a t1) []) as [].
        { apply IHP. split; [lia|]. rewrite Nat.sub_diag. exact Htok. }
      * intros [Hle Ht]. destruct (i - k) as [|j] eqn:Hj.
        -- left. replace i with k by lia.
           apply token_zero in Ht as (t1 & post & -> & _ & Hn & Hs & Hf).
           destruct t1 as [|a t1]; [reflexivity|]. exfalso.
           assert (In (S k, String a t1) []) as [].
           apply IHP. split; [lia|]. rewrite Nat.sub_diag.
           exists "", post. repeat split; try assumption; discriminate.
        -- exfalso. apply token_shift in Ht as [Ht _].
           assert (In (i, t) []) as [].
           apply IHP. split; [lia|]. replace (i - S k) with j by lia. exact Ht.
    + destruct (Nat.eqb_spec j0 (S k)) as [->|Hne].
      * (* the token goes on *)
        assert (isTokenAt s' 0 t0) as Ht0.
        { destruct (Hlater (S k) t0 (or_introl eq_refl)) as [?|[_ H]]; [lia | exact H]. }
        destruct Ht0 as (pre0 & post0 & Hs0 & Hl0 & Hne0 & Hn0 & _ & Hf0).
        destruct pre0; [|discriminate]. change ("" +:+ t0 +:+ post0) with (t0 +:+ post0) in Hs0.
        split.
        -- intros i t. split.
           ++ intros [[= <- <-]|Hin].
              ** split; [lia|]. rewrite Nat.sub_diag. apply token_zero.
                 exists t0, post0. auto.
              ** assert (S k < i) as Hi by (eapply IHH; [reflexivity | exact Hin]).
                 split; [lia|]. apply Hshift; [exact Hi | right; exact Hin].
           ++ intros [Hle Ht]. destruct (i - k) as [|j] eqn:Hj.
              ** left. replace i with k by lia.
                 apply token_zero in Ht as (t1 & post & -> & _ & Hn & Hs & Hf).
                 f_equal. f_equal. rewrite Hs in Hs0.
                 symmetry. eapply run_unique; eassumption.
              ** right. destruct j as [|j].
                 { apply token_shift in Ht as [_ Hws]. rewrite Hws in Hc by reflexivity.
                   discriminate. }
                 assert (S k < i) as Hi by lia.
                 assert (In (i, t) ((S k, t0) :: rest)) as [[= ? ?]|Hin]; [|lia|exact Hin].
                 apply Hshift; [exact Hi|]. rewrite Hj. exact Ht.
        -- intros j t' rest' [= <- <- <-] i t Hin.
           assert (S k < i) by (eapply IHH; [reflexivity | exact Hin]). lia.
      * (* the token is this character alone *)
        assert (S k < j0) as Hj0.
        { destruct (Hlater j0 t0 (or_introl eq_refl)) as [?|[? _]]; [assumption | contradiction]. }
        assert (Hall : forall i t, In (i, t) ((j0, t0) :: rest) -> S k < i).
        { intros i t [[= <- <-]|Hin]; [assumption|].
          assert (j0 < i) by (eapply IHH; [reflexivity | exact Hin]). lia. }
        split.
        -- intros i t. split.
           ++ intros [[= <- <-]|Hin].
              ** split; [lia|]. rewrite Nat.sub_diag.
                 apply token_zero. exists "", s'. repeat split; try assumption.
                 intros x Hx. destruct (JS.isWhiteSpace x) eqn:Hx'; [reflexivity|].
                 exfalso. destruct (run_exists s') as (t1 & post & Hs & Hn & Hf).
                 destruct t1 as [|a t1].
                 { change ("" +:+ post) with post in Hs. subst post.
                   rewrite (Hf x Hx) in Hx'. discriminate. }
                 assert (In (S k, String a t1) ((j0, t0) :: rest)) as Hin.
                 { apply IHP. split; [lia|]. rewrite Nat.sub_diag.
                   exists "", post. repeat split; try assumption; discriminate. }
                 apply Hall in Hin. lia.
              ** pose proof (Hall i t Hin) as Hi.
                 split; [lia|]. apply Hshift; assumption.
           ++ intros [Hle Ht]. destruct (i - k) as [|j] eqn:Hj.
              ** left. replace i with k by lia.
                 apply token_zero in Ht as (t1 & post & -> & _ & Hn & Hs & Hf).
                 destruct t1 as [|a t1]; [reflexivity|]. exfalso.
                 assert (In (S k, String a t1) ((j0, t0) :: rest)) as Hin.
                 { apply IHP. split; [lia|]. rewrite Nat.sub_diag.
                   exists "", post. repeat split; try assumption; discriminate. }
                 apply Hall in Hin. lia.
              ** right. destruct j as [|j].
                 { apply token_shift in Ht as [_ Hws]. rewrite Hws in Hc by reflexivity.
                   discriminate. }
                 apply Hshift; [lia|]. rewrite Hj. exact Ht.
        -- intros j t' rest' [= <- <- <-] i t Hin.
           apply Hall in Hin. lia.
Qed.

End MatchAll.

(** The matches of [/[^\s]+/g] in [s] are the maximal runs of [s] that hold
    no white space, each with the index of its first character. *)
Theorem matchAll_tokens (s : string) (i : nat) (t : string) :
  In (i, t) (JS.matchAll s) <-> isTokenAt s i t.
Proof.
  unfold JS.matchAll. destruct (matchAllFrom_tokens s 0) as [H _].
  rewrite H, Nat.sub_0_r. split; [tauto | intros; split; [lia | assumption]].
Qed.

(* ===================================================================== *)
(** ** The section cursor *)
(* ===================================================================== *)

Section Cursor.

Lemma nextLineFrom_spec (ls : list string) : forall i j l,
  nextLineFrom ls i = Some (j, l) ->
  i <= j /\ ls !! (j - i) = Some l /\ JS.startsWith "*" l = false.
Proof.
  induction ls as [|x ls IH]; intros i j l; simpl; [discriminate|].
  destruct (JS.startsWith "*" x) eqn:Hx; simpl.
  - intros H. destruct (IH _ _ _ H) as (Hle & Hl & Hc).
    repeat split; [lia | | exact Hc].
    replace (j - i) with (S (j - S i)) by lia. exact Hl.
  - intros [= <- <-]. rewrite Nat.sub_diag. auto.
Qed.

(** [nextLine] leaves the state alone when it finds nothing, and otherwise
    moves [index] forward to a line that is not a comment. *)
Lemma nextLine_spec (s s' : ParseState) (line : option string) :
  nextLine s = (s', line) ->
  lines s' = lines s /\ constraintTypes s' = constraintTypes s /\
  match line with
  | Some l =>
      index s < index s' /\ lines s !! index s' = Some l /\
      JS.startsWith "*" l = false
  | None => s' = s
  end.
Proof.
  unfold nextLine.
  destruct (nextLineFrom _ _) as [[j l]|] eqn:Hn; intros [= <- <-].
  - apply nextLineFrom_spec in Hn as (Hle & Hl & Hc).
    rewrite lookup_drop in Hl.
    replace (S (index s) + (j - S (index s))) with j in Hl by lia.
    simpl. repeat split; [lia | exact Hl | exact Hc].
  - auto.
Qed.

(** No section reader is handed a comment line by [nextLine]. *)
Lemma nextLine_not_comment (s s' : ParseState) (l : string) :
  nextLine s = (s', Some l) -> JS.startsWith "*" l = false.
Proof. intros H. apply nextLine_spec in H. tauto. Qed.

Lemma nextLine_advanced (s s' : ParseState) (line : option string) :
  nextLine s = (s', line) -> advanced s s' line.
Proof.
  intros H. apply nextLine_spec in H as (Hl & _ & H).
  split; [exact Hl|]. destruct line as [l|]; [|exact I].
  destruct H as (Hlt & Hlook & _). split; [exact Hlt|].
  apply lookup_lt_Some in Hlook. exact Hlook.
Qed.

Lemma dataLine_Some (line : option string) (l : string) :
  dataLine line = Some l -> line = Some l /\ JS.startsWith " " l = true.
Proof.
  unfold dataLine. destruct line as [x|]; simpl; [|discriminate].
  destruct (JS.startsWith " " x) eqn:Hx; [|discriminate].
  intros [= <-]. auto.
Qed.

Lemma enough_step (fuel : nat) (s s' : ParseState) (l : string)
    (line' : option string) :
  enough (S fuel) s (Some l) -> advanced s s' line' -> enough fuel s' line'.
Proof.
  intros [Hi Hf] [Hl Ha]. unfold enough. rewrite Hl.
  destruct line'; simpl in *; lia.
Qed.

Lemma enough_start (s s' : ParseState) (line' : option string) :
  advanced s s' line' -> enough (fuelFor s) s' line'.
Proof.
  intros [Hl Ha]. unfold enough, fuelFor. rewrite Hl.
  destruct line'; simpl in *; lia.
Qed.

Lemma advanced_trans (s s1 s2 : ParseState) (l : string) (line : option string) :
  advanced s s1 (Some l) -> advanced s1 s2 line -> advanced s s2 line.
Proof.
  intros [Hl1 H1] [Hl2 H2]. split; [congruence|].
  destruct line; [|exact I]. rewrite Hl1 in H2. lia.
Qed.

End Cursor.

(* ===================================================================== *)
(** ** The reader always returns *)
(* ===================================================================== *)

Section Totality.

Lemma readBoundsLoop_returns (fuel : nat) : forall s m line,
  enough fuel s line -> is_Some (readBoundsLoop fuel s m line).
Proof.
  induction fuel as [|fuel IH]; intros s m line He.
  - destruct line; simpl in He; lia.
  - cbn [readBoundsLoop]. destruct (dataLine line) as [l|] eqn:Hd; [|eauto].
    apply dataLine_Some in Hd as [-> _].
    destruct (boundsLine m l); [eauto|].
    destruct (nextLine s) as [s' line'] eqn:Hn.
    apply IH. eapply enough_step; [exact He|]. apply nextLine_advanced, Hn.
Qed.

Lemma readBounds_returns (s : ParseState) (m : Model) : is_Some (readBounds s m).
Proof.
  unfold readBounds. destruct (nextLine s) as [s' line] eqn:Hn.
  apply readBoundsLoop_returns, enough_start, nextLine_advanced, Hn.
Qed.

Lemma readRangesLoop_returns (fuel : nat) : forall s m line,
  enough fuel s line -> is_Some (readRangesLoop fuel s m line).
Proof.
  induction fuel as [|fuel IH]; intros s m line He.
  - destruct line; simpl in He; lia.
  - cbn [readRangesLoop]. destruct (dataLine line) as [l|] eqn:Hd.
    + apply dataLine_Some in Hd as [-> _].
      destruct (pairLine _ m l) as [m' [e|]]; [eauto|].
      destruct (nextLine s) as [s' line'] eqn:Hn.
      apply IH. eapply enough_step; [exact He|]. apply nextLine_advanced, Hn.
    + repeat case_match; eauto using readBounds_returns.
Qed.

Lemma readRanges_returns (s : ParseState) (m : Model) : is_Some (readRanges s m).
Proof.
  unfold readRanges. destruct (nextLine s) as [s' line] eqn:Hn.
  apply readRangesLoop_returns, enough_start, nextLine_advanced, Hn.
Qed.

Lemma readRHSLoop_returns (fuel : nat) : forall s m line,
  enough fuel s line -> is_Some (readRHSLoop fuel s m line).
Proof.
  induction fuel as [|fuel IH]; intros s m line He.
  - destruct line; simpl in He; lia.
  - cbn [readRHSLoop]. destruct (dataLine line) as [l|] eqn:Hd.
    + apply dataLine_Some in Hd as [-> _].
      destruct (pairLine _ m l) as [m' [e|]]; [eauto|].
      destruct (nextLine s) as [s' line'] eqn:Hn.
      apply IH. eapply enough_step; [exact He|]. apply nextLine_advanced, Hn.
    + repeat case_match; eauto using readBounds_returns, readRanges_returns.
Qed.

Lemma readRHS_returns (s : ParseState) (m : Model) : is_Some (readRHS s m).
Proof.
  unfold readRHS. destruct (expectSection s "RHS"); [eauto|].
  destruct (nextLine s) as [s' line] eqn:Hn.
  apply readRHSLoop_returns, enough_start, nextLine_advanced, Hn.
Qed.

(** The lines of one column: the block returns, and the cursor has moved
    when it hands a line back. *)
Lemma columnBlock_returns (fuel : nat) : forall s variable name line,
  enough fuel s (Some line) ->
  exists s' r, columnBlock fuel s variable name line = Some (s', r) /\
    match r with
    | inl _ => True
    | inr (_, line') => advanced s s' line'
    end.
Proof.
  induction fuel as [|fuel IH]; intros s variable name line He.
  - simpl in He. lia.
  - cbn [columnBlock]. destruct (columnLine s variable line) as [e|variable'].
    { eexists _, _. split; [reflexivity | exact I]. }
    destruct (nextLine s) as [s1 line1] eqn:Hn.
    apply nextLine_advanced in Hn.
    destruct (dataLine line1) as [l1|] eqn:Hd.
    2: { eexists _, _. split; [reflexivity | exact Hn]. }
    apply dataLine_Some in Hd as [-> _].
    destruct (String.eqb (field2 l1) name).
    2: { eexists _, _. split; [reflexivity | exact Hn]. }
    destruct (IH s1 variable' name l1) as (s' & r & Hr & Hpost).
    { eapply enough_step; eassumption. }
    exists s', r. split; [exact Hr|].
    destruct r as [e|[v line']]; [exact I|].
    eapply advanced_trans; eassumption.
Qed.

Lemma readColumnsLoop_returns (fuel : nat) : forall s m integerMarked line,
  enough fuel s line -> is_Some (readColumnsLoop fuel s m integerMarked line).
Proof.
  induction fuel as [|fuel IH]; intros s m integerMarked line He.
  - destruct line; simpl in He; lia.
  - cbn [readColumnsLoop]. destruct (dataLine line) as [l|] eqn:Hd; [|apply readRHS_returns].
    apply dataLine_Some in Hd as [-> _].
    destruct (String.eqb (field3 l) "'MARKER'").
    + destruct (String.eqb (field4 l) "'INTORG'");
        [|destruct (String.eqb (field4 l) "'INTEND'"); [|eauto]];
        destruct (nextLine s) as [s' line'] eqn:Hn;
        apply IH; (eapply enough_step; [exact He|]); apply nextLine_advanced, Hn.
    + destruct (String.eqb (field2 l) ""); [eauto|].
      destruct (JS.has (variables m) (field2 l)); [eauto|].
      destruct (columnBlock_returns (fuelFor s) s ∅ (field2 l) l)
        as (s' & r & -> & Hpost).
      { destruct He as [Hi _]. unfold fuelFor. split; [exact Hi | lia]. }
      destruct r as [e|[variable line']]; [eauto|].
      apply IH. eapply enough_step; eassumption.
Qed.

Lemma readColumns_returns (s : ParseState) (m : Model) : is_Some (readColumns s m).
Proof.
  unfold readColumns. destruct (expectSection s "COLUMNS"); [eauto|].
  destruct (nextLine s) as [s' line] eqn:Hn.
  apply readColumnsLoop_returns, enough_start, nextLine_advanced, Hn.
Qed.

Lemma rowsLine_cursor (s s1 : ParseState) (m m' : Model) (l : string) :
  rowsLine s m l = inr (s1, m') -> lines s1 = lines s /\ index s1 = index s.
Proof.
  unfold rowsLine. repeat case_match; try discriminate; intros [= <- <-]; auto.
Qed.

Lemma readRowsLoop_returns (fuel : nat) : forall s m line,
  enough fuel s line -> is_Some (readRowsLoop fuel s m line).
Proof.
  induction fuel as [|fuel IH]; intros s m line He.
  - destruct line; simpl in He; lia.
  - cbn [readRowsLoop]. destruct (dataLine line) as [l|] eqn:Hd; [|apply readColumns_returns].
    apply dataLine_Some in Hd as [-> _].
    destruct (rowsLine s m l) as [e|[s1 m']] eqn:Hr; [eauto|].
    apply rowsLine_cursor in Hr as [Hl Hi].
    destruct (nextLine s1) as [s' line'] eqn:Hn.
    apply IH. apply nextLine_advanced in Hn.
    eapply (enough_step fuel s1 s' l); [|exact Hn].
    unfold enough in *. rewrite Hl, Hi. exact He.
Qed.

Lemma readRows_returns (s : ParseState) (m : Model) : is_Some (readRows s m).
Proof.
  unfold readRows. destruct (expectSection s "ROWS"); [eauto|].
  destruct (nextLine s) as [s' line] eqn:Hn.
  apply readRowsLoop_returns, enough_start, nextLine_advanced, Hn.
Qed.

Lemma readName_returns (s : ParseState) (m : Model) : is_Some (readName s m).
Proof.
  unfold readName. destruct (JS.findIndex _ _); [apply readRows_returns | eauto].
Qed.

(** [modelFromMps] returns a model or throws on every document: no loop
    runs out of fuel. *)
Theorem modelFromMps_returns (mps : string) (direction : OptimizationDirection) :
  (exists m, modelFromMps mps direction = Some (inr m)) \/
  (exists t, modelFromMps mps direction = Some (inl t)).
Proof.
  unfold modelFromMps.
  destruct (readName_returns (mkParseState (JS.splitLines mps) 0 ∅)
              (mkModel "" direction None ∅ ∅ ∅ ∅ ∅)) as [[[s m] [e|]] ->]; eauto.
Qed.

End Totality.

(* ===================================================================== *)
(** ** Rows with a type have a bound pair *)
(* ===================================================================== *)

Section Registered.

Lemma registered_initial (ls : list string) (i : nat) (m : Model) :
  registered (mkParseState ls i ∅) m.
Proof. intros row [x Hx]. simpl in Hx. rewrite lookup_empty in Hx. discriminate. Qed.

Lemma registered_index (i : nat) (s : ParseState) (m : Model) :
  registered s m -> registered (set_index i s) m.
Proof. intros H. exact H. Qed.

Lemma rowsLine_registered (s s' : ParseState) (m m' : Model) (l : string) :
  registered s m -> rowsLine s m l = inr (s', m') -> registered s' m'.
Proof.
  intros Hreg. unfold rowsLine.
  repeat case_match; simplify_eq; intros [= <- <-] row; simpl;
    (destruct (decide (row = field2 l)) as [->|Hne];
     [rewrite !lookup_insert_eq; eauto
     |rewrite !lookup_insert_ne by congruence; exact (Hreg row)]).
Qed.

Lemma addConstraint_registered (s : ParseState) (m m' : Model) (row value : string) :
  registered s m -> addConstraint s m row value = inr m' -> registered s m'.
Proof.
  intros Hreg. unfold addConstraint.
  repeat case_match; try discriminate; intros [= <-]; try exact Hreg;
    intros r Hr; simpl;
    (destruct (decide (r = row)) as [->|Hne];
     [rewrite lookup_insert_eq; eauto
     |rewrite lookup_insert_ne by congruence; apply Hreg, Hr]).
Qed.

Lemma addRange_registered (s : ParseState) (m m' : Model) (row value : string) :
  registered s m -> addRange s m row value = inr m' -> registered s m'.
Proof.
  intros Hreg. unfold addRange.
  repeat case_match; try discriminate; intros [= <-]; try exact Hreg;
    intros r Hr; simpl;
    (destruct (decide (r = row)) as [->|Hne];
     [rewrite lookup_insert_eq; eauto
     |rewrite lookup_insert_ne by congruence; apply Hreg, Hr]).
Qed.

End Registered.

(* ===================================================================== *)
(** ** BOUNDS *)
(* ===================================================================== *)

Section Bounds.

Lemma has_true {V} (m : gmap string V) (k : string) :
  JS.has m k = true <-> is_Some (m !! k).
Proof.
  unfold JS.has. destruct (m !! k); split; intros H;
    eauto; try discriminate. destruct H; discriminate.
Qed.

(** [setBounds] with two numbers stores exactly them. *)
Lemma setBounds_lookup (m : Model) (col : string) (lower upper : float) :
  JS.isNaN lower = false -> JS.isNaN upper = false ->
  bounds (setBounds m col lower upper) !! col = Some (lower, upper).
Proof.
  intros Hl Hu. unfold setBounds.
  destruct (JS.has (bounds m) col) eqn:Hhas.
  - apply has_true in Hhas as [b Hb]. rewrite Hb, Hl, Hu. simpl.
    apply lookup_insert_eq.
  - rewrite lookup_insert_eq, Hl, Hu. simpl. apply lookup_insert_eq.
Qed.

(** [setBounds] touches the entry of its column only. *)
Lemma setBounds_frame (m : Model) (col col' : string) (lower upper : float) :
  col' <> col ->
  bounds (setBounds m col lower upper) !! col' = bounds m !! col'.
Proof.
  intros Hne. unfold setBounds.
  destruct (JS.has (bounds m) col) eqn:Hhas.
  - apply has_true in Hhas as [b Hb]. rewrite Hb. simpl.
    rewrite lookup_insert_ne by congruence. reflexivity.
  - rewrite lookup_insert_eq. simpl.
    rewrite !lookup_insert_ne by congruence. reflexivity.
Qed.

(** A BOUNDS line changes the bound pair of no column but its own. *)
Lemma boundsLine_frame (m m' : Model) (line col : string) :
  boundsLine m line = inr m' -> field3 line <> col ->
  bounds m' !! col = bounds m !! col.
Proof.
  unfold boundsLine. intros H Hne.
  repeat case_match; try discriminate; injection H as <-;
    try (rewrite setBounds_frame by congruence); reflexivity.
Qed.

(** An UP line that is accepted sets the pair of its column to 0 and its
    value: the lower bound is written too. *)
Lemma boundsLine_UP (m m' : Model) (line : string) :
  boundsLine m line = inr m' -> field1 line = "UP" ->
  bounds m' !! field3 line = Some (0%float, JS.parseFloat (field4 line)).
Proof.
  unfold boundsLine. intros H Hup. rewrite Hup in H. simpl in H.
  repeat case_match; simplify_eq.
  apply setBounds_lookup; [reflexivity | assumption].
Qed.

(** An LO line that is accepted sets the pair of its column to its value
    and [Infinity]: the upper bound is written too. *)
Lemma boundsLine_LO (m m' : Model) (line : string) :
  boundsLine m line = inr m' -> field1 line = "LO" ->
  bounds m' !! field3 line = Some (JS.parseFloat (field4 line), infinity).
Proof.
  unfold boundsLine. intros H Hup. rewrite Hup in H. simpl in H.
  repeat case_match; simplify_eq.
  apply setBounds_lookup; [assumption | reflexivity].
Qed.

(** A run of BOUNDS entries none of which names [col] leaves its pair as
    it was. *)
Lemma readBoundsLoop_frame (col : string) (fuel : nat) : forall s m line s' m' e,
  readBoundsLoop fuel s m line = Some (s', m', e) ->
  List.filter (fun l => String.eqb (field3 l) col) (sectionEntries fuel s line) = [] ->
  bounds m' !! col = bounds m !! col.
Proof.
  induction fuel as [|fuel IH]; intros s m line s' m' e; [discriminate|].
  cbn [readBoundsLoop sectionEntries].
  destruct (dataLine line) as [l|]; [|intros [= <- <- <-]; reflexivity].
  destruct (boundsLine m l) as [err|m1] eqn:Hl; [intros [= <- <- <-]; reflexivity|].
  destruct (nextLine s) as [s1 line1]. intros Hloop Hf. simpl in Hf.
  destruct (String.eqb (field3 l) col) eqn:Hc; [discriminate|].
  apply String.eqb_neq in Hc.
  rewrite (IH _ _ _ _ _ _ Hloop Hf). eapply boundsLine_frame; eassumption.
Qed.

End Bounds.

(** When the loop of [readBounds] from [line] on ends without error and its
    only entry that names [col] is an UP entry with value -5.0, it ends
    with the pair (0, -5.0) for [col]. *)
Lemma readBoundsLoop_up_only (fuel : nat) (s s' : ParseState) (m m' : Model)
    (line : option string) (col entry : string) :
  readBoundsLoop fuel s m line = Some (s', m', None) ->
  List.filter (fun l => String.eqb (field3 l) col) (sectionEntries fuel s line)
    = [entry] ->
  field1 entry = "UP" ->
  JS.parseFloat (field4 entry) = (-5)%float ->
  bounds m' !! col = Some (0%float, (-5)%float).
Proof.
  revert s m line. induction fuel as [|fuel IH]; intros s m line; [discriminate|].
  cbn [readBoundsLoop sectionEntries].
  destruct (dataLine line) as [l|]; [|discriminate].
  destruct (boundsLine m l) as [err|m1] eqn:Hl; [discriminate|].
  destruct (nextLine s) as [s1 line1]. intros Hloop Hf Hup Hval.
  simpl in Hf. destruct (String.eqb (field3 l) col) eqn:Hc.
  - apply String.eqb_eq in Hc. injection Hf as -> Hrest.
    rewrite (readBoundsLoop_frame col _ _ _ _ _ _ _ Hloop Hrest).
    rewrite <- Hc, <- Hval. apply (boundsLine_UP m); assumption.
  - apply (IH s1 m1 line1); assumption.
Qed.

(** The document [doc_up_only], evaluated. *)
Lemma up_only_document (direction : OptimizationDirection) :
  exists m, modelFromMps doc_up_only direction = Some (inr m) /\
    bounds m !! "X" = Some (0%float, (-5)%float).
Proof.
  destruct direction; eexists; (split; [vm_compute; reflexivity|]);
    vm_compute; reflexivity.
Qed.

(** C3 does not hold of the code: after an LO entry with value 3.0 and an
    UP entry with value 10.0 for column [X], the pair of [X] is (0, 10):
    the UP entry has written the lower bound, and the 3.0 is lost. *)
Theorem lo_then_up_loses_lower (direction : OptimizationDirection) :
  exists m, modelFromMps doc_lo_then_up direction = Some (inr m) /\
    bounds m !! "X" = Some (0%float, 10%float).
Proof.
  destruct direction; eexists; (split; [vm_compute; reflexivity|]);
    vm_compute; reflexivity.
Qed.

(** In the other order the UP entry is lost: an LO entry writes [Infinity]
    to the upper bound. *)
Lemma up_then_lo_loses_upper (direction : OptimizationDirection) :
  exists m, modelFromMps doc_up_then_lo direction = Some (inr m) /\
    bounds m !! "X" = Some (3%float, infinity).
Proof.
  destruct direction; eexists; (split; [vm_compute; reflexivity|]);
    vm_compute; reflexivity.
Qed.

(* ===================================================================== *)
(** ** RANGES *)
(* ===================================================================== *)

Lemma parseFloat_number_nonempty (value : string) (x : float) :
  JS.parseFloat value = x -> JS.isNaN x = false -> String.eqb value "" = false.
Proof.
  intros Hv Hx. destruct (String.eqb value "") eqn:He; [|reflexivity].
  apply String.eqb_eq in He. subst value. subst x. discriminate Hx.
Qed.

(** C5: on a row of type E whose pair is (10, 10), a RANGES entry with
    value +4 is accepted and gives (10, 14), and one with value -4 is
    accepted and gives (6, 10). *)
Theorem equality_row_range (s : ParseState) (m : Model) (row plus minus : string) :
  row <> "" ->
  constraintTypes s !! row = Some "E" ->
  constraints m !! row = Some (10%float, 10%float) ->
  JS.parseFloat plus = 4%float ->
  JS.parseFloat minus = (-4)%float ->
  (exists m', addRange s m row plus = inr m' /\
     constraints m' !! row = Some (10%float, 14%float)) /\
  (exists m', addRange s m row minus = inr m' /\
     constraints m' !! row = Some (6%float, 10%float)).
Proof.
  intros Hrow Htype Hpair Hplus Hminus.
  apply String.eqb_neq in Hrow.
  pose proof (parseFloat_number_nonempty plus _ Hplus eq_refl) as Hp.
  pose proof (parseFloat_number_nonempty minus _ Hminus eq_refl) as Hm.
  unfold addRange. rewrite Hrow, Hp, Hm, Htype, Hpair, Hplus, Hminus.
  split; eexists; (split; [reflexivity|]); simpl; apply lookup_insert_eq.
Qed.

(** [equality_row_range] on row [BAL] of [range_model], with the texts
    [4] and [-4]. *)
Lemma equality_row_range_witness :
  (exists m', addRange range_state range_model "BAL" "4" = inr m' /\
     constraints m' !! "BAL" = Some (10%float, 14%float)) /\
  (exists m', addRange range_state range_model "BAL" "-4" = inr m' /\
     constraints m' !! "BAL" = Some (6%float, 10%float)).
Proof.
  apply (equality_row_range range_state range_model "BAL" "4" "-4");
    [discriminate | vm_compute; reflexivity ..].
Defined.

(** The same, from the text of whole documents. *)
Lemma equality_row_range_documents (direction : OptimizationDirection) :
  (exists m, modelFromMps doc_range_plus direction = Some (inr m) /\
     constraints m !! "BAL" = Some (10%float, 14%float)) /\
  (exists m, modelFromMps doc_range_minus direction = Some (inr m) /\
     constraints m !! "BAL" = Some (6%float, 10%float)).
Proof.
  destruct direction; split; eexists; (split; [vm_compute; reflexivity|]);
    vm_compute; reflexivity.
Qed.

(* ===================================================================== *)
(** ** COLUMNS *)
(* ===================================================================== *)

(** Once the first pair of a COLUMNS line is accepted, the pair in
    fields 5 and 6 is handed to [addCoefficient] if and only if one of the
    two fields is not empty, and the line then ends as that call does;
    otherwise the line ends with the first pair alone. A row name without a
    value fails with MissingCoefficient and a value without a row name with
    MissingRowName, and the error ends the lines of the column. *)
Lemma columnLine_second_pair (s : ParseState) (variable variable1 : gmap string float)
    (line : string) :
  addCoefficient s variable (field3 line) (field4 line) = inr variable1 ->
  (field5 line = "" /\ field6 line = "" ->
     columnLine s variable line = inr variable1) /\
  (field5 line <> "" \/ field6 line <> "" ->
     columnLine s variable line =
     addCoefficient s variable1 (field5 line) (field6 line)) /\
  (field5 line <> "" -> field6 line = "" ->
     columnLine s variable line = inl MissingCoefficient /\
     forall fuel name,
       columnBlock (S fuel) s variable name line = Some (s, inl MissingCoefficient)) /\
  (field5 line = "" -> field6 line <> "" ->
     columnLine s variable line = inl MissingRowName /\
     forall fuel name,
       columnBlock (S fuel) s variable name line = Some (s, inl MissingRowName)).
Proof.
  intros H1.
  assert (Hboth : field5 line = "" /\ field6 line = "" ->
                  columnLine s variable line = inr variable1).
  { intros [H5 H6]. unfold columnLine. rewrite H1, H5, H6. reflexivity. }
  assert (Hsome : field5 line <> "" \/ field6 line <> "" ->
                  columnLine s variable line =
                  addCoefficient s variable1 (field5 line) (field6 line)).
  { intros H. unfold columnLine. rewrite H1.
    destruct (String.eqb_spec (field5 line) "") as [H5|H5];
      destruct (String.eqb_spec (field6 line) "") as [H6|H6];
      try reflexivity. tauto. }
  assert (Hblock : forall e, columnLine s variable line = inl e ->
            forall fuel name, columnBlock (S fuel) s variable name line = Some (s, inl e)).
  { intros e He fuel name. cbn [columnBlock]. rewrite He. reflexivity. }
  split; [exact Hboth|]. split; [exact Hsome|]. split.
  - intros H5 H6.
    assert (columnLine s variable line = inl MissingCoefficient) as He.
    { rewrite Hsome by tauto. unfold addCoefficient.
      apply String.eqb_neq in H5. rewrite H5, H6. reflexivity. }
    split; [exact He | apply Hblock, He].
  - intros H5 H6.
    assert (columnLine s variable line = inl MissingRowName) as He.
    { rewrite Hsome by tauto. unfold addCoefficient. rewrite H5. reflexivity. }
    split; [exact He | apply Hblock, He].
Qed.

(** Two documents, evaluated: the error is thrown with the number of the
    line. *)
Lemma second_pair_documents (direction : OptimizationDirection) :
  modelFromMps doc_row_without_value direction
    = Some (inl (mkThrown 6 MissingCoefficient)) /\
  modelFromMps doc_value_without_row direction
    = Some (inl (mkThrown 6 MissingRowName)).
Proof. destruct direction; split; vm_compute; reflexivity. Qed.

(* ===================================================================== *)
(** ** COLUMNS: a column that comes back *)
(* ===================================================================== *)

Section ColumnComesBack.

Lemma nextLine_at (s : ParseState) (l : string) :
  lines s !! S (index s) = Some l -> JS.startsWith "*" l = false ->
  nextLine s = (set_index (S (index s)) s, Some l).
Proof.
  intros Hl Hc. unfold nextLine.
  rewrite (drop_S _ _ _ Hl). cbn [nextLineFrom]. rewrite Hc. reflexivity.
Qed.

Lemma data_not_comment (l : string) :
  JS.startsWith " " l = true -> JS.startsWith "*" l = false.
Proof.
  destruct l as [|c l]; [discriminate|].
  unfold JS.startsWith. cbn [String.prefix].
  destruct (ascii_dec " " c) as [<-|]; [reflexivity | discriminate].
Qed.

Lemma dataLine_data (l : string) :
  JS.startsWith " " l = true -> dataLine (Some l) = Some l.
Proof. intros H. unfold dataLine, notSectionEnd. rewrite H. reflexivity. Qed.

Lemma dataLine_section_end (l : string) :
  JS.startsWith " " l = false -> dataLine (Some l) = None.
Proof. intros H. unfold dataLine, notSectionEnd. rewrite H. reflexivity. Qed.

Lemma columnLines_index (i : nat) (s : ParseState) (ls : list string) :
  forall variable,
    columnLines (set_index i s) variable ls = columnLines s variable ls.
Proof.
  induction ls as [|l ls IH]; intros variable; [reflexivity|].
  cbn [columnLines]. change (columnLine (set_index i s)) with (columnLine s).
  destruct (columnLine s variable l); [reflexivity | apply IH].
Qed.

(** The [do ... while] over the lines [x :: xs] of column [name], which
    stand at [index] and after it and are followed by [next], a line that
    is not a comment and is not for [name]: the block ends on [next] with
    the coefficients of the lines. *)
Lemma columnBlock_run (name next : string) (xs : list string) :
  forall fuel s variable x variable',
    length xs < fuel ->
    (forall k l, xs !! k = Some l ->
       lines s !! (index s + S k) = Some l /\
       JS.startsWith " " l = true /\ field2 l = name) ->
    lines s !! (index s + S (length xs)) = Some next ->
    JS.startsWith "*" next = false ->
    (JS.startsWith " " next = true -> field2 next <> name) ->
    columnLines s variable (x :: xs) = inr variable' ->
    columnBlock fuel s variable name x
      = Some (set_index (index s + S (length xs)) s, inr (variable', Some next)).
Proof.
  induction xs as [|x1 xs IH]; intros fuel s variable x variable' Hfuel Hxs Hnext Hc Hname Hv;
    (destruct fuel as [|fuel]; [simpl in Hfuel; lia|]);
    cbn [columnBlock]; cbn [columnLines] in Hv;
    destruct (columnLine s variable x) as [e|v1]; try discriminate.
  - injection Hv as ->. simpl in Hnext.
    rewrite Nat.add_1_r in *.
    rewrite (nextLine_at s next Hnext Hc).
    destruct (JS.startsWith " " next) eqn:Hd.
    + rewrite (dataLine_data _ Hd).
      destruct (String.eqb_spec (field2 next) name) as [He|_]; [|reflexivity].
      exfalso. exact (Hname eq_refl He).
    + rewrite (dataLine_section_end _ Hd). reflexivity.
  - destruct (Hxs 0 x1 eq_refl) as (Hl1 & Hd1 & Hn1).
    rewrite Nat.add_1_r in Hl1.
    rewrite (nextLine_at s x1 Hl1 (data_not_comment _ Hd1)).
    rewrite (dataLine_data _ Hd1), Hn1, String.eqb_refl.
    rewrite (IH fuel (set_index (S (index s)) s) v1 x1 variable').
    + f_equal. f_equal. unfold set_index. simpl. f_equal. lia.
    + simpl in Hfuel. lia.
    + intros k l Hk. simpl.
      replace (S (index s + S k)) with (index s + S (S k)) by lia.
      apply (Hxs (S k) l Hk).
    + simpl. rewrite <- Hnext. f_equal. simpl. lia.
    + exact Hc.
    + exact Hname.
    + rewrite columnLines_index. exact Hv.
Qed.

(** One turn of the loop of [readColumns] on a coefficient line that opens
    column [name]. *)
Lemma readColumnsLoop_opens (fuel : nat) (s : ParseState) (m : Model)
    (integerMarked : bool) (l name : string) :
  JS.startsWith " " l = true -> field3 l <> "'MARKER'" ->
  field2 l = name -> name <> "" ->
  readColumnsLoop (S fuel) s m integerMarked (Some l) =
  if JS.has (variables m) name then Some (s, m, Some (NonConsecutiveColumn name))
  else
    match columnBlock (fuelFor s) s ∅ name l with
    | None => None
    | Some (s', inl err) => Some (s', m, Some err)
    | Some (s', inr (variable, line')) =>
        let m1 := set_variables (<[name := variable]> (variables m)) m in
        let m2 := if integerMarked then integers_add name m1 else m1 in
        readColumnsLoop fuel s' m2 integerMarked line'
    end.
Proof.
  intros Hd Hm Hn He. apply String.eqb_neq in Hm, He.
  cbn [readColumnsLoop]. rewrite (dataLine_data _ Hd), Hm, Hn, He. reflexivity.
Qed.

(** A run of lines for column [X], a line for [Y] and a line for [X]
    again, all of them accepted as coefficient lines: [readColumns] ends on
    the line on which [X] comes back, with NonConsecutiveColumn. *)
Lemma column_comes_back (s : ParseState) (m : Model) (integerMarked : bool)
    (X Y x y x' : string) (xs : list string) (vX vY : gmap string float)
    (fuel : nat) :
  2 < fuel ->
  lines s !! index s = Some x ->
  (forall k l, xs !! k = Some l ->
     lines s !! (index s + S k) = Some l /\
     JS.startsWith " " l = true /\ field2 l = X) ->
  lines s !! (index s + S (length xs)) = Some y ->
  lines s !! (index s + S (S (length xs))) = Some x' ->
  JS.startsWith " " x = true -> JS.startsWith " " y = true ->
  JS.startsWith " " x' = true ->
  field3 x <> "'MARKER'" -> field3 y <> "'MARKER'" -> field3 x' <> "'MARKER'" ->
  field2 x = X -> field2 y = Y -> field2 x' = X ->
  X <> "" -> Y <> "" -> X <> Y ->
  JS.has (variables m) X = false -> JS.has (variables m) Y = false ->
  columnLines s ∅ (x :: xs) = inr vX ->
  columnLines s ∅ [y] = inr vY ->
  exists m',
    readColumnsLoop fuel s m integerMarked (Some x)
      = Some (set_index (index s + S (S (length xs))) s, m',
              Some (NonConsecutiveColumn X)).
Proof.
  intros Hfuel Hx Hxs Hy Hx' Dx Dy Dx' Mx My Mx' Nx Ny Nx' HX HY HXY VX VY CX CY.
  destruct fuel as [|[|[|fuel]]]; try lia.
  assert (length xs < length (lines s)) as Hlen.
  { apply lookup_lt_Some in Hy. lia. }
  (* the block of X *)
  rewrite (readColumnsLoop_opens _ s m integerMarked x X Dx Mx Nx HX), VX.
  rewrite (columnBlock_run X y xs (fuelFor s) s ∅ x vX); try assumption.
  2: { unfold fuelFor. lia. }
  2: { apply data_not_comment, Dy. }
  2: { intros _. congruence. }
  cbv zeta.
  set (s1 := set_index (index s + S (length xs)) s).
  set (m1 := if integerMarked then _ else _).
  assert (JS.has (variables m1) X = true) as VX1.
  { unfold m1. destruct integerMarked; simpl; unfold JS.has;
      rewrite lookup_insert_eq; reflexivity. }
  assert (JS.has (variables m1) Y = false) as VY1.
  { unfold m1. destruct integerMarked; simpl; unfold JS.has;
      (rewrite lookup_insert_ne by congruence); exact VY. }
  (* the block of Y *)
  rewrite (readColumnsLoop_opens _ s1 m1 integerMarked y Y Dy My Ny HY), VY1.
  rewrite (columnBlock_run Y x' [] (fuelFor s1) s1 ∅ y vY).
  - (* X again *)
    cbv zeta.
    set (s2 := set_index _ s1).
    set (m2 := if integerMarked then _ else _).
    assert (JS.has (variables m2) X = true) as VX2.
    { unfold m2. destruct integerMarked; simpl; unfold JS.has;
        (rewrite lookup_insert_ne by congruence); exact VX1. }
    rewrite (readColumnsLoop_opens _ s2 m2 integerMarked x' X Dx' Mx' Nx' HX), VX2.
    exists m2. f_equal. f_equal. f_equal.
    unfold s2, s1, set_index. simpl. f_equal. lia.
  - unfold fuelFor. simpl. lia.
  - intros k l Hk. destruct k; discriminate Hk.
  - simpl. rewrite <- Hx'. f_equal. lia.
  - apply data_not_comment, Dx'.
  - intros _. congruence.
  - exact CY.
Qed.

End ColumnComesBack.

(** [column_comes_back] on [doc_nonconsecutive]: the run of [X] is lines 7
    and 8, and the state ends on index 9, line 10. *)
Lemma column_comes_back_document :
  exists m',
    readColumnsLoop 3 nonconsecutive_state nonconsecutive_model false
      (Some "    X         COST      1.0")
      = Some (set_index 9 nonconsecutive_state, m', Some (NonConsecutiveColumn "X")).
Proof.
  apply (column_comes_back nonconsecutive_state nonconsecutive_model false
           "X" "Y" _ "    Y         COST      2.0" "    X         R2        1.0"
           ["    X         R1        1.0"]
           {[ "COST" := 1%float; "R1" := 1%float ]} {[ "COST" := 2%float ]});
    try (vm_compute; reflexivity); try discriminate; try lia.
  intros [|[|k]] l Hk; try discriminate Hk.
  injection Hk as <-. repeat split; vm_compute; reflexivity.
Qed.

(* ===================================================================== *)
(** ** Whole documents *)
(* ===================================================================== *)

(** C1: the minimal document is read without error; in its model the pair
    of [LIM1] is (-Infinity, 10), the objective is [COST], column [X] has
    the coefficients COST 1 and LIM1 1 and no other, and [bounds] is
    empty. *)
Theorem minimal_document_model (direction : OptimizationDirection) :
  exists m, modelFromMps doc_minimal direction = Some (inr m) /\
    constraints m !! "LIM1" = Some (neg_infinity, 10%float) /\
    objective m = Some "COST" /\
    variables m !! "X" = Some {[ "COST" := 1%float; "LIM1" := 1%float ]} /\
    bounds m = ∅.
Proof.
  destruct direction; eexists; (split; [vm_compute; reflexivity|]);
    repeat split; vm_compute; reflexivity.
Qed.

(** The rest of that model. *)
Lemma minimal_document_rest (dir : OptimizationDirection) :
  exists m, modelFromMps doc_minimal dir = Some (inr m) /\
    name m = "test" /\ direction m = dir /\
    constraints m !! "COST" = Some (neg_infinity, infinity) /\
    dom (constraints m) = {[ "COST"; "LIM1" ]} /\
    dom (variables m) = {[ "X" ]} /\
    integers m = ∅ /\ binaries m = ∅.
Proof.
  destruct dir; eexists; (split; [vm_compute; reflexivity|]);
    repeat split; vm_compute; reflexivity.
Qed.

(** In [doc_nonconsecutive] lines 7 and 8 are for column [X], line 9
    is for [Y] and line 10 is for [X] again; [modelFromMps] throws
    NonConsecutiveColumn for [X] with line number 10, the number of the
    line on which [X] comes back. *)
Lemma nonconsecutive_document (direction : OptimizationDirection) :
  map field2 (take 4 (drop 6 (JS.splitLines doc_nonconsecutive)))
    = ["X"; "X"; "Y"; "X"] /\
  modelFromMps doc_nonconsecutive direction
    = Some (inl (mkThrown 10 (NonConsecutiveColumn "X"))) /\
  thrownMessage (mkThrown 10 (NonConsecutiveColumn "X"))
    = "Line 10: Values for the column 'X' were previously provided -- all values for a column must come consecutively".
Proof. destruct direction; repeat split; vm_compute; reflexivity. Qed.

Lemma trimEnd_comment (l : string) :
  JS.startsWith "*" l = true -> JS.startsWith "*" (JS.trimEnd l) = true.
Proof.
  destruct l as [|c l]; [discriminate|].
  unfold JS.startsWith. cbn [String.prefix].
  destruct (ascii_dec "*" c) as [<-|]; [intros _|discriminate].
  rewrite trimEnd_cons. destruct (JS.trimEnd l); reflexivity.
Qed.

(** [readRows] reads the line at [index] as it is: a comment there is
    taken for the section header. *)
Lemma readRows_comment (s : ParseState) (m : Model) (l : string) :
  lines s !! index s = Some l -> JS.startsWith "*" l = true ->
  readRows s m = Some (s, m, Some (SectionMismatch "ROWS" (Some (JS.trimEnd l)))).
Proof.
  intros Hl Hc. unfold readRows, expectSection, readSection. rewrite Hl. simpl.
  apply trimEnd_comment in Hc.
  destruct (String.eqb_spec (JS.trimEnd l) "ROWS") as [He|_]; [|reflexivity].
  rewrite He in Hc. discriminate Hc.
Qed.

(** [readName] steps to the line after the NAME line whatever it is, so a
    comment right after the NAME line stops the parse. *)
Lemma readName_comment (s : ParseState) (m : Model) (i : nat) (l : string) :
  JS.findIndex (JS.startsWith "NAME") (lines s) = Some i ->
  lines s !! (i + 1) = Some l -> JS.startsWith "*" l = true ->
  exists s' m', readName s m
    = Some (s', m', Some (SectionMismatch "ROWS" (Some (JS.trimEnd l)))) /\
    index s' + 1 = i + 2.
Proof.
  intros Hi Hl Hc. unfold readName. rewrite Hi.
  eexists _, _. split; [apply readRows_comment; simpl; eassumption|].
  simpl. lia.
Qed.

(** C6 does not hold of the code: in [doc_comment_after_name] line 2 is a
    comment between the NAME line and ROWS, and [modelFromMps] throws the
    SectionMismatch of [readRows] on it. *)
Theorem comment_after_name_rejected (direction : OptimizationDirection) :
  modelFromMps doc_comment_after_name direction
    = Some (inl (mkThrown 2 (SectionMismatch "ROWS" (Some "* rows follow")))) /\
  thrownMessage (mkThrown 2 (SectionMismatch "ROWS" (Some "* rows follow")))
    = "Line 2: Expected section ROWS but got '* rows follow'".
Proof. destruct direction; split; vm_compute; reflexivity. Qed.

(** Comment lines anywhere else are skipped: [doc_comments_elsewhere] gives
    the model of [doc_minimal]. *)
Lemma comments_elsewhere_skipped (direction : OptimizationDirection) :
  modelFromMps doc_comments_elsewhere direction = modelFromMps doc_minimal direction.
Proof. destruct direction; vm_compute; reflexivity. Qed.

(* ===================================================================== *)
(** ** The solution report: which headers have data *)
(* ===================================================================== *)

Lemma get_beyond (s : string) : forall i,
  String.length s <= i -> String.get i s = None.
Proof.
  induction s as [|c s IH]; intros i Hi; [reflexivity|].
  destruct i as [|i]; simpl in *; [lia|]. apply IH. lia.
Qed.

(** C9: a header token, a maximal run of the header line without white
    space, that starts at or beyond the end of the first data line is kept:
    there is no character below it, and [undefined] is not the blank. *)
Theorem header_beyond_data_kept (headerLine firstDataLine : string)
    (start : nat) (token : string) :
  isTokenAt headerLine start token ->
  String.length firstDataLine <= start ->
  In token (headersForNonEmptyColumns headerLine firstDataLine).
Proof.
  intros Htoken Hlen. apply matchAll_tokens in Htoken.
  unfold headersForNonEmptyColumns.
  apply in_map_iff. exists (start, token). split; [reflexivity|].
  apply filter_In. split; [exact Htoken|]. simpl.
  unfold JS.charAt. rewrite (get_beyond firstDataLine start Hlen). reflexivity.
Qed.

(** [header_beyond_data_kept] on a data line that ends under [Upper]. *)
Lemma header_beyond_data_kept_witness :
  In "Primal" (headersForNonEmptyColumns report_header data_short) /\
  In "Dual" (headersForNonEmptyColumns report_header data_short).
Proof.
  split.
  - apply (header_beyond_data_kept report_header data_short 18 "Primal");
      [|vm_compute; lia].
    exists "Index Lower Upper ", " Dual".
    repeat split; try discriminate; intros c [= <-]; reflexivity.
  - apply (header_beyond_data_kept report_header data_short 25 "Dual");
      [|vm_compute; lia].
    exists "Index Lower Upper Primal ", "".
    repeat split; try discriminate; intros c [= <-]; reflexivity.
Defined.

Lemma matchAll_report_header :
  JS.matchAll report_header
  = [(0, "Index"); (6, "Lower"); (12, "Upper"); (18, "Primal"); (25, "Dual")].
Proof. vm_compute. reflexivity. Qed.

(** C8, as the code has it: when every position under [Dual] holds a
    blank, [Dual] is not among the headers, and each of [Index], [Lower],
    [Upper] and [Primal] is among them exactly when the data line has
    something other than a blank under its first or its last character. *)
Theorem blank_dual_excluded (firstDataLine : string) :
  (forall i, 25 <= i < 29 -> JS.charAt firstDataLine i = Some " "%char) ->
  let headers := headersForNonEmptyColumns report_header firstDataLine in
  ~ In "Dual" headers /\
  (In "Index" headers <->
     notBlank (JS.charAt firstDataLine 0) || notBlank (JS.charAt firstDataLine 4) = true) /\
  (In "Lower" headers <->
     notBlank (JS.charAt firstDataLine 6) || notBlank (JS.charAt firstDataLine 10) = true) /\
  (In "Upper" headers <->
     notBlank (JS.charAt firstDataLine 12) || notBlank (JS.charAt firstDataLine 16) = true) /\
  (In "Primal" headers <->
     notBlank (JS.charAt firstDataLine 18) || notBlank (JS.charAt firstDataLine 23) = true).
Proof.
  intros Hdual. unfold headersForNonEmptyColumns.
  rewrite matchAll_report_header. cbn [List.filter fst snd String.length Nat.add Nat.sub].
  rewrite (Hdual 25), (Hdual 28) by lia.
  change (notBlank (Some " "%char)) with false. cbn [orb].
  destruct (notBlank (JS.charAt firstDataLine 0) || notBlank (JS.charAt firstDataLine 4));
  destruct (notBlank (JS.charAt firstDataLine 6) || notBlank (JS.charAt firstDataLine 10));
  destruct (notBlank (JS.charAt firstDataLine 12) || notBlank (JS.charAt firstDataLine 16));
  destruct (notBlank (JS.charAt firstDataLine 18) || notBlank (JS.charAt firstDataLine 23));
  cbn [map snd In]; intuition (discriminate || auto).
Qed.

(** [blank_dual_excluded] on a data line with a value in every column but
    [Dual]. *)
Lemma blank_dual_excluded_witness :
  headersForNonEmptyColumns report_header data_without_dual
    = ["Index"; "Lower"; "Upper"; "Primal"] /\
  ~ In "Dual" (headersForNonEmptyColumns report_header data_without_dual).
Proof.
  split; [vm_compute; reflexivity|].
  refine (proj1 (blank_dual_excluded data_without_dual _)).
  intros i Hi.
  assert (i = 25 \/ i = 26 \/ i = 27 \/ i = 28) as [->|[->|[->| ->]]] by lia;
    reflexivity.
Defined.

(** C8, as it is worded, fails: [data_without_lower] holds blanks under
    [Dual] and under [Lower] too, and [Lower] is not among its headers. *)
Lemma blank_dual_counterexample :
  ~ (forall firstDataLine,
       (forall i, 25 <= i < 29 -> JS.charAt firstDataLine i = Some " "%char) ->
       let headers := headersForNonEmptyColumns report_header firstDataLine in
       In "Index" headers /\ In "Lower" headers /\ In "Upper" headers /\
       In "Primal" headers /\ ~ In "Dual" headers).
Proof.
  intros H. destruct (H data_without_lower) as (_ & Hlower & _).
  - intros i Hi.
    assert (i = 25 \/ i = 26 \/ i = 27 \/ i = 28) as [->|[->|[->| ->]]] by lia;
      reflexivity.
  - vm_compute in Hlower. intuition discriminate.
Qed.

(* ===================================================================== *)
(** ** Invariants of the reader *)
(* ===================================================================== *)

(** A property [P] of the state and the model that every step of the
    reader keeps holds wherever a section reader stops, with or without an
    error. [Q] is the part of it about the coefficients of the column that
    is being read. *)
Section Invariant.

Variable P : ParseState -> Model -> Prop.
Variable Q : ParseState -> gmap string float -> Prop.

Hypothesis P_next : forall s m s' line,
  nextLine s = (s', line) -> P s m -> P s' m.
Hypothesis P_rows : forall s m l s1 m1,
  rowsLine s m l = inr (s1, m1) -> P s m -> P s1 m1.
Hypothesis Q_empty : forall s, Q s ∅.
Hypothesis Q_next : forall s s' line variable,
  nextLine s = (s', line) -> Q s variable -> Q s' variable.
Hypothesis Q_add : forall s variable row value variable',
  addCoefficient s variable row value = inr variable' ->
  Q s variable -> Q s variable'.
Hypothesis P_commit : forall s m name variable (integerMarked : bool),
  P s m -> Q s variable -> JS.has (variables m) name = false ->
  P s (let m1 := set_variables (<[name := variable]> (variables m)) m in
       if integerMarked then integers_add name m1 else m1).
Hypothesis P_rhs : forall s m row value m',
  addConstraint s m row value = inr m' -> P s m -> P s m'.
Hypothesis P_range : forall s m row value m',
  addRange s m row value = inr m' -> P s m -> P s m'.
Hypothesis P_bounds : forall s m l m',
  boundsLine m l = inr m' -> P s m -> P s m'.

Lemma pairLine_inv (add : Model -> string -> string -> Error + Model)
    (s : ParseState) (m m' : Model) (l : string) (e : option Error) :
  (forall m0 row value m1, add m0 row value = inr m1 -> P s m0 -> P s m1) ->
  P s m -> pairLine add m l = (m', e) -> P s m'.
Proof.
  intros Hadd HP. unfold pairLine.
  destruct (add m (field3 l) (field4 l)) as [e1|m1] eqn:H1.
  - intros [= <- _]. exact HP.
  - pose proof (Hadd _ _ _ _ H1 HP) as HP1.
    destruct (negb _ || negb _).
    + destruct (add m1 (field5 l) (field6 l)) as [e2|m2] eqn:H2;
        intros [= <- _]; [exact HP1 | exact (Hadd _ _ _ _ H2 HP1)].
    + intros [= <- _]. exact HP1.
Qed.

Lemma readBoundsLoop_inv (fuel : nat) : forall s m line s' m' e,
  P s m -> readBoundsLoop fuel s m line = Some (s', m', e) -> P s' m'.
Proof.
  induction fuel as [|fuel IH]; intros s m line s' m' e HP; [discriminate|].
  cbn [readBoundsLoop]. destruct (dataLine line) as [l|].
  - destruct (boundsLine m l) as [err|m1] eqn:Hl.
    + intros [= <- <- _]. exact HP.
    + destruct (nextLine s) as [s1 line1] eqn:Hn. apply IH.
      eapply P_next; [exact Hn|]. eapply P_bounds; eassumption.
  - intros [= <- <- _]. exact HP.
Qed.

Lemma readBounds_inv (s s' : ParseState) (m m' : Model) (e : option Error) :
  P s m -> readBounds s m = Some (s', m', e) -> P s' m'.
Proof.
  intros HP. unfold readBounds. destruct (nextLine s) as [s1 line1] eqn:Hn.
  apply readBoundsLoop_inv. eapply P_next; eassumption.
Qed.

Lemma readRangesLoop_inv (fuel : nat) : forall s m line s' m' e,
  P s m -> readRangesLoop fuel s m line = Some (s', m', e) -> P s' m'.
Proof.
  induction fuel as [|fuel IH]; intros s m line s' m' e HP; [discriminate|].
  cbn [readRangesLoop]. destruct (dataLine line) as [l|].
  - destruct (pairLine (addRange s) m l) as [m1 [err|]] eqn:Hl.
    + intros [= <- <- _]. eapply pairLine_inv; [|exact HP|exact Hl].
      intros ? ? ? ?. apply P_range.
    + destruct (nextLine s) as [s1 line1] eqn:Hn. apply IH.
      eapply P_next; [exact Hn|]. eapply pairLine_inv; [|exact HP|exact Hl].
      intros ? ? ? ?. apply P_range.
  - repeat case_match; intros Hout;
      try (injection Hout as <- <- _; exact HP);
      eapply readBounds_inv; eassumption.
Qed.

Lemma readRanges_inv (s s' : ParseState) (m m' : Model) (e : option Error) :
  P s m -> readRanges s m = Some (s', m', e) -> P s' m'.
Proof.
  intros HP. unfold readRanges. destruct (nextLine s) as [s1 line1] eqn:Hn.
  apply readRangesLoop_inv. eapply P_next; eassumption.
Qed.

Lemma readRHSLoop_inv (fuel : nat) : forall s m line s' m' e,
  P s m -> readRHSLoop fuel s m line = Some (s', m', e) -> P s' m'.
Proof.
  induction fuel as [|fuel IH]; intros s m line s' m' e HP; [discriminate|].
  cbn [readRHSLoop]. destruct (dataLine line) as [l|].
  - destruct (pairLine (addConstraint s) m l) as [m1 [err|]] eqn:Hl.
    + intros [= <- <- _]. eapply pairLine_inv; [|exact HP|exact Hl].
      intros ? ? ? ?. apply P_rhs.
    + destruct (nextLine s) as [s1 line1] eqn:Hn. apply IH.
      eapply P_next; [exact Hn|]. eapply pairLine_inv; [|exact HP|exact Hl].
      intros ? ? ? ?. apply P_rhs.
  - repeat case_match; intros Hout;
      try (injection Hout as <- <- _; exact HP);
      first [eapply readBounds_inv; eassumption
            |eapply readRanges_inv; eassumption].
Qed.

Lemma readRHS_inv (s s' : ParseState) (m m' : Model) (e : option Error) :
  P s m -> readRHS s m = Some (s', m', e) -> P s' m'.
Proof.
  intros HP. unfold readRHS. destruct (expectSection s "RHS").
  - intros [= <- <- _]. exact HP.
  - destruct (nextLine s) as [s1 line1] eqn:Hn.
    apply readRHSLoop_inv. eapply P_next; eassumption.
Qed.

Lemma columnLine_inv (s : ParseState) (variable variable' : gmap string float)
    (l : string) :
  Q s variable -> columnLine s variable l = inr variable' -> Q s variable'.
Proof.
  intros HQ. unfold columnLine.
  destruct (addCoefficient s variable (field3 l) (field4 l)) as [e1|v1] eqn:H1;
    [discriminate|].
  pose proof (Q_add _ _ _ _ _ H1 HQ) as HQ1.
  destruct (negb _ || negb _); [|intros [= <-]; exact HQ1].
  intros H2. exact (Q_add _ _ _ _ _ H2 HQ1).
Qed.

Lemma columnBlock_inv (fuel : nat) : forall s variable name line s' r,
  Q s variable -> columnBlock fuel s variable name line = Some (s', r) ->
  (forall m, P s m -> P s' m) /\
  match r with
  | inl _ => True
  | inr (variable', _) => Q s' variable'
  end.
Proof.
  induction fuel as [|fuel IH]; intros s variable name line s' r HQ; [discriminate|].
  cbn [columnBlock].
  destruct (columnLine s variable line) as [err|v1] eqn:Hl.
  { intros [= <- <-]. auto. }
  pose proof (columnLine_inv _ _ _ _ HQ Hl) as HQ1.
  destruct (nextLine s) as [s1 line1] eqn:Hn.
  assert (forall m, P s m -> P s1 m) as HP1 by (intros m; apply (P_next _ _ _ _ Hn)).
  pose proof (Q_next _ _ _ _ Hn HQ1) as HQ1'.
  destruct (dataLine line1) as [l1|]; [|intros [= <- <-]; auto].
  destruct (String.eqb (field2 l1) name); [|intros [= <- <-]; auto].
  intros H. destruct (IH _ _ _ _ _ _ HQ1' H) as [HP2 Hr]. auto.
Qed.

Lemma readColumnsLoop_inv (fuel : nat) : forall s m integerMarked line s' m' e,
  P s m -> readColumnsLoop fuel s m integerMarked line = Some (s', m', e) ->
  P s' m'.
Proof.
  induction fuel as [|fuel IH]; intros s m integerMarked line s' m' e HP;
    [discriminate|].
  cbn [readColumnsLoop]. destruct (dataLine line) as [l|];
    [|apply readRHS_inv; exact HP].
  destruct (String.eqb (field3 l) "'MARKER'").
  - destruct (String.eqb (field4 l) "'INTORG'");
      [|destruct (String.eqb (field4 l) "'INTEND'")];
      try (destruct (nextLine s) as [s1 line1] eqn:Hn; apply IH;
           eapply P_next; eassumption).
    intros [= <- <- _]. exact HP.
  - destruct (String.eqb (field2 l) ""); [intros [= <- <- _]; exact HP|].
    destruct (JS.has (variables m) (field2 l)) eqn:Hhas;
      [intros [= <- <- _]; exact HP|].
    destruct (columnBlock (fuelFor s) s ∅ (field2 l) l) as [[s1 r]|] eqn:Hb;
      [|discriminate].
    destruct (columnBlock_inv _ _ _ _ _ _ _ (Q_empty s) Hb) as [HP1 Hr].
    destruct r as [err|[variable line1]].
    + intros [= <- <- _]. auto.
    + apply IH. apply (P_commit s1 m (field2 l) variable integerMarked); auto.
Qed.

Lemma readColumns_inv (s s' : ParseState) (m m' : Model) (e : option Error) :
  P s m -> readColumns s m = Some (s', m', e) -> P s' m'.
Proof.
  intros HP. unfold readColumns. destruct (expectSection s "COLUMNS").
  - intros [= <- <- _]. exact HP.
  - destruct (nextLine s) as [s1 line1] eqn:Hn.
    apply readColumnsLoop_inv. eapply P_next; eassumption.
Qed.

Lemma readRowsLoop_inv (fuel : nat) : forall s m line s' m' e,
  P s m -> readRowsLoop fuel s m line = Some (s', m', e) -> P s' m'.
Proof.
  induction fuel as [|fuel IH]; intros s m line s' m' e HP; [discriminate|].
  cbn [readRowsLoop]. destruct (dataLine line) as [l|];
    [|apply readColumns_inv; exact HP].
  destruct (rowsLine s m l) as [err|[s1 m1]] eqn:Hl.
  - intros [= <- <- _]. exact HP.
  - destruct (nextLine s1) as [s2 line2] eqn:Hn. apply IH.
    eapply P_next; [exact Hn|]. eapply P_rows; eassumption.
Qed.

Lemma readRows_inv (s s' : ParseState) (m m' : Model) (e : option Error) :
  P s m -> readRows s m = Some (s', m', e) -> P s' m'.
Proof.
  intros HP. unfold readRows. destruct (expectSection s "ROWS").
  - intros [= <- <- _]. exact HP.
  - destruct (nextLine s) as [s1 line1] eqn:Hn.
    apply readRowsLoop_inv. eapply P_next; eassumption.
Qed.

Hypothesis P_name : forall s m i,
  JS.findIndex (JS.startsWith "NAME") (lines s) = Some i -> P s m ->
  P (set_index (i + 1) s) (set_name (field3 (default "" (lines s !! i))) m).

Lemma readName_inv (s s' : ParseState) (m m' : Model) (e : option Error) :
  P s m -> readName s m = Some (s', m', e) -> P s' m'.
Proof.
  intros HP. unfold readName.
  destruct (JS.findIndex _ _) as [i|] eqn:Hi.
  - apply readRows_inv. apply P_name; assumption.
  - intros [= <- <- _]. exact HP.
Qed.

(** What [modelFromMps] returns or throws comes from a state in which [P]
    holds, when [P] holds of the state it starts in. *)
Lemma modelFromMps_inv (mps : string) (direction : OptimizationDirection) :
  P (mkParseState (JS.splitLines mps) 0 ∅) (mkModel "" direction None ∅ ∅ ∅ ∅ ∅) ->
  (forall m, modelFromMps mps direction = Some (inr m) -> exists s, P s m) /\
  (forall t, modelFromMps mps direction = Some (inl t) ->
     exists s m, P s m /\ thrownLine t = index s + 1).
Proof.
  intros HP. unfold modelFromMps.
  destruct (readName _ _) as [[[s m'] [e|]]|] eqn:Hr; split;
    intros x Hx; try discriminate; injection Hx as <-;
    pose proof (readName_inv _ _ _ _ _ HP Hr); eauto.
Qed.

End Invariant.

(* ===================================================================== *)
(** ** What each step leaves alone *)
(* ===================================================================== *)

Section Frames.

Lemma rowsLine_fields (s s1 : ParseState) (m m1 : Model) (l : string) :
  rowsLine s m l = inr (s1, m1) ->
  name m1 = name m /\ direction m1 = direction m /\
  variables m1 = variables m /\ integers m1 = integers m /\
  binaries m1 = binaries m /\ bounds m1 = bounds m /\
  (forall o, objective m = Some o -> objective m1 = Some o).
Proof.
  unfold rowsLine. repeat case_match; simplify_eq; intros [= <- <-];
    simpl; repeat split; auto; congruence.
Qed.

Lemma addConstraint_fields (s : ParseState) (m m1 : Model) (row value : string) :
  addConstraint s m row value = inr m1 ->
  name m1 = name m /\ direction m1 = direction m /\
  objective m1 = objective m /\
  variables m1 = variables m /\ integers m1 = integers m /\
  binaries m1 = binaries m /\ bounds m1 = bounds m.
Proof.
  unfold addConstraint. repeat case_match; simplify_eq; intros [= <-];
    simpl; repeat split; auto.
Qed.

Lemma addRange_fields (s : ParseState) (m m1 : Model) (row value : string) :
  addRange s m row value = inr m1 ->
  name m1 = name m /\ direction m1 = direction m /\
  objective m1 = objective m /\
  variables m1 = variables m /\ integers m1 = integers m /\
  binaries m1 = binaries m /\ bounds m1 = bounds m.
Proof.
  unfold addRange. repeat case_match; simplify_eq; intros [= <-];
    simpl; repeat split; auto.
Qed.

Lemma setBounds_fields (m : Model) (col : string) (lower upper : float) :
  name (setBounds m col lower upper) = name m /\
  direction (setBounds m col lower upper) = direction m /\
  objective (setBounds m col lower upper) = objective m /\
  constraints (setBounds m col lower upper) = constraints m /\
  variables (setBounds m col lower upper) = variables m /\
  integers (setBounds m col lower upper) = integers m /\
  binaries (setBounds m col lower upper) = binaries m.
Proof. unfold setBounds. repeat case_match; simpl; repeat split; auto. Qed.

Lemma boundsLine_fields (m m1 : Model) (l : string) :
  boundsLine m l = inr m1 ->
  name m1 = name m /\ direction m1 = direction m /\
  objective m1 = objective m /\ constraints m1 = constraints m /\
  variables m1 = variables m /\
  integers m ⊆ integers m1 /\ binaries m ⊆ binaries m1.
Proof.
  unfold boundsLine. intros H.
  repeat case_match; simplify_eq;
    repeat match goal with
    | |- context [setBounds ?m ?c ?lo ?hi] =>
        let F := fresh in
        pose proof (setBounds_fields m c lo hi) as F;
        destruct F as (-> & -> & -> & -> & -> & -> & ->)
    end; simpl; repeat split; auto; set_solver.
Qed.

End Frames.

(* ===================================================================== *)
(** ** The objective row *)
(* ===================================================================== *)

Lemma objective_kept_rows (o : string) (fuel : nat) (s s' : ParseState)
    (m m' : Model) (line : option string) (e : option Error) :
  objective m = Some o ->
  readRowsLoop fuel s m line = Some (s', m', e) ->
  objective m' = Some o.
Proof.
  apply (readRowsLoop_inv (fun _ m => objective m = Some o) (fun _ _ => True)).
  - auto.
  - intros ? ? ? ? ? H; destruct (rowsLine_fields _ _ _ _ _ H) as (_ & _ & _ & _ & _ & _ & Ho); exact (Ho o).
  - auto.
  - auto.
  - auto.
  - intros ? ? ? ? [] H _ _; exact H.
  - intros ? ? ? ? ? H; destruct (addConstraint_fields _ _ _ _ _ H) as (? & ? & ? & ? & ? & ? & ?); congruence.
  - intros ? ? ? ? ? H; destruct (addRange_fields _ _ _ _ _ H) as (? & ? & ? & ? & ? & ? & ?); congruence.
  - intros ? ? ? ? H; destruct (boundsLine_fields _ _ _ H) as (? & ? & ? & ? & ? & ? & ?); congruence.
Qed.

(** The first row of type N that is read names the objective, and nothing
    that is read afterwards changes it: no other row of type N and no later
    section. *)
Theorem first_objective_wins (s0 s1 s2 s' : ParseState) (m0 m1 m' : Model)
    (l : string) (fuel : nat) (line : option string) (e : option Error) :
  objective m0 = None ->
  field1 l = "N" ->
  rowsLine s0 m0 l = inr (s1, m1) ->
  readRowsLoop fuel s2 m1 line = Some (s', m', e) ->
  objective m' = Some (field2 l).
Proof.
  intros Hnone Htype Hrow. apply objective_kept_rows.
  unfold rowsLine in Hrow. rewrite Htype, Hnone in Hrow. simpl in Hrow.
  repeat case_match; simplify_eq. reflexivity.
Qed.

(** [first_objective_wins] on [doc_full]: its rows COST and OTHER are both
    of type N. *)
Lemma first_objective_wins_witness : objective full_model = Some "COST".
Proof.
  apply (first_objective_wins (full_state 3 ∅) (full_state 3 {[ "COST" := "N" ]})
           (full_state 4 {[ "COST" := "N" ]}) (full_state 25 full_types)
           full_model_named
           (mkModel "full" minimize (Some "COST")
              {[ "COST" := (neg_infinity, infinity) ]} ∅ ∅ ∅ ∅)
           full_model full_row_COST 40 (Some full_row_OTHER) None);
    vm_compute; reflexivity.
Defined.

(* ===================================================================== *)
(** ** Columns *)
(* ===================================================================== *)

(** A column that has been read keeps its coefficients to the end of the
    parse: no later line of COLUMNS and no later section replaces them. *)
Theorem column_kept (X : string) (variable : gmap string float) (fuel : nat)
    (s s' : ParseState) (m m' : Model) (integerMarked : bool)
    (line : option string) (e : option Error) :
  variables m !! X = Some variable ->
  readColumnsLoop fuel s m integerMarked line = Some (s', m', e) ->
  variables m' !! X = Some variable.
Proof.
  apply (readColumnsLoop_inv (fun _ m => variables m !! X = Some variable)
           (fun _ _ => True)); auto.
  - intros ? ? name v [] H _ Hhas; simpl;
      (rewrite lookup_insert_ne; [exact H|]);
      intros ->; unfold JS.has in Hhas; rewrite H in Hhas; discriminate.
  - intros ? ? ? ? ? H; destruct (addConstraint_fields _ _ _ _ _ H) as (? & ? & ? & ? & ? & ? & ?); congruence.
  - intros ? ? ? ? ? H; destruct (addRange_fields _ _ _ _ _ H) as (? & ? & ? & ? & ? & ? & ?); congruence.
  - intros ? ? ? ? H; destruct (boundsLine_fields _ _ _ H) as (? & ? & ? & ? & ? & ? & ?); congruence.
Qed.

(** [column_kept] on column [X] of [doc_full], from its column [Y] on. *)
Lemma column_kept_witness :
  variables full_model !! "X"
  = Some {[ "COST" := 1%float; "CAP" := 1%float; "BAL" := 1%float ]}.
Proof.
  apply (column_kept "X" _ 40 (full_state 12 full_types) (full_state 25 full_types)
           (set_variables
              {[ "X" := {[ "COST" := 1%float; "CAP" := 1%float; "BAL" := 1%float ]} ]}
              full_model_rows)
           full_model true (Some full_column_Y) None);
    vm_compute; reflexivity.
Defined.

Lemma integer_kept_columns (x : string) (fuel : nat) (s s' : ParseState)
    (m m' : Model) (integerMarked : bool) (line : option string)
    (e : option Error) :
  x ∈ integers m ->
  readColumnsLoop fuel s m integerMarked line = Some (s', m', e) ->
  x ∈ integers m'.
Proof.
  apply (readColumnsLoop_inv (fun _ m => x ∈ integers m) (fun _ _ => True)); auto.
  - intros ? ? name v [] H _ _; simpl; set_solver.
  - intros ? ? ? ? ? H; destruct (addConstraint_fields _ _ _ _ _ H) as (? & ? & ? & ? & ? & ? & ?); congruence.
  - intros ? ? ? ? ? H; destruct (addRange_fields _ _ _ _ _ H) as (? & ? & ? & ? & ? & ? & ?); congruence.
  - intros ? ? ? ? H; destruct (boundsLine_fields _ _ _ H) as (? & ? & ? & ? & ? & ? & ?); set_solver.
Qed.

(** The column that follows an INTORG marker is an integer column of the
    model, when the parse goes on to its end without error. *)
Theorem column_after_INTORG_is_integer (fuel : nat) (s s1 s' : ParseState)
    (m m' : Model) (integerMarked : bool) (marker l : string) :
  JS.startsWith " " marker = true ->
  field3 marker = "'MARKER'" -> field4 marker = "'INTORG'" ->
  nextLine s = (s1, Some l) ->
  JS.startsWith " " l = true -> field3 l <> "'MARKER'" ->
  readColumnsLoop (S (S fuel)) s m integerMarked (Some marker)
    = Some (s', m', None) ->
  field2 l ∈ integers m'.
Proof.
  intros Dm M3 M4 Hn Dl L3.
  cbn [readColumnsLoop]. rewrite (dataLine_data _ Dm), M3, M4, Hn.
  cbn [String.eqb Ascii.eqb Bool.eqb]. rewrite (dataLine_data _ Dl).
  apply String.eqb_neq in L3. rewrite L3.
  destruct (String.eqb (field2 l) ""); [discriminate|].
  destruct (JS.has (variables m) (field2 l)); [discriminate|].
  destruct (columnBlock _ _ _ _ _) as [[s2 [err|[variable line2]]]|];
    try discriminate.
  apply integer_kept_columns. simpl. set_solver.
Qed.

(** [column_after_INTORG_is_integer] on the marker of [doc_full] and its
    column [Y]. *)
Lemma column_after_INTORG_is_integer_witness : "Y" ∈ integers full_model.
Proof.
  apply (column_after_INTORG_is_integer 38 (full_state 11 full_types)
           (full_state 12 full_types) (full_state 25 full_types)
           (set_variables
              {[ "X" := {[ "COST" := 1%float; "CAP" := 1%float; "BAL" := 1%float ]} ]}
              full_model_rows)
           full_model false full_marker_INTORG full_column_Y);
    try (vm_compute; reflexivity). discriminate.
Defined.

(* ===================================================================== *)
(** ** The model that is returned *)
(* ===================================================================== *)

Section ModelFacts.

Lemma rowsLine_types (s s1 : ParseState) (m m1 : Model) (l : string) :
  rowsLine s m l = inr (s1, m1) ->
  forall row, is_Some (constraintTypes s !! row) ->
              is_Some (constraintTypes s1 !! row).
Proof.
  unfold rowsLine. repeat case_match; simplify_eq; intros [= <- <-] row Hrow;
    simpl; (destruct (decide (row = field2 l)) as [->|Hne];
            [rewrite lookup_insert_eq; eauto
            |rewrite lookup_insert_ne by congruence; exact Hrow]).
Qed.

Lemma addCoefficient_result (s : ParseState) (variable variable' : gmap string float)
    (row value : string) :
  addCoefficient s variable row value = inr variable' ->
  row <> "" /\ value <> "" /\ is_Some (constraintTypes s !! row) /\
  variable !! row = None /\ JS.isNaN (JS.parseFloat value) = false /\
  variable' = <[row := JS.parseFloat value]> variable.
Proof.
  unfold addCoefficient.
  destruct (String.eqb_spec row ""); [discriminate|].
  destruct (String.eqb_spec value ""); [discriminate|].
  destruct (JS.has (constraintTypes s) row) eqn:Ht; simpl; [|discriminate].
  destruct (JS.has variable row) eqn:Hv; [discriminate|].
  destruct (JS.isNaN (JS.parseFloat value)) eqn:Hn; [discriminate|].
  intros [= <-]. apply has_true in Ht. unfold JS.has in Hv.
  destruct (variable !! row); [discriminate|]. repeat split; auto.
Qed.

Lemma model_rows_inv (mps : string) (direction : OptimizationDirection) (m : Model) :
  modelFromMps mps direction = Some (inr m) ->
  exists s, registered s m /\
    forall col variable, variables m !! col = Some variable ->
                         coefficients_ok_in s variable.
Proof.
  intros Hm.
  destruct (modelFromMps_inv
    (fun s m => registered s m /\
       forall col variable, variables m !! col = Some variable ->
                            coefficients_ok_in s variable)
    coefficients_ok_in) with (mps := mps) (direction := direction) as [Hok _].
  - intros s m0 s' line Hn [Hreg Hco].
    apply nextLine_spec in Hn as (_ & Ht & _).
    unfold registered, coefficients_ok_in in *. rewrite Ht. auto.
  - intros s m0 l s1 m1 Hl [Hreg Hco]. split.
    + eapply rowsLine_registered; eassumption.
    + destruct (rowsLine_fields _ _ _ _ _ Hl) as (_ & _ & Hv & _).
      rewrite Hv. intros col variable Hcol row x Hx.
      destruct (Hco col variable Hcol row x Hx) as [Hrow Hnan].
      split; [|exact Hnan]. eapply rowsLine_types; eassumption.
  - intros s row x Hx. rewrite lookup_empty in Hx. discriminate.
  - intros s s' line variable Hn HQ.
    apply nextLine_spec in Hn as (_ & Ht & _).
    unfold coefficients_ok_in in *. rewrite Ht. exact HQ.
  - intros s variable row value variable' Ha HQ.
    apply addCoefficient_result in Ha as (_ & _ & Hrow & _ & Hnan & ->).
    intros r x. destruct (decide (r = row)) as [->|Hne].
    + rewrite lookup_insert_eq. intros [= <-]. auto.
    + rewrite lookup_insert_ne by congruence. apply HQ.
  - intros s m0 name variable im [Hreg Hco] HQ _. split.
    + destruct im; exact Hreg.
    + intros col v Hcol.
      assert (<[name := variable]> (variables m0) !! col = Some v) as Hcol'
        by (destruct im; exact Hcol).
      destruct (decide (col = name)) as [->|Hne].
      * rewrite lookup_insert_eq in Hcol'. injection Hcol' as <-. exact HQ.
      * rewrite lookup_insert_ne in Hcol' by congruence. eapply Hco, Hcol'.
  - intros s m0 row value m1 Ha [Hreg Hco]. split.
    + eapply addConstraint_registered; eassumption.
    + destruct (addConstraint_fields _ _ _ _ _ Ha) as (_ & _ & _ & Hv & _).
      rewrite Hv. exact Hco.
  - intros s m0 row value m1 Ha [Hreg Hco]. split.
    + eapply addRange_registered; eassumption.
    + destruct (addRange_fields _ _ _ _ _ Ha) as (_ & _ & _ & Hv & _).
      rewrite Hv. exact Hco.
  - intros s m0 l m1 Hl [Hreg Hco].
    destruct (boundsLine_fields _ _ _ Hl) as (_ & _ & _ & Hc & Hv & _).
    unfold registered. rewrite Hc, Hv. auto.
  - intros s m0 i _ HP. exact HP.
  - split; [apply registered_initial|].
    intros col variable Hcol. simpl in Hcol. rewrite lookup_empty in Hcol.
    discriminate.
  - exact (Hok m Hm).
Qed.

End ModelFacts.

(** In a model that [modelFromMps] returns, every coefficient of every
    column is a number, not NaN, and belongs to a row that has a bound pair
    in [constraints]. *)
Theorem model_coefficients_declared (mps : string)
    (direction : OptimizationDirection) (m : Model)
    (col row : string) (variable : gmap string float) (x : float) :
  modelFromMps mps direction = Some (inr m) ->
  variables m !! col = Some variable -> variable !! row = Some x ->
  is_Some (constraints m !! row) /\ JS.isNaN x = false.
Proof.
  intros Hm Hcol Hrow.
  destruct (model_rows_inv _ _ _ Hm) as (s & Hreg & Hco).
  destruct (Hco col variable Hcol row x Hrow) as [Ht Hnan].
  split; [apply Hreg, Ht | exact Hnan].
Qed.

(** [model_coefficients_declared] on the coefficient of [Z] in row [BAL]
    of [doc_full]. *)
Lemma model_coefficients_declared_witness :
  is_Some (constraints full_model !! "BAL") /\ JS.isNaN (-1)%float = false.
Proof.
  apply (model_coefficients_declared doc_full minimize full_model "Z" "BAL"
           {[ "OTHER" := 3%float; "BAL" := (-1)%float ]});
    vm_compute; reflexivity.
Defined.

Section BoundsFacts.

Lemma setBounds_numbers (m : Model) (col : string) (lower upper : float) :
  JS.isNaN lower = false -> JS.isNaN upper = false ->
  bounds (setBounds m col lower upper) !! col = Some (lower, upper) /\
  forall c, c <> col -> bounds (setBounds m col lower upper) !! c = bounds m !! c.
Proof.
  intros Hl Hu. split; [apply setBounds_lookup; assumption|].
  intros c Hc. apply setBounds_frame, Hc.
Qed.

(** What an accepted BOUNDS line does to [bounds]: nothing (type BV), or
    it writes two numbers for its column and leaves the other columns. *)
Lemma boundsLine_pair (m m1 : Model) (l : string) :
  boundsLine m l = inr m1 ->
  JS.has (variables m) (field3 l) = true /\
  (bounds m1 = bounds m \/
   exists lower upper,
     JS.isNaN lower = false /\ JS.isNaN upper = false /\
     bounds m1 !! field3 l = Some (lower, upper) /\
     forall c, c <> field3 l -> bounds m1 !! c = bounds m !! c).
Proof.
  unfold boundsLine.
  destruct (String.eqb (field3 l) ""); [discriminate|].
  destruct (JS.has (variables m) (field3 l)); [|discriminate]. simpl.
  intros H. split; [reflexivity|].
  repeat case_match; simplify_eq; try (left; reflexivity); right;
    match goal with
    | |- context [setBounds ?m0 ?c ?lo ?hi] =>
        exists lo, hi;
        destruct (setBounds_numbers m0 c lo hi) as [Hp Hf];
          [first [assumption | reflexivity] ..|];
        repeat split; try assumption; try reflexivity
    end.
Qed.

Lemma boundsLine_members (m m1 : Model) (l : string) :
  boundsLine m l = inr m1 ->
  (forall c, c ∈ integers m1 -> c = field3 l \/ c ∈ integers m) /\
  (forall c, c ∈ binaries m1 -> c = field3 l \/ c ∈ binaries m).
Proof.
  unfold boundsLine. intros H.
  repeat case_match; simplify_eq;
    repeat match goal with
    | |- context [setBounds ?m ?c ?lo ?hi] =>
        let F := fresh in
        pose proof (setBounds_fields m c lo hi) as F;
        destruct F as (_ & _ & _ & _ & _ & -> & ->)
    end; simpl; split; intros c Hc; set_solver.
Qed.

End BoundsFacts.

(** In a model that [modelFromMps] returns, every name with a bound pair
    and every name in [integers] or [binaries] is a column of the model,
    and no bound is NaN. *)
Theorem model_bounds_declared (mps : string) (direction : OptimizationDirection)
    (m : Model) :
  modelFromMps mps direction = Some (inr m) ->
  (forall c, c ∈ integers m -> is_Some (variables m !! c)) /\
  (forall c, c ∈ binaries m -> is_Some (variables m !! c)) /\
  (forall c lower upper, bounds m !! c = Some (lower, upper) ->
     is_Some (variables m !! c) /\
     JS.isNaN lower = false /\ JS.isNaN upper = false).
Proof.
  intros Hm.
  destruct (modelFromMps_inv
    (fun _ m =>
       (forall c, c ∈ integers m -> is_Some (variables m !! c)) /\
       (forall c, c ∈ binaries m -> is_Some (variables m !! c)) /\
       (forall c lower upper, bounds m !! c = Some (lower, upper) ->
          is_Some (variables m !! c) /\
          JS.isNaN lower = false /\ JS.isNaN upper = false))
    (fun _ _ => True)) with (mps := mps) (direction := direction) as [Hok _];
    auto.
  - intros s m0 l s1 m1 Hl HP.
    destruct (rowsLine_fields _ _ _ _ _ Hl) as (_ & _ & -> & -> & -> & -> & _).
    exact HP.
  - intros s m0 name variable im (Hi & Hb & Hbd) _ _.
    assert (forall c, is_Some (variables m0 !! c) ->
                      is_Some (<[name := variable]> (variables m0) !! c)) as Hgrow.
    { intros c Hc. destruct (decide (c = name)) as [->|Hne].
      - rewrite lookup_insert_eq. eauto.
      - rewrite lookup_insert_ne by congruence. exact Hc. }
    destruct im; simpl; (split; [|split]); intros c;
      try (intros lower upper Hc; destruct (Hbd c lower upper Hc) as (? & ? & ?));
      try (intros Hc); auto.
    apply elem_of_union in Hc as [Hc|Hc]; [|auto].
    apply elem_of_singleton in Hc as ->. rewrite lookup_insert_eq. eauto.
  - intros s m0 row value m1 Ha HP.
    destruct (addConstraint_fields _ _ _ _ _ Ha) as (_ & _ & _ & -> & -> & -> & ->).
    exact HP.
  - intros s m0 row value m1 Ha HP.
    destruct (addRange_fields _ _ _ _ _ Ha) as (_ & _ & _ & -> & -> & -> & ->).
    exact HP.
  - intros s m0 l m1 Hl (Hi & Hb & Hbd).
    destruct (boundsLine_fields _ _ _ Hl) as (_ & _ & _ & _ & Hv & _).
    destruct (boundsLine_members _ _ _ Hl) as [Hi1 Hb1].
    destruct (boundsLine_pair _ _ _ Hl) as [Hcol Hpair].
    apply has_true in Hcol. rewrite Hv. split; [|split].
    + intros c Hc. destruct (Hi1 c Hc) as [->|?]; auto.
    + intros c Hc. destruct (Hb1 c Hc) as [->|?]; auto.
    + intros c lower upper Hc.
      destruct Hpair as [Heq|(lo & hi & Hlo & Hhi & Hp & Hf)].
      * rewrite Heq in Hc. exact (Hbd _ _ _ Hc).
      * destruct (decide (c = field3 l)) as [->|Hne].
        -- rewrite Hp in Hc. injection Hc as <- <-. auto.
        -- rewrite (Hf c Hne) in Hc. exact (Hbd _ _ _ Hc).
  - simpl. split; [|split]; intros c; set_solver.
  - destruct (Hok m Hm) as [_ HP]. exact HP.
Qed.

(** [model_bounds_declared] on [doc_full]. *)
Lemma model_bounds_declared_witness :
  (forall c, c ∈ integers full_model -> is_Some (variables full_model !! c)) /\
  (forall c, c ∈ binaries full_model -> is_Some (variables full_model !! c)) /\
  (forall c lower upper, bounds full_model !! c = Some (lower, upper) ->
     is_Some (variables full_model !! c) /\
     JS.isNaN lower = false /\ JS.isNaN upper = false).
Proof.
  apply (model_bounds_declared doc_full minimize full_model).
  vm_compute. reflexivity.
Defined.

(* ===================================================================== *)
(** ** Where the parse stops *)
(* ===================================================================== *)

Section Stops.

Lemma findIndex_lt {A} (p : A -> bool) (l : list A) : forall i,
  JS.findIndex p l = Some i -> i < length l.
Proof.
  induction l as [|x l IH]; intros i; simpl; [discriminate|].
  destruct (p x); [intros [= <-]; lia|].
  destruct (JS.findIndex p l) as [j|]; [|discriminate].
  intros [= <-]. specialize (IH j eq_refl). lia.
Qed.

Lemma cursor_inv (L : list string) (s s' : ParseState) (m m' : Model)
    (e : option Error) :
  lines s = L -> index s <= length L ->
  readName s m = Some (s', m', e) ->
  lines s' = L /\ index s' <= length L.
Proof.
  intros HL Hi.
  apply (readName_inv (fun s _ => lines s = L /\ index s <= length L)
           (fun _ _ => True)); auto.
  - intros s0 m0 s1 line Hn [Hl0 Hi0].
    apply nextLine_spec in Hn as (Hl & _ & Hline). split; [congruence|].
    destruct line as [l|]; [|subst s1; exact Hi0].
    destruct Hline as (_ & Hlook & _). apply lookup_lt_Some in Hlook.
    rewrite Hl0 in Hlook. lia.
  - intros s0 m0 l s1 m1 Hl [Hl0 Hi0].
    apply rowsLine_cursor in Hl as [-> ->]. auto.
  - intros s0 m0 i Hfind [Hl0 _]. simpl. split; [exact Hl0|].
    apply findIndex_lt in Hfind. rewrite Hl0 in Hfind. lia.
Qed.

Lemma expectSection_None (s : ParseState) (section : string) :
  expectSection s section = None -> readSection s = Some section.
Proof.
  unfold expectSection. destruct (readSection s) as [n|]; [|discriminate].
  destruct (String.eqb_spec n section) as [->|]; [reflexivity | discriminate].
Qed.

(** The choice of the next section after RHS and after RANGES, by the
    text of the header. *)
Lemma after_RHS_dispatch {T} (section : option string) (ranges bounds endata : T)
    (other : T) :
  match section with
  | Some "RANGES" => ranges
  | Some "BOUNDS" => bounds
  | Some "ENDATA" => endata
  | _ => other
  end =
  match section with
  | Some t =>
      if String.eqb t "RANGES" then ranges
      else if String.eqb t "BOUNDS" then bounds
      else if String.eqb t "ENDATA" then endata else other
  | None => other
  end.
Proof. repeat case_match; simplify_eq; reflexivity. Qed.

Lemma after_RANGES_dispatch {T} (section : option string) (bounds endata : T)
    (other : T) :
  match section with
  | Some "BOUNDS" => bounds
  | Some "ENDATA" => endata
  | _ => other
  end =
  match section with
  | Some t =>
      if String.eqb t "BOUNDS" then bounds
      else if String.eqb t "ENDATA" then endata else other
  | None => other
  end.
Proof. repeat case_match; simplify_eq; reflexivity. Qed.

Lemma readSection_sectionAt (s : ParseState) :
  readSection s = sectionAt (lines s) (index s).
Proof. reflexivity. Qed.

Lemma nextLine_mono (s s' : ParseState) (line : option string) :
  nextLine s = (s', line) -> lines s' = lines s /\ index s <= index s'.
Proof.
  intros H. apply nextLine_spec in H as (Hl & _ & H). split; [exact Hl|].
  destruct line; [lia | subst; lia].
Qed.

Lemma stops_after (s s1 s' : ParseState) :
  lines s1 = lines s -> index s <= index s1 ->
  stops_on_ENDATA s1 s' -> stops_on_ENDATA s s'.
Proof.
  intros Hl Hi (Hl' & Hi' & He). unfold stops_on_ENDATA.
  rewrite <- Hl. repeat split; [congruence | lia | exact He].
Qed.

Lemma stops_here (s : ParseState) :
  readSection s = Some "ENDATA" -> stops_on_ENDATA s s.
Proof. intros H. repeat split; [lia | exact H]. Qed.

Lemma readBoundsLoop_ends (fuel : nat) : forall s m line s' m',
  readBoundsLoop fuel s m line = Some (s', m', None) -> stops_on_ENDATA s s'.
Proof.
  induction fuel as [|fuel IH]; intros s m line s' m'; [discriminate|].
  cbn [readBoundsLoop]. destruct (dataLine line) as [l|].
  - destruct (boundsLine m l); [discriminate|].
    destruct (nextLine s) as [s1 line1] eqn:Hn.
    apply nextLine_mono in Hn as [Hl Hi].
    intros H. eapply stops_after; eauto.
  - intros [= <- _ He]. apply stops_here, expectSection_None, He.
Qed.

Lemma readBounds_ends (s s' : ParseState) (m m' : Model) :
  readBounds s m = Some (s', m', None) -> stops_on_ENDATA s s'.
Proof.
  unfold readBounds. destruct (nextLine s) as [s1 line1] eqn:Hn.
  apply nextLine_mono in Hn as [Hl Hi].
  intros H. eapply stops_after; eauto using readBoundsLoop_ends.
Qed.

Lemma readRangesLoop_ends (fuel : nat) : forall s m line s' m',
  readRangesLoop fuel s m line = Some (s', m', None) -> stops_on_ENDATA s s'.
Proof.
  induction fuel as [|fuel IH]; intros s m line s' m'; [discriminate|].
  cbn [readRangesLoop]. destruct (dataLine line) as [l|].
  - destruct (pairLine _ m l) as [m1 [err|]]; [discriminate|].
    destruct (nextLine s) as [s1 line1] eqn:Hn.
    apply nextLine_mono in Hn as [Hl Hi].
    intros H. eapply stops_after; eauto.
  - rewrite after_RANGES_dispatch. destruct (readSection s) as [t|] eqn:Ht;
      [|discriminate].
    destruct (String.eqb t "BOUNDS"); [apply readBounds_ends|].
    destruct (String.eqb_spec t "ENDATA") as [->|]; [|discriminate].
    intros [= <- _]. apply stops_here, Ht.
Qed.

Lemma readRanges_ends (s s' : ParseState) (m m' : Model) :
  readRanges s m = Some (s', m', None) -> stops_on_ENDATA s s'.
Proof.
  unfold readRanges. destruct (nextLine s) as [s1 line1] eqn:Hn.
  apply nextLine_mono in Hn as [Hl Hi].
  intros H. eapply stops_after; eauto using readRangesLoop_ends.
Qed.

Lemma readRHSLoop_ends (fuel : nat) : forall s m line s' m',
  readRHSLoop fuel s m line = Some (s', m', None) -> stops_on_ENDATA s s'.
Proof.
  induction fuel as [|fuel IH]; intros s m line s' m'; [discriminate|].
  cbn [readRHSLoop]. destruct (dataLine line) as [l|].
  - destruct (pairLine _ m l) as [m1 [err|]]; [discriminate|].
    destruct (nextLine s) as [s1 line1] eqn:Hn.
    apply nextLine_mono in Hn as [Hl Hi].
    intros H. eapply stops_after; eauto.
  - rewrite after_RHS_dispatch. destruct (readSection s) as [t|] eqn:Ht;
      [|discriminate].
    destruct (String.eqb t "RANGES"); [apply readRanges_ends|].
    destruct (String.eqb t "BOUNDS"); [apply readBounds_ends|].
    destruct (String.eqb_spec t "ENDATA") as [->|]; [|discriminate].
    intros [= <- _]. apply stops_here, Ht.
Qed.

Lemma readRHS_ends (s s' : ParseState) (m m' : Model) :
  readRHS s m = Some (s', m', None) ->
  lines s' = lines s /\ rhs_then_ENDATA (lines s) (index s) (index s) (index s').
Proof.
  unfold readRHS. destruct (expectSection s "RHS") eqn:He; [discriminate|].
  apply expectSection_None in He.
  destruct (nextLine s) as [s1 line1] eqn:Hn.
  apply nextLine_mono in Hn as [Hl Hi]. intros H.
  apply readRHSLoop_ends in H as (Hl' & Hi' & Hend). rewrite Hl in *.
  repeat split; [congruence | lia | lia | exact He | exact Hend].
Qed.

Lemma columnBlock_mono (fuel : nat) : forall s variable name line s1 r,
  columnBlock fuel s variable name line = Some (s1, r) ->
  lines s1 = lines s /\ index s <= index s1.
Proof.
  induction fuel as [|fuel IH]; intros s variable name line s1 r; [discriminate|].
  cbn [columnBlock]. destruct (columnLine s variable line); [intros [= <- _]; auto|].
  destruct (nextLine s) as [s2 line2] eqn:Hn.
  apply nextLine_mono in Hn as [Hl Hi].
  destruct (dataLine line2) as [l2|]; [|intros [= <- _]; auto].
  destruct (String.eqb (field2 l2) name); [|intros [= <- _]; auto].
  intros H. apply IH in H as [Hl' Hi']. split; [congruence | lia].
Qed.

Lemma readColumnsLoop_ends (fuel : nat) : forall s m integerMarked line s' m',
  readColumnsLoop fuel s m integerMarked line = Some (s', m', None) ->
  lines s' = lines s /\
  exists i3, rhs_then_ENDATA (lines s) (index s) i3 (index s').
Proof.
  induction fuel as [|fuel IH]; intros s m integerMarked line s' m';
    [discriminate|].
  assert (Hstep : forall s1 m1 im1 line1,
            lines s1 = lines s -> index s <= index s1 ->
            readColumnsLoop fuel s1 m1 im1 line1 = Some (s', m', None) ->
            lines s' = lines s /\
            exists i3, rhs_then_ENDATA (lines s) (index s) i3 (index s')).
  { intros s1 m1 im1 line1 Hl Hi H.
    apply IH in H as (Hl' & i3 & H1 & H2 & H3 & H4). rewrite Hl in *.
    split; [exact Hl'|]. exists i3. split; [lia|]. repeat split; assumption. }
  cbn [readColumnsLoop]. destruct (dataLine line) as [l|].
  - destruct (String.eqb (field3 l) "'MARKER'").
    + destruct (String.eqb (field4 l) "'INTORG'");
        [|destruct (String.eqb (field4 l) "'INTEND'"); [|discriminate]];
        destruct (nextLine s) as [s1 line1] eqn:Hn;
        apply nextLine_mono in Hn as [Hl Hi]; apply Hstep; assumption.
    + destruct (String.eqb (field2 l) ""); [discriminate|].
      destruct (JS.has (variables m) (field2 l)); [discriminate|].
      destruct (columnBlock (fuelFor s) s ∅ (field2 l) l)
        as [[s1 [err|[variable line1]]]|] eqn:Hb; try discriminate.
      apply columnBlock_mono in Hb as [Hl Hi]. apply Hstep; assumption.
  - intros H. apply readRHS_ends in H as (Hl & H). split; [exact Hl|].
    exists (index s). exact H.
Qed.

Lemma readRowsLoop_ends (fuel : nat) : forall s m line s' m',
  readRowsLoop fuel s m line = Some (s', m', None) ->
  lines s' = lines s /\
  exists i2 i3, index s <= i2 /\ i2 <= i3 /\
    sectionAt (lines s) i2 = Some "COLUMNS" /\
    rhs_then_ENDATA (lines s) i2 i3 (index s').
Proof.
  induction fuel as [|fuel IH]; intros s m line s' m'; [discriminate|].
  cbn [readRowsLoop]. destruct (dataLine line) as [l|].
  - destruct (rowsLine s m l) as [err|[s1 m1]] eqn:Hr; [discriminate|].
    apply rowsLine_cursor in Hr as [Hl1 Hi1].
    destruct (nextLine s1) as [s2 line2] eqn:Hn.
    apply nextLine_mono in Hn as [Hl Hi]. intros H.
    apply IH in H as (Hl' & i2 & i3 & H1 & H2 & H3 & H4).
    rewrite Hl, Hl1 in *. split; [exact Hl'|].
    exists i2, i3. split; [lia|]. split; [assumption|]. split; assumption.
  - unfold readColumns. destruct (expectSection s "COLUMNS") eqn:He;
      [discriminate|].
    apply expectSection_None in He.
    destruct (nextLine s) as [s1 line1] eqn:Hn.
    apply nextLine_mono in Hn as [Hl Hi]. intros H.
    apply readColumnsLoop_ends in H as (Hl' & i3 & H1 & H2 & H3 & H4).
    rewrite Hl in *. split; [exact Hl'|].
    exists (index s), i3. split; [lia|]. split; [lia|]. split; [exact He|].
    repeat split; try assumption; lia.
Qed.

Lemma findIndex_Some {A} (p : A -> bool) (l : list A) : forall i,
  JS.findIndex p l = Some i -> exists x, l !! i = Some x /\ p x = true.
Proof.
  induction l as [|x l IH]; intros i; simpl; [discriminate|].
  destruct (p x) eqn:Hp; [intros [= <-]; eauto|].
  destruct (JS.findIndex p l) as [j|]; [|discriminate].
  intros [= <-]. exact (IH j eq_refl).
Qed.

Lemma sectionAt_lt (ls : list string) (i j : nat) (t u : string) :
  sectionAt ls i = Some t -> sectionAt ls j = Some u -> t <> u ->
  i <= j -> i < j.
Proof.
  intros Hi Hj Hne Hle. destruct (decide (i = j)) as [->|]; [|lia].
  congruence.
Qed.

End Stops.

(** A document is read without error only if it holds, in this order, a
    line that starts with NAME, then directly a line that reads ROWS, and
    further down lines that read COLUMNS, RHS and ENDATA (white space at
    the end of a header apart). *)
Theorem success_needs_sections (mps : string) (direction : OptimizationDirection)
    (m : Model) :
  modelFromMps mps direction = Some (inr m) ->
  exists i0 i2 i3 i4 l0,
    JS.splitLines mps !! i0 = Some l0 /\ JS.startsWith "NAME" l0 = true /\
    sectionAt (JS.splitLines mps) (i0 + 1) = Some "ROWS" /\
    sectionAt (JS.splitLines mps) i2 = Some "COLUMNS" /\
    sectionAt (JS.splitLines mps) i3 = Some "RHS" /\
    sectionAt (JS.splitLines mps) i4 = Some "ENDATA" /\
    i0 + 1 < i2 /\ i2 < i3 /\ i3 < i4.
Proof.
  unfold modelFromMps.
  destruct (readName _ _) as [[[s m'] [e|]]|] eqn:Hr; try discriminate.
  intros _. unfold readName in Hr. cbn [lines] in Hr.
  destruct (JS.findIndex _ _) as [i0|] eqn:Hfind; [|discriminate].
  apply findIndex_Some in Hfind as (l0 & Hl0 & Hname).
  unfold readRows in Hr.
  destruct (expectSection _ "ROWS") eqn:He; [discriminate|].
  apply expectSection_None in He. rewrite readSection_sectionAt in He.
  destruct (nextLine _) as [s1 line1] eqn:Hn.
  apply nextLine_mono in Hn as [Hl Hi]. cbn [lines index set_index] in *.
  apply readRowsLoop_ends in Hr as (Hl' & i2 & i3 & H1 & H2 & H3 & H4).
  destruct H4 as (H4 & H5 & H6 & H7). rewrite Hl in *.
  exists i0, i2, i3, (index s), l0.
  repeat split; try assumption.
  - eapply sectionAt_lt; [exact He | exact H3 | discriminate | lia].
  - eapply sectionAt_lt; [exact H3 | exact H6 | discriminate | lia].
  - eapply sectionAt_lt; [exact H6 | exact H7 | discriminate | lia].
Qed.

(** [success_needs_sections] on [doc_full]. *)
Lemma success_needs_sections_witness :
  exists i0 i2 i3 i4 l0,
    JS.splitLines doc_full !! i0 = Some l0 /\ JS.startsWith "NAME" l0 = true /\
    sectionAt (JS.splitLines doc_full) (i0 + 1) = Some "ROWS" /\
    sectionAt (JS.splitLines doc_full) i2 = Some "COLUMNS" /\
    sectionAt (JS.splitLines doc_full) i3 = Some "RHS" /\
    sectionAt (JS.splitLines doc_full) i4 = Some "ENDATA" /\
    i0 + 1 < i2 /\ i2 < i3 /\ i3 < i4.
Proof.
  apply (success_needs_sections doc_full minimize full_model).
  vm_compute. reflexivity.
Defined.

(** The line number of a thrown error is the number of a line of the
    document, or one more than the number of its last line. *)
Theorem thrown_line_in_document (mps : string) (direction : OptimizationDirection)
    (t : Thrown) :
  modelFromMps mps direction = Some (inl t) ->
  1 <= thrownLine t <= length (JS.splitLines mps) + 1.
Proof.
  unfold modelFromMps.
  destruct (readName _ _) as [[[s m'] [e|]]|] eqn:Hr; try discriminate.
  intros [= <-]. simpl.
  destruct (cursor_inv (JS.splitLines mps)
              (mkParseState (JS.splitLines mps) 0 ∅) _ _ _ _
              eq_refl (Nat.le_0_l _) Hr) as [_ Hi].
  lia.
Qed.

(** [thrown_line_in_document] on [doc_nonconsecutive], which has 12 lines
    and an empty one after them. *)
Lemma thrown_line_in_document_witness :
  1 <= 10 <= length (JS.splitLines doc_nonconsecutive) + 1.
Proof.
  apply (thrown_line_in_document doc_nonconsecutive minimize
           (mkThrown 10 (NonConsecutiveColumn "X"))).
  vm_compute. reflexivity.
Defined.

(* ===================================================================== *)
(** ** What one line does *)
(* ===================================================================== *)

(** A ROWS line that is accepted has one of the types L, G, E and N; it
    records the type of its row and starts its bound pair at (-Infinity, 0),
    (0, Infinity), (0, 0) or (-Infinity, Infinity), and it leaves the type
    and the pair of every other row as they were. *)
Theorem row_registered (s s1 : ParseState) (m m1 : Model) (l : string) :
  rowsLine s m l = inr (s1, m1) ->
  field2 l <> "" /\ constraintTypes s !! field2 l = None /\
  constraintTypes s1 !! field2 l = Some (field1 l) /\
  (field1 l = "L" /\ constraints m1 !! field2 l = Some (neg_infinity, 0%float) \/
   field1 l = "G" /\ constraints m1 !! field2 l = Some (0%float, infinity) \/
   field1 l = "E" /\ constraints m1 !! field2 l = Some (0%float, 0%float) \/
   field1 l = "N" /\ constraints m1 !! field2 l = Some (neg_infinity, infinity)) /\
  (forall row, row <> field2 l ->
     constraintTypes s1 !! row = constraintTypes s !! row /\
     constraints m1 !! row = constraints m !! row).
Proof.
  unfold rowsLine.
  destruct (String.eqb_spec (field2 l) "") as [|Hname]; [discriminate|].
  destruct (JS.has (constraintTypes s) (field2 l)) eqn:Hhas; [discriminate|].
  assert (constraintTypes s !! field2 l = None) as Hnone.
  { unfold JS.has in Hhas. destruct (_ !! _); [discriminate | reflexivity]. }
  destruct (String.eqb_spec (field1 l) "L") as [HL|_];
    [|destruct (String.eqb_spec (field1 l) "G") as [HG|_];
      [|destruct (String.eqb_spec (field1 l) "E") as [HE|_];
        [|destruct (String.eqb_spec (field1 l) "N") as [HN|_];
          [|destruct (String.eqb (field1 l) ""); discriminate]]]];
    intros [= <- <-]; simpl;
    (split; [exact Hname|]); (split; [exact Hnone|]);
    (split; [apply lookup_insert_eq|]);
    (split;
     [first [left; split; [assumption|]
            |right; left; split; [assumption|]
            |right; right; left; split; [assumption|]
            |right; right; right; split; [assumption|]];
      try (destruct (objective m)); simpl; apply lookup_insert_eq
     |intros row Hrow; try (destruct (objective m)); simpl;
      rewrite !lookup_insert_ne by congruence; auto]).
Qed.

(** [row_registered] on the first row of [doc_full]. *)
Lemma row_registered_witness :
  constraintTypes (full_state 3 {[ "COST" := "N" ]}) !! "COST" = Some "N" /\
  constraints
    (mkModel "full" minimize (Some "COST")
       {[ "COST" := (neg_infinity, infinity) ]} ∅ ∅ ∅ ∅) !! "COST"
  = Some (neg_infinity, infinity).
Proof.
  destruct (row_registered (full_state 3 ∅) (full_state 3 {[ "COST" := "N" ]})
              full_model_named
              (mkModel "full" minimize (Some "COST")
                 {[ "COST" := (neg_infinity, infinity) ]} ∅ ∅ ∅ ∅)
              full_row_COST) as (_ & _ & Htype & Hpair & _).
  - vm_compute. reflexivity.
  - split; [exact Htype|].
    destruct Hpair as [[Ht _]|[[Ht _]|[[Ht _]|[_ Hp]]]];
      [discriminate Ht .. | exact Hp].
Defined.

Lemma rowsLine_has (s s1 : ParseState) (m m1 : Model) (l : string) :
  rowsLine s m l = inr (s1, m1) ->
  field2 l <> "" /\ JS.has (constraintTypes s1) (field2 l) = true.
Proof.
  unfold rowsLine.
  destruct (String.eqb_spec (field2 l) "") as [|Hname]; [discriminate|].
  repeat case_match; simplify_eq; intros [= <- <-]; simpl;
    (split; [exact Hname|]); unfold JS.has; rewrite lookup_insert_eq; reflexivity.
Qed.

(** A coefficient that is accepted is stored under its row as the number
    its text parses to, the other rows of the column keep their values, and
    a second coefficient for the same row in the same column is refused
    with DuplicateCoefficient. *)
Theorem coefficient_once (s : ParseState) (variable variable' : gmap string float)
    (row value : string) :
  addCoefficient s variable row value = inr variable' ->
  variable' !! row = Some (JS.parseFloat value) /\
  JS.isNaN (JS.parseFloat value) = false /\
  (forall r, r <> row -> variable' !! r = variable !! r) /\
  (forall value', value' <> "" ->
     addCoefficient s variable' row value' = inl (DuplicateCoefficient row)).
Proof.
  intros H. apply addCoefficient_result in H as (Hrow & _ & Ht & _ & Hnan & ->).
  split; [apply lookup_insert_eq|]. split; [exact Hnan|]. split.
  - intros r Hr. apply lookup_insert_ne. congruence.
  - intros value' Hv. unfold addCoefficient.
    apply String.eqb_neq in Hrow, Hv. rewrite Hrow, Hv.
    apply has_true in Ht. rewrite Ht. simpl.
    unfold JS.has at 1. rewrite lookup_insert_eq. reflexivity.
Qed.

(** [coefficient_once] on row [COST] of column [X] of [doc_full]. *)
Lemma coefficient_once_witness :
  addCoefficient (full_state 9 full_types) {[ "COST" := 1%float ]} "COST" "2.0"
  = inl (DuplicateCoefficient "COST").
Proof.
  destruct (coefficient_once (full_state 9 full_types) ∅ {[ "COST" := 1%float ]}
              "COST" "1.0") as (_ & _ & _ & Hdup).
  - vm_compute. reflexivity.
  - apply Hdup. discriminate.
Defined.

Section RHS.

Lemma addConstraint_result (s : ParseState) (m m1 : Model) (row value : string) :
  addConstraint s m row value = inr m1 ->
  exists type,
    constraintTypes s !! row = Some type /\
    JS.isNaN (JS.parseFloat value) = false /\
    match constraints m !! row with
    | Some constraint =>
        let constraint1 :=
          if String.eqb type "L" || String.eqb type "E"
          then (fst constraint, JS.parseFloat value) else constraint in
        let constraint2 :=
          if String.eqb type "G" || String.eqb type "E"
          then (JS.parseFloat value, snd constraint1) else constraint1 in
        m1 = set_constraints (<[row := constraint2]> (constraints m)) m
    | None => m1 = m
    end.
Proof.
  unfold addConstraint.
  destruct (String.eqb row ""); [discriminate|].
  destruct (String.eqb value ""); [discriminate|].
  destruct (constraintTypes s !! row) as [type|]; [|discriminate].
  destruct (JS.isNaN (JS.parseFloat value)) eqn:Hnan; [discriminate|].
  intros H. exists type. split; [reflexivity|]. split; [reflexivity|].
  destruct (constraints m !! row); injection H as <-; reflexivity.
Qed.

End RHS.

(** An RHS entry that is accepted writes its value to the upper bound of
    a row of type L, to the lower bound of a row of type G and to both
    bounds of a row of type E; on a row of type N it changes nothing. The
    pairs of the other rows stay as they were. *)
Theorem rhs_sets_sides (s : ParseState) (m m1 : Model) (row value : string)
    (lower upper : float) :
  addConstraint s m row value = inr m1 ->
  constraints m !! row = Some (lower, upper) ->
  let x := JS.parseFloat value in
  (constraintTypes s !! row = Some "L" -> constraints m1 !! row = Some (lower, x)) /\
  (constraintTypes s !! row = Some "G" -> constraints m1 !! row = Some (x, upper)) /\
  (constraintTypes s !! row = Some "E" -> constraints m1 !! row = Some (x, x)) /\
  (constraintTypes s !! row = Some "N" ->
     constraints m1 !! row = Some (lower, upper)) /\
  (forall r, r <> row -> constraints m1 !! r = constraints m !! r).
Proof.
  intros H Hpair. apply addConstraint_result in H as (type & Ht & _ & H).
  rewrite Hpair in H. cbv zeta in H. subst m1. cbv zeta. simpl.
  repeat split; try (intros Ht'; rewrite Ht' in Ht; injection Ht as <-; simpl;
                     apply lookup_insert_eq).
  intros r Hr. rewrite lookup_insert_ne by congruence. reflexivity.
Qed.

(** [rhs_sets_sides] on row [CAP] of [doc_full], of type L. *)
Lemma rhs_sets_sides_witness :
  constraints full_model_rhs_CAP !! "CAP" = Some (neg_infinity, 8%float).
Proof.
  destruct (rhs_sets_sides (full_state 17 full_types) full_model_columns
              full_model_rhs_CAP "CAP" "8.0" neg_infinity 0%float)
    as (HL & _).
  - vm_compute. reflexivity.
  - vm_compute. reflexivity.
  - apply HL. vm_compute. reflexivity.
Defined.

(** Of two RHS entries for one row the second wins: after the first is
    accepted, the second gives what it would have given alone. *)
Theorem rhs_last_entry_wins (s : ParseState) (m m1 : Model)
    (row value value' : string) :
  addConstraint s m row value = inr m1 ->
  addConstraint s m1 row value' = addConstraint s m row value'.
Proof.
  intros H. apply addConstraint_result in H as (type & Ht & _ & H).
  unfold addConstraint. rewrite Ht.
  destruct (constraints m !! row) as [[lower upper]|] eqn:Hpair;
    [|subst m1; rewrite Hpair; reflexivity].
  cbv zeta in H. subst m1. simpl. rewrite lookup_insert_eq.
  destruct (String.eqb row ""); [reflexivity|].
  destruct (String.eqb value' ""); [reflexivity|].
  destruct (JS.isNaN (JS.parseFloat value')); [reflexivity|].
  f_equal. unfold set_constraints. simpl. f_equal.
  rewrite insert_insert_eq.
  destruct (String.eqb type "L" || String.eqb type "E");
    destruct (String.eqb type "G" || String.eqb type "E"); reflexivity.
Qed.

(** [rhs_last_entry_wins] on row [CAP] of [doc_full]: 8.0, then 9.0. *)
Lemma rhs_last_entry_wins_witness :
  addConstraint (full_state 17 full_types) full_model_rhs_CAP "CAP" "9.0"
  = addConstraint (full_state 17 full_types) full_model_columns "CAP" "9.0".
Proof.
  apply (rhs_last_entry_wins (full_state 17 full_types) full_model_columns
           full_model_rhs_CAP "CAP" "8.0" "9.0").
  vm_compute. reflexivity.
Defined.

(** A RANGES entry that is accepted moves the lower bound of a row of type
    L to the upper bound less the size of its value, and the upper bound of
    a row of type G to the lower bound plus that size, whatever the sign of
    the value; on a row of type N, and with value 0 on a row of type E, it
    changes nothing. *)
Theorem range_moves_one_side (s : ParseState) (m m1 : Model) (row value : string)
    (lower upper : float) :
  addRange s m row value = inr m1 ->
  constraints m !! row = Some (lower, upper) ->
  let r := PrimFloat.abs (JS.parseFloat value) in
  (constraintTypes s !! row = Some "L" ->
     constraints m1 !! row = Some (PrimFloat.sub upper r, upper)) /\
  (constraintTypes s !! row = Some "G" ->
     constraints m1 !! row = Some (lower, PrimFloat.add lower r)) /\
  (constraintTypes s !! row = Some "N" ->
     constraints m1 !! row = Some (lower, upper)) /\
  (constraintTypes s !! row = Some "E" ->
     PrimFloat.ltb (JS.parseFloat value) 0 = false ->
     PrimFloat.ltb 0 (JS.parseFloat value) = false ->
     constraints m1 !! row = Some (lower, upper)) /\
  (forall r', r' <> row -> constraints m1 !! r' = constraints m !! r').
Proof.
  unfold addRange.
  destruct (String.eqb row ""); [discriminate|].
  destruct (String.eqb value ""); [discriminate|].
  destruct (constraintTypes s !! row) as [type|]; [|discriminate].
  destruct (JS.isNaN (JS.parseFloat value)); [discriminate|].
  intros H Hpair. rewrite Hpair in H. injection H as <-. cbv zeta. simpl.
  split; [|split; [|split; [|split]]].
  - intros [= ->]. simpl. apply lookup_insert_eq.
  - intros [= ->]. simpl. apply lookup_insert_eq.
  - intros [= ->]. simpl. apply lookup_insert_eq.
  - intros [= ->] Hneg Hpos. simpl. rewrite Hneg, Hpos. apply lookup_insert_eq.
  - intros r' Hr. rewrite lookup_insert_ne by congruence. reflexivity.
Qed.

(** [range_moves_one_side] on row [CAP] of [doc_full]: of type L, with
    pair (-Infinity, 8) and range 3.0. *)
Lemma range_moves_one_side_witness :
  constraints
    (set_constraints (<[ "CAP" := (5%float, 8%float) ]> (constraints full_model_rhs))
       full_model_rhs) !! "CAP"
  = Some (5%float, 8%float).
Proof.
  destruct (range_moves_one_side (full_state 20 full_types) full_model_rhs
              (set_constraints
                 (<[ "CAP" := (5%float, 8%float) ]> (constraints full_model_rhs))
                 full_model_rhs)
              "CAP" "3.0" neg_infinity 8%float) as (HL & _).
  - vm_compute. reflexivity.
  - vm_compute. reflexivity.
  - apply HL. vm_compute. reflexivity.
Defined.

(** What each type of BOUNDS entry that is accepted leaves as the pair of
    its column, [x] being the number in field 4: LO (x, Infinity), UP
    (0, x), FX (x, x), FR (-Infinity, Infinity), MI (-Infinity, 0), PL
    (0, Infinity); LI and UI as LO and UP, with the column added to
    [integers]; BV no pair at all: [bounds] stays as it was and the column
    is added to [binaries]. *)
Theorem bound_types (m m1 : Model) (l : string) :
  boundsLine m l = inr m1 ->
  let col := field3 l in
  let x := JS.parseFloat (field4 l) in
  (field1 l = "LO" -> bounds m1 !! col = Some (x, infinity)) /\
  (field1 l = "UP" -> bounds m1 !! col = Some (0%float, x)) /\
  (field1 l = "FX" -> bounds m1 !! col = Some (x, x)) /\
  (field1 l = "FR" -> bounds m1 !! col = Some (neg_infinity, infinity)) /\
  (field1 l = "MI" -> bounds m1 !! col = Some (neg_infinity, 0%float)) /\
  (field1 l = "PL" -> bounds m1 !! col = Some (0%float, infinity)) /\
  (field1 l = "LI" ->
     bounds m1 !! col = Some (x, infinity) /\ col ∈ integers m1) /\
  (field1 l = "UI" ->
     bounds m1 !! col = Some (0%float, x) /\ col ∈ integers m1) /\
  (field1 l = "BV" -> bounds m1 = bounds m /\ col ∈ binaries m1).
Proof.
  intros H. cbv zeta.
  repeat match goal with |- _ /\ _ => split end;
    intros Ht; unfold boundsLine in H; rewrite Ht in H; simpl in H;
    repeat case_match; simplify_eq;
    repeat match goal with |- _ /\ _ => split end;
    try (apply setBounds_lookup; first [assumption | reflexivity]);
    try reflexivity;
    try (match goal with
         | |- _ ∈ integers (setBounds ?m0 ?c ?lo ?hi) =>
             destruct (setBounds_fields m0 c lo hi) as (_ & _ & _ & _ & _ & -> & _)
         end);
    simpl; set_solver.
Qed.

(** [bound_types] on the entry UP of column [X] of [doc_full]. *)
Lemma bound_types_witness :
  bounds (setBounds full_model_rhs "X" 0%float 4%float) !! "X"
  = Some (0%float, 4%float).
Proof.
  destruct (bound_types full_model_rhs (setBounds full_model_rhs "X" 0%float 4%float)
              full_bound_UP_X) as (_ & HUP & _).
  - vm_compute. reflexivity.
  - apply HUP. reflexivity.
Defined.

(* ===================================================================== *)
(** ** Lines and comments *)
(* ===================================================================== *)

Section Lines.

Lemma nextLineFrom_skipped (ls : list string) : forall i,
  match nextLineFrom ls i with
  | Some (j, l) =>
      forall k l', k < j - i -> ls !! k = Some l' -> JS.startsWith "*" l' = true
  | None =>
      forall k l', ls !! k = Some l' -> JS.startsWith "*" l' = true
  end.
Proof.
  induction ls as [|x ls IH]; intros i; simpl.
  - intros k l' Hk. rewrite lookup_nil in Hk. discriminate.
  - destruct (JS.startsWith "*" x) eqn:Hx; simpl.
    + specialize (IH (S i)).
      destruct (nextLineFrom ls (S i)) as [[j l]|] eqn:Hn.
      * apply nextLineFrom_spec in Hn as (Hle & _).
        intros [|k] l' Hk; simpl; [intros [= <-]; exact Hx|].
        apply IH. lia.
      * intros [|k] l'; simpl; [intros [= <-]; exact Hx | apply IH].
    + intros k l' Hk. lia.
Qed.

Lemma startsWith_char (a c : ascii) (t : string) :
  JS.startsWith (String a "") (String c t) = if ascii_dec a c then true else false.
Proof.
  unfold JS.startsWith. cbn [String.prefix].
  destruct (ascii_dec a c); [destruct t|]; reflexivity.
Qed.

Lemma split_lf (l rest : string) :
  plainLine l -> JS.splitLines (l +:+ LF +:+ rest) = l :: JS.splitLines rest.
Proof.
  induction l as [|c l IH]; intros [Hlf Hcr]; [reflexivity|].
  simpl in Hlf. apply orb_false_elim in Hlf as [Hc Hlf].
  change (String c l +:+ LF +:+ rest) with (String c (l +:+ LF +:+ rest)).
  cbn [JS.splitLines]. rewrite Hc.
  assert (Ascii.eqb c "013" && JS.startsWith (String "010" "") (l +:+ LF +:+ rest) = false) as ->.
  { destruct (Ascii.eqb_spec c "013") as [->|]; [|reflexivity].
    destruct l as [|c' l]; [contradiction Hcr; reflexivity|].
    simpl in Hlf. apply orb_false_elim in Hlf as [Hc' _].
    change (String c' l +:+ LF +:+ rest) with (String c' (l +:+ LF +:+ rest)).
    rewrite startsWith_char.
    destruct (ascii_dec "010" c') as [<-|]; [discriminate | reflexivity]. }
  rewrite IH; [reflexivity|]. split; [exact Hlf|].
  destruct l; [discriminate | exact Hcr].
Qed.

Lemma split_crlf (l rest : string) :
  hasLF l = false ->
  JS.splitLines (l +:+ CRLF +:+ rest) = l :: JS.splitLines rest.
Proof.
  induction l as [|c l IH]; intros Hlf.
  { change ("" +:+ CRLF +:+ rest) with (String "013" (String "010" rest)).
    cbn [JS.splitLines]. rewrite startsWith_char. reflexivity. }
  simpl in Hlf. apply orb_false_elim in Hlf as [Hc Hlf].
  change (String c l +:+ CRLF +:+ rest) with (String c (l +:+ CRLF +:+ rest)).
  cbn [JS.splitLines]. rewrite Hc.
  assert (Ascii.eqb c "013" && JS.startsWith (String "010" "") (l +:+ CRLF +:+ rest) = false) as ->.
  { destruct (Ascii.eqb_spec c "013") as [->|]; [|reflexivity].
    destruct l as [|c' l]; [reflexivity|].
    simpl in Hlf. apply orb_false_elim in Hlf as [Hc' _].
    change (String c' l +:+ CRLF +:+ rest) with (String c' (l +:+ CRLF +:+ rest)).
    rewrite startsWith_char.
    destruct (ascii_dec "010" c') as [<-|]; [discriminate | reflexivity]. }
  rewrite IH by exact Hlf. reflexivity.
Qed.

Lemma split_unlines (eol : string) (ls : list string) :
  (forall l rest, In l ls ->
     JS.splitLines (l +:+ eol +:+ rest) = l :: JS.splitLines rest) ->
  JS.splitLines (unlinesWith eol ls) = (ls ++ [""])%list.
Proof.
  induction ls as [|l ls IH]; intros H; [reflexivity|].
  simpl. rewrite H by (left; reflexivity). f_equal.
  apply IH. intros l' rest Hin. apply H. right. exact Hin.
Qed.

End Lines.

(** [nextLine] steps over comment lines and over nothing else: the line it
    returns is the first line after the current one that does not start
    with an asterisk, and it returns nothing only when every line after the
    current one is a comment; the state is then left as it was. *)
Theorem nextLine_first_after_comments (s s' : ParseState) (line : option string) :
  nextLine s = (s', line) ->
  match line with
  | Some l =>
      index s < index s' /\ lines s !! index s' = Some l /\
      JS.startsWith "*" l = false /\
      forall j l', index s < j < index s' -> lines s !! j = Some l' ->
                   JS.startsWith "*" l' = true
  | None =>
      s' = s /\
      forall j l', index s < j -> lines s !! j = Some l' ->
                   JS.startsWith "*" l' = true
  end.
Proof.
  intros H. pose proof (nextLine_spec _ _ _ H) as (_ & _ & Hspec).
  unfold nextLine in H.
  pose proof (nextLineFrom_skipped (drop (S (index s)) (lines s)) (S (index s)))
    as Hskip.
  destruct (nextLineFrom _ _) as [[i l0]|]; injection H as <- <-.
  - destruct Hspec as (Hlt & Hl & Hc). repeat split; try assumption.
    intros j l' Hj Hl'. simpl in Hj.
    apply (Hskip (j - S (index s)) l'); [lia|].
    rewrite lookup_drop. replace (S (index s) + (j - S (index s))) with j by lia.
    exact Hl'.
  - split; [reflexivity|]. intros j l' Hj Hl'.
    apply (Hskip (j - S (index s)) l').
    rewrite lookup_drop. replace (S (index s) + (j - S (index s))) with j by lia.
    exact Hl'.
Qed.

(** [nextLine_first_after_comments] on [doc_full] at its second marker,
    line 14: line 15 is a comment and line 16 is for column [Z]. *)
Lemma nextLine_first_after_comments_witness :
  13 < 15 /\
  JS.splitLines doc_full !! 15 = Some "    Z         OTHER     3.0            BAL       -1.0" /\
  JS.startsWith "*" "    Z         OTHER     3.0            BAL       -1.0" = false /\
  forall j l', 13 < j < 15 -> JS.splitLines doc_full !! j = Some l' ->
               JS.startsWith "*" l' = true.
Proof.
  apply (nextLine_first_after_comments (full_state 13 full_types)
           (full_state 15 full_types)
           (Some "    Z         OTHER     3.0            BAL       -1.0")).
  vm_compute. reflexivity.
Defined.

(** Splitting gives back the lines of a document, whether each is ended by
    a line feed or by a carriage return and a line feed (and then an empty
    last line); so the two documents are read alike. *)
Theorem line_endings_alike (ls : list string) (direction : OptimizationDirection) :
  Forall plainLine ls ->
  JS.splitLines (unlinesWith LF ls) = (ls ++ [""])%list /\
  JS.splitLines (unlinesWith CRLF ls) = (ls ++ [""])%list /\
  modelFromMps (unlinesWith CRLF ls) direction
    = modelFromMps (unlinesWith LF ls) direction.
Proof.
  intros Hplain. rewrite Forall_forall in Hplain.
  assert (JS.splitLines (unlinesWith LF ls) = (ls ++ [""])%list) as Hlf.
  { apply split_unlines. intros l rest Hin. apply split_lf, Hplain.
    apply list_elem_of_In, Hin. }
  assert (JS.splitLines (unlinesWith CRLF ls) = (ls ++ [""])%list) as Hcrlf.
  { apply split_unlines. intros l rest Hin. apply split_crlf, Hplain.
    apply list_elem_of_In, Hin. }
  repeat split; try assumption.
  unfold modelFromMps. rewrite Hlf, Hcrlf. reflexivity.
Qed.

(** [line_endings_alike] on the lines of [doc_minimal]. *)
Lemma line_endings_alike_witness :
  modelFromMps (unlinesWith CRLF minimal_lines) minimize
  = modelFromMps (unlinesWith LF minimal_lines) minimize.
Proof.
  refine (proj2 (proj2 (line_endings_alike minimal_lines minimize _))).
  repeat constructor; discriminate.
Defined.

(* ===================================================================== *)
(** * How far the parse gets *)
(* ===================================================================== *)

Section Reach.

Lemma between_forall (p : string -> bool) (ls : list string) (a b : nat) :
  forallb p (between ls a b) = true ->
  forall k l, a < k < b -> ls !! k = Some l -> p l = true.
Proof.
  intros Hall k l Hk Hl. rewrite forallb_forall in Hall. apply Hall.
  apply list_elem_of_In. apply (list_elem_of_lookup_2 _ (k - S a)).
  unfold between. rewrite lookup_take.
  destruct (decide (k - S a < b - S a)); [|lia].
  rewrite lookup_drop. rewrite <- Hl. f_equal. lia.
Qed.

Lemma body_data (l : string) :
  bodyLine l = true -> JS.startsWith "*" l = false -> JS.startsWith " " l = true.
Proof. unfold bodyLine. intros H Hc. rewrite Hc in H. exact H. Qed.

Lemma startsWith_first (a : ascii) (l : string) :
  JS.startsWith (String a "") l = true -> firstChar l = Some a.
Proof.
  destruct l as [|c l]; [discriminate|]. rewrite startsWith_char.
  destruct (ascii_dec a c) as [->|]; [reflexivity | discriminate].
Qed.

(** A line that starts with [a] does not read [h], a header that starts
    with another character. *)
Lemma header_first (l h : string) (a c : ascii) :
  JS.startsWith (String a "") l = true -> firstChar h = Some c -> a <> c ->
  JS.trimEnd l <> h.
Proof.
  intros Ha Hc Hne Heq. apply startsWith_first in Ha.
  rewrite <- Heq in Hc. apply trimEnd_first in Hc. congruence.
Qed.

Lemma thrownOrModel_eq (mps : string) (direction : OptimizationDirection) :
  modelFromMps mps direction =
  thrownOrModel (readName (mkParseState (JS.splitLines mps) 0 ∅)
                   (mkModel "" direction None ∅ ∅ ∅ ∅ ∅)).
Proof.
  unfold modelFromMps, thrownOrModel.
  destruct (readName _ _) as [[[s m] [e|]]|]; reflexivity.
Qed.

Lemma failsBefore_thrown (R : option Outcome) (n : nat) :
  failsBefore R n ->
  exists t, thrownOrModel R = Some (inl t) /\ thrownLine t <= n.
Proof.
  intros (s & m & e & -> & Hi). eexists. split; [reflexivity|]. simpl. lia.
Qed.

Lemma rowsLine_types_eq (s s1 : ParseState) (m m1 : Model) (l : string) :
  rowsLine s m l = inr (s1, m1) ->
  field2 l <> "" /\
  constraintTypes s1 = <[field2 l := field1 l]> (constraintTypes s).
Proof.
  unfold rowsLine.
  destruct (String.eqb_spec (field2 l) "") as [|Hname]; [discriminate|].
  repeat case_match; simplify_eq; intros [= <- <-]; simpl; auto.
Qed.

Lemma has_insert_keeps {V} (t : gmap string V) (k k' : string) (v : V) :
  JS.has t k = true -> JS.has (<[k' := v]> t) k = true.
Proof.
  rewrite !has_true. intros Hk.
  destruct (decide (k = k')) as [->|Hne];
    [rewrite lookup_insert_eq; eauto | rewrite lookup_insert_ne by congruence; exact Hk].
Qed.

Lemma has_insert_new {V} (t : gmap string V) (k k' : string) (v : V) :
  k <> k' -> JS.has (<[k' := v]> t) k = JS.has t k.
Proof. intros Hne. unfold JS.has. rewrite lookup_insert_ne by congruence. reflexivity. Qed.

Lemma has_insert_here {V} (t : gmap string V) (k : string) (v : V) :
  JS.has (<[k := v]> t) k = true.
Proof. unfold JS.has. rewrite lookup_insert_eq. reflexivity. Qed.

Variable ls : list string.
Variable n : nat.
Variable ln : string.
Hypothesis Hn : ls !! n = Some ln.
Hypothesis Hnc : JS.startsWith "*" ln = false.

(** Before line [n], which is no comment, [nextLine] finds a line, at
    line [n] or before it, and steps over comments alone. *)
Lemma nextLine_within (s : ParseState) :
  lines s = ls -> index s < n ->
  exists j l,
    nextLine s = (set_index j s, Some l) /\ index s < j <= n /\
    ls !! j = Some l /\ JS.startsWith "*" l = false /\
    (forall k lk, index s < k < j -> ls !! k = Some lk ->
                  JS.startsWith "*" lk = true).
Proof.
  intros Hl Hi. unfold nextLine. rewrite Hl.
  pose proof (nextLineFrom_skipped (drop (S (index s)) ls) (S (index s))) as Hskip.
  destruct (nextLineFrom _ _) as [[j l]|] eqn:Hnext.
  - apply nextLineFrom_spec in Hnext as (Hle & Hlook & Hc).
    rewrite lookup_drop in Hlook.
    replace (S (index s) + (j - S (index s))) with j in Hlook by lia.
    exists j, l. split; [reflexivity|].
    assert (Hjn : j <= n).
    { destruct (Nat.le_gt_cases j n) as [|Hgt]; [assumption|]. exfalso.
      specialize (Hskip (n - S (index s)) ln ltac:(lia)).
      rewrite lookup_drop in Hskip.
      replace (S (index s) + (n - S (index s))) with n in Hskip by lia.
      rewrite (Hskip Hn) in Hnc. discriminate. }
    split; [lia|]. split; [exact Hlook|]. split; [exact Hc|].
    intros k lk Hk Hlk. apply (Hskip (k - S (index s))); [lia|].
    rewrite lookup_drop. rewrite <- Hlk. f_equal. lia.
  - exfalso. specialize (Hskip (n - S (index s)) ln).
    rewrite lookup_drop in Hskip.
    replace (S (index s) + (n - S (index s))) with n in Hskip by lia.
    rewrite (Hskip Hn) in Hnc. discriminate.
Qed.

Lemma enough_within (fuel : nat) (s : ParseState) (l l' : string) (j : nat) :
  lines s = ls -> enough (S fuel) s (Some l) -> index s < j -> ls !! j = Some l' ->
  enough fuel (set_index j s) (Some l').
Proof.
  intros Hl [Hi Hf] Hj Hl'. apply lookup_lt_Some in Hl'.
  unfold enough. cbn [lines index set_index]. rewrite Hl in *. lia.
Qed.

Lemma enough_fuelFor (s : ParseState) (l : string) :
  lines s = ls -> ls !! index s = Some l -> enough (fuelFor s) s (Some l).
Proof.
  intros Hl Hlook. apply lookup_lt_Some in Hlook.
  unfold enough, fuelFor. rewrite Hl. lia.
Qed.

(** *** The ROWS section up to line [n] *)

Lemma readRowsLoop_reach (a : nat) :
  (forall k l, a < k < n -> ls !! k = Some l -> bodyLine l = true) ->
  forall fuel s m l,
    lines s = ls -> a < index s <= n -> ls !! index s = Some l ->
    JS.startsWith "*" l = false -> enough fuel s (Some l) ->
    rowsTyped ls (S a) (index s) s -> JS.has (constraintTypes s) "" = false ->
    failsBefore (readRowsLoop fuel s m (Some l)) n \/
    exists s' m' fuel',
      lines s' = ls /\ index s' = n /\ enough fuel' s' (Some ln) /\
      rowsTyped ls (S a) n s' /\ JS.has (constraintTypes s') "" = false /\
      variables m' = variables m /\
      readRowsLoop fuel s m (Some l) = readRowsLoop fuel' s' m' (Some ln).
Proof.
  intros Hbody.
  induction fuel as [|fuel IH]; intros s m l Hl Hi Hlook Hc He Htyped Hempty.
  { destruct He as [_ He]. lia. }
  destruct (decide (index s = n)) as [Heq|Hne].
  { right. exists s, m, (S fuel). rewrite Heq in *.
    assert (l = ln) as -> by congruence. auto 10. }
  assert (Hlt : index s < n) by lia.
  assert (Hdata : JS.startsWith " " l = true)
    by (apply body_data; [apply (Hbody (index s)); [lia | exact Hlook] | exact Hc]).
  cbn [readRowsLoop]. rewrite (dataLine_data _ Hdata).
  destruct (rowsLine s m l) as [e|[s1 m1]] eqn:Hrow.
  { left. exists s, m, e. auto. }
  pose proof (rowsLine_cursor _ _ _ _ _ Hrow) as [Hl1 Hi1].
  pose proof (rowsLine_types_eq _ _ _ _ _ Hrow) as [Hname Htypes].
  pose proof (rowsLine_fields _ _ _ _ _ Hrow) as (_ & _ & Hvars & _).
  destruct (nextLine_within s1) as (j & l2 & Hnext & Hj & Hl2 & Hc2 & Hskip);
    [congruence | lia |].
  rewrite Hnext.
  destruct (IH (set_index j s1) m1 l2) as [Hfail|Hreach].
  - cbn. congruence.
  - cbn. lia.
  - exact Hl2.
  - exact Hc2.
  - apply (enough_within fuel s1 l); [congruence | | lia | exact Hl2].
    unfold enough in *. rewrite Hl1, Hi1. exact He.
  - intros k lk Hk [Hlk Hdk]. cbn [index set_index] in Hk.
    cbn [constraintTypes set_index]. rewrite Htypes.
    destruct (Nat.lt_trichotomy k (index s)) as [Hlow|[->|Hhigh]].
    + apply has_insert_keeps. apply (Htyped k lk); [lia | split; assumption].
    + assert (lk = l) as -> by congruence. apply has_insert_here.
    + pose proof (data_not_comment _ Hdk) as Hno.
      rewrite (Hskip k lk) in Hno; [discriminate | lia | exact Hlk].
  - cbn [constraintTypes set_index]. rewrite Htypes.
    rewrite has_insert_new by congruence. exact Hempty.
  - left. exact Hfail.
  - right. destruct Hreach as (s' & m' & fuel' & H1 & H2 & H3 & H4 & H5 & H6 & H7).
    exists s', m', fuel'. rewrite H6, Hvars. auto 10.
Qed.

End Reach.

(** From the start of the parse to line [n] of the ROWS section. *)
Lemma readName_reach_rows (mps : string) (direction : OptimizationDirection)
    (i0 n : nat) (ln : string) :
  inRows (JS.splitLines mps) i0 n ->
  JS.splitLines mps !! n = Some ln -> JS.startsWith "*" ln = false ->
  let R := readName (mkParseState (JS.splitLines mps) 0 ∅)
             (mkModel "" direction None ∅ ∅ ∅ ∅ ∅) in
  failsBefore R n \/
  exists s' m' fuel',
    lines s' = JS.splitLines mps /\ index s' = n /\ enough fuel' s' (Some ln) /\
    rowsTyped (JS.splitLines mps) (i0 + 2) n s' /\
    JS.has (constraintTypes s') "" = false /\ variables m' = ∅ /\
    R = readRowsLoop fuel' s' m' (Some ln).
Proof.
  intros (Hname & Hrows & Hlt & Hbody) Hn Hnc R. subst R.
  set (ls := JS.splitLines mps) in *.
  unfold readName. cbn [lines]. fold ls. rewrite Hname.
  unfold readRows, expectSection. rewrite readSection_sectionAt.
  cbn [lines index set_index]. fold ls. rewrite Hrows. cbn [String.eqb Ascii.eqb Bool.eqb].
  set (s0 := set_index (i0 + 1) (mkParseState ls 0 ∅)).
  destruct (nextLine_within ls n ln Hn Hnc s0) as (j & l & Hnext & Hj & Hl & Hc & Hskip);
    [reflexivity | cbn; lia |].
  rewrite Hnext. cbn [index set_index s0] in Hj.
  set (m0 := set_name _ _).
  destruct (readRowsLoop_reach ls n ln Hn Hnc (i0 + 1)
              (between_forall _ _ _ _ Hbody)
              (fuelFor s0) (set_index j s0) m0 l) as [Hfail|Hreach].
  - reflexivity.
  - cbn. lia.
  - exact Hl.
  - exact Hc.
  - change (fuelFor s0) with (fuelFor (set_index j s0)).
    apply (enough_fuelFor ls); [reflexivity | exact Hl].
  - intros k lk Hk [Hlk Hdk]. cbn [index set_index] in Hk.
    pose proof (data_not_comment _ Hdk) as Hno.
    rewrite (Hskip k lk) in Hno; [discriminate | cbn; lia | exact Hlk].
  - reflexivity.
  - left. exact Hfail.
  - right. destruct Hreach as (s' & m' & fuel' & H1 & H2 & H3 & H4 & H5 & H6 & H7).
    exists s', m', fuel'.
    replace (i0 + 2) with (S (i0 + 1)) by lia. auto 10.
Qed.



(** *** The COLUMNS section up to line [n] *)

Section ReachColumns.

Variable ls : list string.
Variable n : nat.
Variable ln : string.
Hypothesis Hn : ls !! n = Some ln.
Hypothesis Hnc : JS.startsWith "*" ln = false.
Variable c : nat.
Hypothesis Hbody : forall k l, c < k < n -> ls !! k = Some l -> bodyLine l = true.

Lemma commit_variables (m : Model) (name : string) (variable : gmap string float)
    (integerMarked : bool) :
  variables (let m1 := set_variables (<[name := variable]> (variables m)) m in
             if integerMarked then integers_add name m1 else m1)
  = <[name := variable]> (variables m).
Proof. destruct integerMarked; reflexivity. Qed.

(** The lines of one column, from a line before line [n]: the block fails
    before line [n], or ends on a line up to [n], or takes line [n] as a
    line of the column. *)
Lemma columnBlock_reach (name : string) :
  forall fuelB s variable l,
    lines s = ls -> c < index s < n -> ls !! index s = Some l ->
    enough fuelB s (Some l) -> field2 l = name ->
    (exists s1 e,
       columnBlock fuelB s variable name l = Some (s1, inl e) /\ index s1 < n) \/
    (exists s1 variable1 l1,
       columnBlock fuelB s variable name l = Some (s1, inr (variable1, Some l1)) /\
       lines s1 = ls /\ index s < index s1 <= n /\
       ls !! index s1 = Some l1 /\ JS.startsWith "*" l1 = false /\
       (forall k lk, index s <= k < index s1 -> dataAt ls k lk -> field2 lk = name)) \/
    (exists s' variable' fuelB',
       lines s' = ls /\ index s' = n /\ enough fuelB' s' (Some ln) /\
       JS.startsWith " " ln = true /\ field2 ln = name /\
       (forall k lk, index s <= k < n -> dataAt ls k lk -> field2 lk = name) /\
       columnBlock fuelB s variable name l = columnBlock fuelB' s' variable' name ln).
Proof.
  induction fuelB as [|fuelB IH]; intros s variable l Hl Hi Hlook He Hname.
  { destruct He as [_ He]. lia. }
  cbn [columnBlock].
  destruct (columnLine s variable l) as [e|variable1].
  { left. exists s, e. split; [reflexivity | lia]. }
  destruct (nextLine_within ls n ln Hn Hnc s) as (j & l1 & Hnext & Hj & Hl1 & Hc1 & Hskip);
    [exact Hl | lia |].
  rewrite Hnext.
  assert (Hrange : forall k lk, index s <= k < j -> dataAt ls k lk -> field2 lk = name).
  { intros k lk Hk [Hlk Hdk].
    destruct (decide (k = index s)) as [->|Hne]; [congruence|].
    pose proof (data_not_comment _ Hdk) as Hno.
    rewrite (Hskip k lk) in Hno; [discriminate | lia | exact Hlk]. }
  destruct (JS.startsWith " " l1) eqn:Hd1.
  2: { rewrite (dataLine_section_end _ Hd1).
       right. left. exists (set_index j s), variable1, l1.
       split; [reflexivity|]. cbn [lines index set_index]. auto 10. }
  rewrite (dataLine_data _ Hd1).
  destruct (String.eqb_spec (field2 l1) name) as [Hsame|Hother].
  2: { right. left. exists (set_index j s), variable1, l1.
       split; [reflexivity|]. cbn [lines index set_index]. auto 10. }
  assert (He1 : enough fuelB (set_index j s) (Some l1))
    by (apply (enough_within ls fuelB s l); [exact Hl | exact He | lia | exact Hl1]).
  destruct (decide (j = n)) as [->|Hjn].
  { right. right. exists (set_index n s), variable1, fuelB.
    assert (l1 = ln) as -> by congruence.
    cbn [lines index set_index]. auto 10. }
  destruct (IH (set_index j s) variable1 l1) as [H1|[H2|H3]];
    [exact Hl | cbn; lia | exact Hl1 | exact He1 | exact Hsame | | |].
  - left. destruct H1 as (s1 & e & H & Hlt). exists s1, e. auto.
  - right. left.
    destruct H2 as (s1 & v & l2 & H & Hls & Hidx & Hl2 & Hc2 & Hr).
    cbn [index set_index] in Hidx, Hr.
    exists s1, v, l2. split; [exact H|]. split; [exact Hls|]. split; [lia|].
    split; [exact Hl2|]. split; [exact Hc2|].
    intros k lk Hk Hdk. destruct (Nat.lt_ge_cases k j);
      [apply (Hrange k lk); [lia | exact Hdk] | apply (Hr k lk); [lia | exact Hdk]].
  - right. right.
    destruct H3 as (s' & v & f & Hls & Hidx & Hen & Hd & Hf2 & Hr & H).
    cbn [index set_index] in Hr.
    exists s', v, f. split; [exact Hls|]. split; [exact Hidx|]. split; [exact Hen|].
    split; [exact Hd|]. split; [exact Hf2|]. split; [|exact H].
    intros k lk Hk Hdk. destruct (Nat.lt_ge_cases k j);
      [apply (Hrange k lk); [lia | exact Hdk] | apply (Hr k lk); [lia | exact Hdk]].
Qed.

(** The loop of [readColumns] from a line up to line [n]: it fails before
    line [n], or comes to line [n] at the head of the loop, or in the lines
    of a column that started before. *)
Lemma readColumnsLoop_reach :
  forall fuel s m integerMarked l,
    lines s = ls -> c < index s <= n -> ls !! index s = Some l ->
    JS.startsWith "*" l = false -> enough fuel s (Some l) ->
    columnsStored ls (S c) (index s) m -> JS.has (variables m) "" = false ->
    let R := readColumnsLoop fuel s m integerMarked (Some l) in
    failsBefore R n \/
    (exists s' m' im' fuel',
       lines s' = ls /\ index s' = n /\ enough fuel' s' (Some ln) /\
       columnsStored ls (S c) n m' /\ JS.has (variables m') "" = false /\
       R = readColumnsLoop fuel' s' m' im' (Some ln)) \/
    (exists s' m' im' fuel' fuelB variable name k0,
       lines s' = ls /\ index s' = n /\ enough fuelB s' (Some ln) /\
       c < k0 < n /\ JS.startsWith " " ln = true /\ field2 ln = name /\
       name <> "" /\ JS.has (variables m') name = false /\
       columnsStored ls (S c) k0 m' /\ JS.has (variables m') "" = false /\
       (forall k lk, k0 <= k < n -> dataAt ls k lk -> field2 lk = name) /\
       R = columnFrom fuel' fuelB s' m' im' variable name ln).
Proof.
  induction fuel as [|fuel IH]; intros s m im l Hl Hi Hlook Hc He Hstored Hempty R;
    subst R.
  { destruct He as [_ He]. lia. }
  destruct (decide (index s = n)) as [Heq|Hne].
  { right. left. exists s, m, im, (S fuel). rewrite Heq in *.
    assert (l = ln) as -> by congruence. auto 10. }
  assert (Hlt : index s < n) by lia.
  assert (Hdata : JS.startsWith " " l = true)
    by (apply body_data; [apply (Hbody (index s)); [lia | exact Hlook] | exact Hc]).
  assert (Hmarker : forall m1 im1,
            field3 l = "'MARKER'" -> columnsStored ls (S c) (index s) m1 ->
            JS.has (variables m1) "" = false ->
            forall j l1, index s < j <= n -> ls !! j = Some l1 ->
              JS.startsWith "*" l1 = false ->
              (forall k lk, index s < k < j -> ls !! k = Some lk ->
                            JS.startsWith "*" lk = true) ->
              let R := readColumnsLoop fuel (set_index j s) m1 im1 (Some l1) in
              failsBefore R n \/
              (exists s' m' im' fuel',
                 lines s' = ls /\ index s' = n /\ enough fuel' s' (Some ln) /\
                 columnsStored ls (S c) n m' /\ JS.has (variables m') "" = false /\
                 R = readColumnsLoop fuel' s' m' im' (Some ln)) \/
              (exists s' m' im' fuel' fuelB variable name k0,
                 lines s' = ls /\ index s' = n /\ enough fuelB s' (Some ln) /\
                 c < k0 < n /\ JS.startsWith " " ln = true /\ field2 ln = name /\
                 name <> "" /\ JS.has (variables m') name = false /\
                 columnsStored ls (S c) k0 m' /\ JS.has (variables m') "" = false /\
                 (forall k lk, k0 <= k < n -> dataAt ls k lk -> field2 lk = name) /\
                 R = columnFrom fuel' fuelB s' m' im' variable name ln)).
  { intros m1 im1 Hm Hst Hem j l1 Hj Hl1 Hc1 Hskip.
    apply IH; [exact Hl | cbn; lia | exact Hl1 | exact Hc1 | | | exact Hem].
    - apply (enough_within ls fuel s l); [exact Hl | exact He | lia | exact Hl1].
    - intros k lk Hk [Hlk Hdk] Hnm. cbn [index set_index] in Hk.
      destruct (Nat.lt_trichotomy k (index s)) as [Hlow|[->|Hhigh]].
      + apply (Hst k lk); [lia | split; assumption | exact Hnm].
      + assert (lk = l) as -> by congruence. contradiction.
      + pose proof (data_not_comment _ Hdk) as Hno.
        rewrite (Hskip k lk) in Hno; [discriminate | lia | exact Hlk]. }
  cbn [readColumnsLoop]. rewrite (dataLine_data _ Hdata).
  destruct (String.eqb_spec (field3 l) "'MARKER'") as [Hm|Hm].
  { destruct (String.eqb (field4 l) "'INTORG'");
      [|destruct (String.eqb (field4 l) "'INTEND'");
        [|left; exists s, m, (UnknownMarker (field4 l)); auto]];
      destruct (nextLine_within ls n ln Hn Hnc s)
        as (j & l1 & Hnext & Hj & Hl1 & Hc1 & Hskip); try assumption;
      rewrite Hnext; apply Hmarker; assumption. }
  destruct (String.eqb_spec (field2 l) "") as [Hname|Hname].
  { left. exists s, m, MissingColumnName. auto. }
  destruct (JS.has (variables m) (field2 l)) eqn:Hhas.
  { left. exists s, m, (NonConsecutiveColumn (field2 l)). auto. }
  destruct (columnBlock_reach (field2 l) (fuelFor s) s ∅ l)
    as [(s1 & e & Hb & Hlt1)|[(s1 & v & l1 & Hb & Hls & Hidx & Hl1 & Hc1 & Hr)
       |(s' & v & f & Hls & Hidx & Hen & Hd & Hf2 & Hr & Hb)]];
    [exact Hl | lia | exact Hlook | apply (enough_fuelFor ls); assumption | reflexivity
    | | |].
  - rewrite Hb. left. exists s1, m, e. auto.
  - rewrite Hb.
    set (m2 := let m1 := set_variables (<[field2 l := v]> (variables m)) m in
               if im then integers_add (field2 l) m1 else m1).
    assert (Hv2 : variables m2 = <[field2 l := v]> (variables m))
      by apply commit_variables.
    destruct (IH s1 m2 im l1) as [H1|[H2|H3]];
      [exact Hls | lia | exact Hl1 | exact Hc1 | | | | auto | auto | auto].
    + destruct He as [He1 He2]. apply lookup_lt_Some in Hl1.
      unfold enough. rewrite Hls. rewrite Hl in *. lia.
    + intros k lk Hk Hdk Hnm. rewrite Hv2.
      destruct (Nat.lt_ge_cases k (index s)) as [Hlow|Hhigh].
      * apply has_insert_keeps. apply (Hstored k lk); [lia | exact Hdk | exact Hnm].
      * rewrite (Hr k lk); [apply has_insert_here | lia | exact Hdk].
    + rewrite Hv2, has_insert_new by congruence. exact Hempty.
  - right. right. exists s', m, im, fuel, f, v, (field2 l), (index s).
    unfold columnFrom. rewrite <- Hb.
    split; [exact Hls|]. split; [exact Hidx|]. split; [exact Hen|].
    split; [lia|]. split; [exact Hd|]. split; [exact Hf2|]. split; [exact Hname|].
    split; [exact Hhas|]. split; [exact Hstored|]. split; [exact Hempty|].
    split; [exact Hr | reflexivity].
Qed.

End ReachColumns.

Lemma header_line (ls : list string) (c : nat) (h : string) (a : ascii) :
  sectionAt ls c = Some h -> firstChar h = Some a -> a <> "*"%char -> a <> " "%char ->
  exists lc, ls !! c = Some lc /\ JS.trimEnd lc = h /\
             JS.startsWith "*" lc = false /\ JS.startsWith " " lc = false.
Proof.
  unfold sectionAt. destruct (ls !! c) as [lc|]; [|discriminate].
  intros [= Hh] Ha H1 H2. exists lc. split; [reflexivity|]. split; [exact Hh|].
  split.
  - destruct (JS.startsWith "*" lc) eqn:Hs; [|reflexivity].
    exfalso. apply (header_first lc h "*" a Hs Ha); [congruence | exact Hh].
  - destruct (JS.startsWith " " lc) eqn:Hs; [|reflexivity].
    exfalso. apply (header_first lc h " " a Hs Ha); [congruence | exact Hh].
Qed.

Lemma failsBefore_le (R : option Outcome) (a b : nat) :
  a <= b -> failsBefore R a -> failsBefore R b.
Proof. intros Hle (s & m & e & H & Hi). exists s, m, e. split; [exact H | lia]. Qed.

(** From the start of the parse to line [n] of the COLUMNS section. *)
Lemma readName_reach_columns (mps : string) (direction : OptimizationDirection)
    (i0 c n : nat) (ln : string) :
  inColumns (JS.splitLines mps) i0 c n ->
  JS.splitLines mps !! n = Some ln -> JS.startsWith "*" ln = false ->
  let ls := JS.splitLines mps in
  let R := readName (mkParseState (JS.splitLines mps) 0 ∅)
             (mkModel "" direction None ∅ ∅ ∅ ∅ ∅) in
  failsBefore R n \/
  (exists s' m' im' fuel',
     lines s' = ls /\ index s' = n /\ enough fuel' s' (Some ln) /\
     columnsStored ls (S c) n m' /\ JS.has (variables m') "" = false /\
     R = readColumnsLoop fuel' s' m' im' (Some ln)) \/
  (exists s' m' im' fuel' fuelB variable name k0,
     lines s' = ls /\ index s' = n /\ enough fuelB s' (Some ln) /\
     c < k0 < n /\ JS.startsWith " " ln = true /\ field2 ln = name /\
     name <> "" /\ JS.has (variables m') name = false /\
     columnsStored ls (S c) k0 m' /\ JS.has (variables m') "" = false /\
     (forall k lk, k0 <= k < n -> dataAt ls k lk -> field2 lk = name) /\
     R = columnFrom fuel' fuelB s' m' im' variable name ln).
Proof.
  intros (Hrows & Hcols & Hcn & Hbody) Hn Hnc ls R. subst R ls.
  pose (ls := JS.splitLines mps).
  destruct (header_line ls c "COLUMNS" "C" Hcols eq_refl)
    as (lc & Hlc & Htrim & Hc1 & Hc2); [discriminate | discriminate |].
  destruct (readName_reach_rows mps direction i0 c lc Hrows Hlc Hc1)
    as [Hfail|(s1 & m1 & fuel1 & Hls & Hi & He & _ & _ & Hvars & ->)].
  { left. apply (failsBefore_le _ c n); [lia | exact Hfail]. }
  destruct fuel1 as [|fuel1]; [destruct He; lia|].
  cbn [readRowsLoop]. rewrite (dataLine_section_end _ Hc2).
  unfold readColumns, expectSection. rewrite readSection_sectionAt, Hls, Hi, Hcols.
  cbn [String.eqb Ascii.eqb Bool.eqb].
  destruct (nextLine_within ls n ln Hn Hnc s1)
    as (j & l & Hnext & Hj & Hl & Hc & Hskip); [exact Hls | lia |].
  rewrite Hnext.
  apply (readColumnsLoop_reach ls n ln Hn Hnc c (between_forall _ _ _ _ Hbody)).
  - exact Hls.
  - cbn. lia.
  - exact Hl.
  - exact Hc.
  - change (fuelFor s1) with (fuelFor (set_index j s1)).
    apply (enough_fuelFor ls); [exact Hls | exact Hl].
  - intros k lk Hk [Hlk Hdk] _. cbn [index set_index] in Hk.
    pose proof (data_not_comment _ Hdk) as Hno.
    rewrite (Hskip k lk) in Hno; [discriminate | lia | exact Hlk].
  - rewrite Hvars. reflexivity.
Qed.




(** *** A line of the COLUMNS section and what follows it *)

Lemma readColumnsLoop_keeps_column (X : string) (variable : gmap string float)
    (fuel : nat) (s s' : ParseState) (m m' : Model) (integerMarked : bool)
    (line : option string) (e : option Error) :
  variables m !! X = Some variable ->
  readColumnsLoop fuel s m integerMarked line = Some (s', m', e) ->
  variables m' !! X = Some variable.
Proof.
  apply (readColumnsLoop_inv (fun _ m => variables m !! X = Some variable)
           (fun _ _ => True)); auto.
  - intros ? ? name v [] H _ Hhas; simpl;
      (rewrite lookup_insert_ne; [exact H|]);
      intros ->; unfold JS.has in Hhas; rewrite H in Hhas; discriminate.
  - intros ? ? ? ? ? H;
      destruct (addConstraint_fields _ _ _ _ _ H) as (? & ? & ? & ? & ? & ? & ?);
      congruence.
  - intros ? ? ? ? ? H;
      destruct (addRange_fields _ _ _ _ _ H) as (? & ? & ? & ? & ? & ? & ?);
      congruence.
  - intros ? ? ? ? H;
      destruct (boundsLine_fields _ _ _ H) as (? & ? & ? & ? & ? & ? & ?);
      congruence.
Qed.

Lemma readColumnsLoop_onward (N fuel : nat) (s s' : ParseState) (m m' : Model)
    (integerMarked : bool) (line : option string) (e : option Error) :
  N <= index s ->
  readColumnsLoop fuel s m integerMarked line = Some (s', m', e) ->
  N <= index s'.
Proof.
  apply (readColumnsLoop_inv (fun s _ => N <= index s) (fun _ _ => True)); auto.
  intros s0 m0 s1 line1 Hnext Hle. apply nextLine_mono in Hnext as [_ Hi]. lia.
Qed.

Lemma addCoefficient_keeps (s : ParseState) (variable variable' : gmap string float)
    (row value : string) :
  addCoefficient s variable row value = inr variable' ->
  forall r x, variable !! r = Some x -> variable' !! r = Some x.
Proof.
  intros H r x Hr.
  apply addCoefficient_result in H as (_ & _ & _ & Hnone & _ & ->).
  rewrite lookup_insert_ne; [exact Hr | congruence].
Qed.

Lemma columnBlock_keeps (r0 : string) (x0 : float) (fuelB : nat)
    (s s' : ParseState) (variable variable' : gmap string float)
    (name l : string) (line' : option string) :
  variable !! r0 = Some x0 ->
  columnBlock fuelB s variable name l = Some (s', inr (variable', line')) ->
  variable' !! r0 = Some x0.
Proof.
  intros Hv Hb.
  assert (Hinv : (forall m : Model, True -> True) /\ variable' !! r0 = Some x0).
  { refine (columnBlock_inv (fun _ _ => True) (fun _ v => v !! r0 = Some x0)
              _ _ _ fuelB s variable name l s' _ Hv Hb).
    - auto.
    - auto.
    - intros ? ? ? ? ? H Hq. exact (addCoefficient_keeps _ _ _ _ _ H _ _ Hq). }
  exact (proj2 Hinv).
Qed.

Lemma columnFrom_refused (fuel fuelB : nat) (s : ParseState) (m : Model)
    (integerMarked : bool) (variable : gmap string float) (name l : string)
    (e : Error) :
  columnLine s variable l = inl e ->
  columnFrom fuel (S fuelB) s m integerMarked variable name l = Some (s, m, Some e).
Proof.
  intros H. unfold columnFrom. cbn [columnBlock]. rewrite H. reflexivity.
Qed.

(** After a line of a column that is accepted: an error that follows is
    raised on a later line, or it is the missing RHS header when no line
    follows; and when the parse ends without error, the column is in the
    model with the coefficients of the line. *)
Lemma columnFrom_passed (fuel fuelB : nat) (s s_f : ParseState) (m m_f : Model)
    (integerMarked : bool) (variable variable1 : gmap string float)
    (name l : string) (e_f : option Error) :
  columnLine s variable l = inr variable1 ->
  lines s !! index s = Some l -> JS.startsWith " " l = true ->
  columnFrom fuel (S fuelB) s m integerMarked variable name l
    = Some (s_f, m_f, e_f) ->
  (forall e, e_f = Some e ->
     index s < index s_f \/ e = sectionErr "RHS" (Some (JS.trimEnd l))) /\
  (e_f = None ->
     exists variable', variables m_f !! name = Some variable' /\
       forall r x, variable1 !! r = Some x -> variable' !! r = Some x).
Proof.
  intros Hcol Hlook Hdata. unfold columnFrom. cbn [columnBlock]. rewrite Hcol.
  destruct (nextLine s) as [s1 line1] eqn:Hnext.
  apply nextLine_spec in Hnext as (Hl & _ & Hline).
  assert (Hgen : forall s2 variable' line',
            index s < index s2 ->
            (forall r x, variable1 !! r = Some x -> variable' !! r = Some x) ->
            readColumnsLoop fuel s2
              (let m1 := set_variables (<[name := variable']> (variables m)) m in
               if integerMarked then integers_add name m1 else m1)
              integerMarked line' = Some (s_f, m_f, e_f) ->
            (forall e, e_f = Some e ->
               index s < index s_f \/ e = sectionErr "RHS" (Some (JS.trimEnd l))) /\
            (e_f = None ->
               exists variable', variables m_f !! name = Some variable' /\
                 forall r x, variable1 !! r = Some x -> variable' !! r = Some x)).
  { intros s2 v' line' Hi Hv Hrun. split.
    - intros e _. left.
      pose proof (readColumnsLoop_onward (index s2) _ _ _ _ _ _ _ _
                    (Nat.le_refl _) Hrun). lia.
    - intros _. exists v'. split; [|exact Hv].
      apply (readColumnsLoop_keeps_column name v' _ _ _ _ _ _ _ _) in Hrun;
        [exact Hrun|].
      rewrite commit_variables. apply lookup_insert_eq. }
  destruct line1 as [l1|].
  - destruct Hline as (Hlt & _ & _).
    destruct (dataLine (Some l1)) as [l'|];
      [destruct (String.eqb (field2 l') name)|].
    + destruct (columnBlock fuelB s1 variable1 name l')
        as [[s2 [err|[v' line']]]|] eqn:Hb; [| |discriminate].
      * apply columnBlock_mono in Hb as [_ Hi].
        intros [= <- <- <-]. split; [intros e _; left; lia | discriminate].
      * pose proof (columnBlock_mono _ _ _ _ _ _ _ Hb) as [_ Hi].
        apply Hgen; [lia|].
        intros r x Hr. exact (columnBlock_keeps r x _ _ _ _ _ _ _ _ Hr Hb).
    + apply Hgen; [lia | auto].
    + apply Hgen; [lia | auto].
  - subst s1. change (dataLine None) with (@None string).
    destruct fuel as [|fuel]; [discriminate|].
    cbn [readColumnsLoop]. change (dataLine None) with (@None string).
    unfold readRHS, expectSection, readSection. rewrite Hlook. cbn [option_map].
    destruct (String.eqb_spec (JS.trimEnd l) "RHS") as [Heq|Hne].
    { exfalso. exact (header_first l "RHS" " " "R" Hdata eq_refl ltac:(discriminate) Heq). }
    intros [= <- <- <-]. split; [|discriminate].
    intros e [= <-]. right. reflexivity.
Qed.

(** The first pair of a line whose fields 3 and 4 are filled in with a
    number: it is accepted, or its row is undefined or repeated. *)
Lemma first_pair_outcome (s : ParseState) (variable : gmap string float)
    (l : string) :
  field3 l <> "" -> field4 l <> "" -> JS.isNaN (JS.parseFloat (field4 l)) = false ->
  addCoefficient s variable (field3 l) (field4 l) = inl (UndefinedRow (field3 l)) \/
  addCoefficient s variable (field3 l) (field4 l)
    = inl (DuplicateCoefficient (field3 l)) \/
  exists variable1, addCoefficient s variable (field3 l) (field4 l) = inr variable1.
Proof.
  intros H3 H4 Hnum. unfold addCoefficient.
  apply String.eqb_neq in H3, H4. rewrite H3, H4, Hnum.
  destruct (JS.has (constraintTypes s) (field3 l)); cbn [negb]; [|auto].
  destruct (JS.has variable (field3 l)); eauto.
Qed.

(** The rest of the parse from a line of the COLUMNS section, as far as
    the second pair of the line goes. *)
Lemma columnFrom_second_pair (fuel fuelB : nat) (s : ParseState) (m : Model)
    (integerMarked : bool) (variable : gmap string float) (l : string)
    (n : nat) (out : Thrown + Model) :
  index s = n -> lines s !! index s = Some l -> JS.startsWith " " l = true ->
  field3 l <> "" -> field4 l <> "" -> JS.isNaN (JS.parseFloat (field4 l)) = false ->
  thrownOrModel (columnFrom fuel (S fuelB) s m integerMarked variable (field2 l) l)
    = Some out ->
  secondPairOutcome l n out.
Proof.
  intros Hi Hlook Hdata H3 H4 Hnum Hout.
  assert (Hrefused : forall e,
            columnLine s variable l = inl e ->
            out = inl (mkThrown (n + 1) e)).
  { intros e He. rewrite (columnFrom_refused _ _ _ _ _ _ _ _ _ He) in Hout.
    cbn in Hout. injection Hout as <-. rewrite Hi. reflexivity. }
  destruct (first_pair_outcome s variable l H3 H4 Hnum) as [H1|[H1|[variable1 H1]]].
  - assert (He : columnLine s variable l = inl (UndefinedRow (field3 l)))
      by (unfold columnLine; rewrite H1; reflexivity).
    apply Hrefused in He. subst out. unfold secondPairOutcome, firstPairRefused.
    repeat split; try discriminate; intros; right; left; eexists;
      (split; [reflexivity | cbn; auto]).
  - assert (He : columnLine s variable l = inl (DuplicateCoefficient (field3 l)))
      by (unfold columnLine; rewrite H1; reflexivity).
    apply Hrefused in He. subst out. unfold secondPairOutcome, firstPairRefused.
    repeat split; try discriminate; intros; right; left; eexists;
      (split; [reflexivity | cbn; auto]).
  - destruct (columnLine_second_pair s variable variable1 l H1)
      as (Hnone & Hsome & Hrow & Hvalue).
    unfold secondPairOutcome.
    split; [|split; [|split]].
    + intros H5 H6 ->.
      specialize (Hnone (conj H5 H6)).
      destruct (columnFrom fuel (S fuelB) s m integerMarked variable (field2 l) l)
        as [[[s_f m_f] e_f]|] eqn:Hrun; [|discriminate].
      destruct (columnFrom_passed _ _ _ _ _ _ _ _ _ _ _ _ Hnone Hlook Hdata Hrun)
        as [Herr _].
      destruct e_f as [e|]; [|discriminate].
      cbn in Hout. injection Hout as Hline He. subst e.
      destruct (Herr _ eq_refl) as [Hlt|Hsec]; [lia | discriminate].
    + intros H5 H6 m' ->.
      destruct (columnFrom fuel (S fuelB) s m integerMarked variable (field2 l) l)
        as [[[s_f m_f] e_f]|] eqn:Hrun; [|discriminate].
      destruct e_f as [e|]; [discriminate|].
      cbn in Hout. injection Hout as <-.
      destruct (columnLine s variable l) as [e2|variable2] eqn:Hcol.
      { rewrite (columnFrom_refused _ _ _ _ _ _ _ _ _ Hcol) in Hrun. discriminate. }
      destruct (columnFrom_passed _ _ _ _ _ _ _ _ _ _ _ _ Hcol Hlook Hdata Hrun)
        as [_ Hmodel].
      destruct (Hmodel eq_refl) as (v' & Hv' & Hkeeps).
      exists v'. split; [exact Hv'|]. apply Hkeeps.
      pose proof (Hsome (or_introl H5)) as Hadd. symmetry in Hadd.
      apply addCoefficient_result in Hadd as (_ & _ & _ & _ & _ & ->).
      apply lookup_insert_eq.
    + intros H5 H6. right. right. apply Hrefused. apply (Hrow H5 H6).
    + intros H5 H6. right. right. apply Hrefused. apply (Hvalue H5 H6).
Qed.

(** C10, with what it leaves unsaid. Let the line [l] at index [n] be a
    data line of the COLUMNS section that is no marker line and whose
    fields 2, 3 and 4 hold a column, a row and a number. The pair in
    fields 5 and 6 is looked at if and only if one of the two is not
    empty:
    - with both empty, the line does not raise MissingRowName, which is
      what [addCoefficient] answers to an empty pair;
    - with both filled in, a model that [modelFromMps] returns holds the
      coefficient of the pair in the column of the line;
    - with a row name and no value, [modelFromMps] throws
      MissingCoefficient with the number of the line, and with a value and
      no row name MissingRowName, unless it has thrown on a line before
      or the first pair of the line is refused: the column has come back,
      or the row of the first pair is undefined or repeated. *)
Theorem second_pair_processed (mps : string) (direction : OptimizationDirection)
    (i0 c n : nat) (l : string) :
  inColumns (JS.splitLines mps) i0 c n -> dataAt (JS.splitLines mps) n l ->
  field3 l <> "'MARKER'" -> field2 l <> "" -> field3 l <> "" -> field4 l <> "" ->
  JS.isNaN (JS.parseFloat (field4 l)) = false ->
  exists out, modelFromMps mps direction = Some out /\
    (field5 l = "" -> field6 l = "" ->
       out <> inl (mkThrown (n + 1) MissingRowName)) /\
    (field5 l <> "" -> field6 l <> "" ->
       forall m, out = inr m ->
         exists variable, variables m !! field2 l = Some variable /\
           variable !! field5 l = Some (JS.parseFloat (field6 l))) /\
    (field5 l <> "" -> field6 l = "" ->
       thrownEarlier n out \/ firstPairRefused l n out \/
       out = inl (mkThrown (n + 1) MissingCoefficient)) /\
    (field5 l = "" -> field6 l <> "" ->
       thrownEarlier n out \/ firstPairRefused l n out \/
       out = inl (mkThrown (n + 1) MissingRowName)).
Proof.
  intros Hin [Hl Hdata] Hm H2 H3 H4 Hnum.
  assert (Hout : exists out, modelFromMps mps direction = Some out).
  { destruct (modelFromMps_returns mps direction) as [[m H]|[t H]]; eauto. }
  destruct Hout as [out Hout]. exists out. split; [exact Hout|].
  rewrite thrownOrModel_eq in Hout.
  change (secondPairOutcome l n out).
  destruct (readName_reach_columns mps direction i0 c n l Hin Hl
              (data_not_comment _ Hdata))
    as [Hfail|[(s' & m' & im' & fuel' & Hls & Hi & He & _ & _ & Hrun)
       |(s' & m' & im' & fuel' & fuelB & v & name & k0 & Hls & Hi & He & _ & _
         & Hname & _ & _ & _ & _ & _ & Hrun)]].
  - apply failsBefore_thrown in Hfail as (t & Ht & Hle).
    rewrite Ht in Hout. injection Hout as <-.
    unfold secondPairOutcome, thrownEarlier.
    split; [|split; [|split]].
    + intros _ _ [= Heq]. rewrite Heq in Hle. cbn in Hle. lia.
    + intros _ _ m Hm'. discriminate.
    + intros _ _. left. eauto.
    + intros _ _. left. eauto.
  - rewrite Hrun in Hout. clear Hrun.
    destruct fuel' as [|fuel']; [destruct He; lia|].
    rewrite (readColumnsLoop_opens fuel' s' m' im' l (field2 l) Hdata Hm eq_refl H2)
      in Hout.
    destruct (JS.has (variables m') (field2 l)).
    + cbn in Hout. injection Hout as <-. rewrite Hi.
      unfold secondPairOutcome, firstPairRefused.
      split; [|split; [|split]].
      * intros _ _. discriminate.
      * intros _ _ m Hm'. discriminate.
      * intros _ _. right. left. eexists. split; [reflexivity | cbn; auto].
      * intros _ _. right. left. eexists. split; [reflexivity | cbn; auto].
    + apply (columnFrom_second_pair fuel' (length (lines s')) s' m' im' ∅ l n out);
        try assumption.
      rewrite Hls, Hi. exact Hl.
  - rewrite Hrun in Hout. clear Hrun. subst name.
    destruct fuelB as [|fuelB]; [destruct He; lia|].
    apply (columnFrom_second_pair fuel' fuelB s' m' im' v l n out);
      try assumption.
    rewrite Hls, Hi. exact Hl.
Qed.

(** [second_pair_processed] on [doc_row_without_value], whose line 6, at
    index 5, has a row name in field 5 and nothing in field 6. *)
Lemma second_pair_processed_witness :
  exists out, modelFromMps doc_row_without_value minimize = Some out /\
    (field5 "    X         COST      1.0            LIM1" = "" ->
     field6 "    X         COST      1.0            LIM1" = "" ->
       out <> inl (mkThrown (5 + 1) MissingRowName)) /\
    (field5 "    X         COST      1.0            LIM1" <> "" ->
     field6 "    X         COST      1.0            LIM1" <> "" ->
       forall m, out = inr m ->
         exists variable,
           variables m !! field2 "    X         COST      1.0            LIM1"
             = Some variable /\
           variable !! field5 "    X         COST      1.0            LIM1"
             = Some (JS.parseFloat
                       (field6 "    X         COST      1.0            LIM1"))) /\
    (field5 "    X         COST      1.0            LIM1" <> "" ->
     field6 "    X         COST      1.0            LIM1" = "" ->
       thrownEarlier 5 out \/
       firstPairRefused "    X         COST      1.0            LIM1" 5 out \/
       out = inl (mkThrown (5 + 1) MissingCoefficient)) /\
    (field5 "    X         COST      1.0            LIM1" = "" ->
     field6 "    X         COST      1.0            LIM1" <> "" ->
       thrownEarlier 5 out \/
       firstPairRefused "    X         COST      1.0            LIM1" 5 out \/
       out = inl (mkThrown (5 + 1) MissingRowName)).
Proof.
  apply (second_pair_processed doc_row_without_value minimize 0 4 5
           "    X         COST      1.0            LIM1").
  - repeat split; vm_compute; try reflexivity; lia.
  - split; vm_compute; reflexivity.
  - vm_compute. discriminate.
  - vm_compute. discriminate.
  - vm_compute. discriminate.
  - vm_compute. discriminate.
  - vm_compute. reflexivity.
Defined.

(** C10, as it is worded, fails: line 6 of [doc_first_pair_refused] has a
    row name in field 5 and nothing in field 6, and [modelFromMps] throws
    MissingRowName for it, since its first pair has no row name. *)
Lemma second_pair_counterexample :
  ~ (forall mps direction i0 c n l,
       inColumns (JS.splitLines mps) i0 c n -> dataAt (JS.splitLines mps) n l ->
       field5 l <> "" -> field6 l = "" ->
       exists t, modelFromMps mps direction = Some (inl t) /\
                 thrownError t = MissingCoefficient).
Proof.
  intros H.
  destruct (H doc_first_pair_refused minimize 0 4 5
              "    X                   1.0            LIM1")
    as (t & Ht & He).
  - repeat split; vm_compute; try reflexivity; lia.
  - split; vm_compute; reflexivity.
  - vm_compute. discriminate.
  - vm_compute. reflexivity.
  - assert (Hrun : modelFromMps doc_first_pair_refused minimize
                   = Some (inl (mkThrown 6 MissingRowName)))
      by (vm_compute; reflexivity).
    rewrite Hrun in Ht. injection Ht as <-. discriminate He.
Qed.

(** *** A parse that ends without error, up to its BOUNDS section *)

Lemma nextLine_skips (s s1 : ParseState) (l1 : string) :
  nextLine s = (s1, Some l1) ->
  forall k lk, index s < k < index s1 -> lines s !! k = Some lk ->
               JS.startsWith "*" lk = true.
Proof.
  unfold nextLine.
  pose proof (nextLineFrom_skipped (drop (S (index s)) (lines s)) (S (index s)))
    as Hskip.
  destruct (nextLineFrom _ _) as [[j l]|]; [|discriminate].
  intros [= <- <-] k lk Hk Hlk. cbn [index set_index] in Hk.
  apply (Hskip (k - S (index s))); [lia|].
  rewrite lookup_drop. rewrite <- Hlk. f_equal. lia.
Qed.

Lemma comment_notBoundsOrEnd (l : string) :
  JS.startsWith "*" l = true -> notBoundsOrEnd l = true.
Proof.
  intros H. unfold notBoundsOrEnd. apply andb_true_intro.
  split; apply negb_true_iff, String.eqb_neq.
  - apply (header_first l "BOUNDS" "*" "B" H eq_refl). discriminate.
  - apply (header_first l "ENDATA" "*" "E" H eq_refl). discriminate.
Qed.

Lemma data_notBoundsOrEnd (l : string) :
  JS.startsWith " " l = true -> notBoundsOrEnd l = true.
Proof.
  intros H. unfold notBoundsOrEnd. apply andb_true_intro.
  split; apply negb_true_iff, String.eqb_neq.
  - apply (header_first l "BOUNDS" " " "B" H eq_refl). discriminate.
  - apply (header_first l "ENDATA" " " "E" H eq_refl). discriminate.
Qed.

Section ToBounds.

Variable ls : list string.
Variable a : nat.

Lemma nextLine_quiet (s s1 : ParseState) (line1 : option string) :
  nextLine s = (s1, line1) -> lines s = ls -> a < index s ->
  quiet ls a (index s) ->
  (forall l, ls !! index s = Some l -> notBoundsOrEnd l = true) ->
  lines s1 = ls /\ a < index s1 /\ quiet ls a (index s1) /\ onLine ls s1 line1 /\
  constraintTypes s1 = constraintTypes s.
Proof.
  intros Hnext Hl Ha Hq Hcur.
  pose proof (nextLine_spec _ _ _ Hnext) as (Hl1 & Ht & Hline).
  destruct line1 as [l1|].
  - destruct Hline as (Hlt & Hlook & _). rewrite Hl in Hlook.
    split; [congruence|]. split; [lia|]. split; [|split; [|exact Ht]].
    + intros k l Hk Hlk.
      destruct (Nat.lt_trichotomy k (index s)) as [Hlow|[->|Hhigh]].
      * apply (Hq k l); [lia | exact Hlk].
      * apply Hcur, Hlk.
      * apply comment_notBoundsOrEnd.
        apply (nextLine_skips _ _ _ Hnext k l); [lia | rewrite Hl; exact Hlk].
    + intros l [= <-]. exact Hlook.
  - subst s1. split; [exact Hl|]. split; [exact Ha|]. split; [exact Hq|].
    split; [intros l Hl'; discriminate | reflexivity].
Qed.

Lemma header_quiet (s : ParseState) (h : string) :
  lines s = ls -> readSection s = Some h ->
  h <> "BOUNDS" -> h <> "ENDATA" ->
  forall l, ls !! index s = Some l -> notBoundsOrEnd l = true.
Proof.
  intros Hl Hh Hb He l Hlook. unfold readSection in Hh. rewrite Hl, Hlook in Hh.
  injection Hh as Hh. unfold notBoundsOrEnd. rewrite Hh.
  apply andb_true_intro. split; apply negb_true_iff, String.eqb_neq; assumption.
Qed.

Lemma readRangesLoop_arrives (fuel : nat) : forall s m line s_f m_f,
  readRangesLoop fuel s m line = Some (s_f, m_f, None) ->
  lines s = ls -> a < index s -> quiet ls a (index s) -> onLine ls s line ->
  arrives ls a s_f m_f.
Proof.
  induction fuel as [|fuel IH]; intros s m line s_f m_f; [discriminate|].
  cbn [readRangesLoop]. destruct (dataLine line) as [l|] eqn:Hd.
  - apply dataLine_Some in Hd as [-> Hdata].
    destruct (pairLine _ m l) as [m1 [err|]]; [discriminate|].
    destruct (nextLine s) as [s1 line1] eqn:Hnext.
    intros Hrun Hl Ha Hq Hon.
    destruct (nextLine_quiet _ _ _ Hnext Hl Ha Hq) as (H1 & H2 & H3 & H4 & _).
    { intros l' Hl'. rewrite (Hon l eq_refl) in Hl'. injection Hl' as <-.
      apply data_notBoundsOrEnd, Hdata. }
    exact (IH _ _ _ _ _ Hrun H1 H2 H3 H4).
  - rewrite after_RANGES_dispatch. destruct (readSection s) as [t|] eqn:Ht;
      [|discriminate].
    intros Hrun Hl Ha Hq _. rewrite readSection_sectionAt, Hl in Ht.
    destruct (String.eqb_spec t "BOUNDS") as [->|].
    { left. exists s, m. auto. }
    destruct (String.eqb_spec t "ENDATA") as [->|]; [|discriminate].
    injection Hrun as <- <-. right. auto.
Qed.

Lemma readRHSLoop_arrives (fuel : nat) : forall s m line s_f m_f,
  readRHSLoop fuel s m line = Some (s_f, m_f, None) ->
  lines s = ls -> a < index s -> quiet ls a (index s) -> onLine ls s line ->
  arrives ls a s_f m_f.
Proof.
  induction fuel as [|fuel IH]; intros s m line s_f m_f; [discriminate|].
  cbn [readRHSLoop]. destruct (dataLine line) as [l|] eqn:Hd.
  - apply dataLine_Some in Hd as [-> Hdata].
    destruct (pairLine _ m l) as [m1 [err|]]; [discriminate|].
    destruct (nextLine s) as [s1 line1] eqn:Hnext.
    intros Hrun Hl Ha Hq Hon.
    destruct (nextLine_quiet _ _ _ Hnext Hl Ha Hq) as (H1 & H2 & H3 & H4 & _).
    { intros l' Hl'. rewrite (Hon l eq_refl) in Hl'. injection Hl' as <-.
      apply data_notBoundsOrEnd, Hdata. }
    exact (IH _ _ _ _ _ Hrun H1 H2 H3 H4).
  - rewrite after_RHS_dispatch. destruct (readSection s) as [t|] eqn:Ht;
      [|discriminate].
    intros Hrun Hl Ha Hq _.
    destruct (String.eqb_spec t "RANGES") as [->|].
    { unfold readRanges in Hrun. destruct (nextLine s) as [s1 line1] eqn:Hnext.
      destruct (nextLine_quiet _ _ _ Hnext Hl Ha Hq) as (H1 & H2 & H3 & H4 & _).
      { apply (header_quiet s "RANGES"); [exact Hl | exact Ht | discriminate | discriminate]. }
      exact (readRangesLoop_arrives _ _ _ _ _ _ Hrun H1 H2 H3 H4). }
    rewrite readSection_sectionAt, Hl in Ht.
    destruct (String.eqb_spec t "BOUNDS") as [->|].
    { left. exists s, m. auto. }
    destruct (String.eqb_spec t "ENDATA") as [->|]; [|discriminate].
    injection Hrun as <- <-. right. auto.
Qed.

Lemma readRHS_arrives (s s_f : ParseState) (m m_f : Model) :
  readRHS s m = Some (s_f, m_f, None) ->
  lines s = ls -> a < index s -> quiet ls a (index s) ->
  arrives ls a s_f m_f.
Proof.
  unfold readRHS. destruct (expectSection s "RHS") eqn:He; [discriminate|].
  apply expectSection_None in He.
  destruct (nextLine s) as [s1 line1] eqn:Hnext.
  intros Hrun Hl Ha Hq.
  destruct (nextLine_quiet _ _ _ Hnext Hl Ha Hq) as (H1 & H2 & H3 & H4 & _).
  { apply (header_quiet s "RHS"); [exact Hl | exact He | discriminate | discriminate]. }
  exact (readRHSLoop_arrives _ _ _ _ _ _ Hrun H1 H2 H3 H4).
Qed.

Lemma columnBlock_quiet (fuelB : nat) : forall s variable name l s1 variable1 line1,
  columnBlock fuelB s variable name l = Some (s1, inr (variable1, line1)) ->
  lines s = ls -> a < index s -> quiet ls a (index s) ->
  ls !! index s = Some l -> JS.startsWith " " l = true ->
  lines s1 = ls /\ a < index s1 /\ quiet ls a (index s1) /\ onLine ls s1 line1.
Proof.
  induction fuelB as [|fuelB IH]; intros s variable name l s1 variable1 line1;
    [discriminate|].
  cbn [columnBlock]. destruct (columnLine s variable l) as [e|v1]; [discriminate|].
  destruct (nextLine s) as [s2 line2] eqn:Hnext.
  intros Hrun Hl Ha Hq Hlook Hdata.
  destruct (nextLine_quiet _ _ _ Hnext Hl Ha Hq) as (H1 & H2 & H3 & H4 & _).
  { intros l' Hl'. rewrite Hlook in Hl'. injection Hl' as <-.
    apply data_notBoundsOrEnd, Hdata. }
  destruct (dataLine line2) as [l2|] eqn:Hd.
  - apply dataLine_Some in Hd as [-> Hdata2].
    destruct (String.eqb (field2 l2) name).
    + exact (IH _ _ _ _ _ _ _ Hrun H1 H2 H3 (H4 l2 eq_refl) Hdata2).
    + injection Hrun as <- _ <-. auto.
  - injection Hrun as <- _ <-. auto.
Qed.

Lemma readColumnsLoop_arrives (fuel : nat) : forall s m integerMarked line s_f m_f,
  readColumnsLoop fuel s m integerMarked line = Some (s_f, m_f, None) ->
  lines s = ls -> a < index s -> quiet ls a (index s) -> onLine ls s line ->
  arrives ls a s_f m_f.
Proof.
  induction fuel as [|fuel IH]; intros s m im line s_f m_f; [discriminate|].
  cbn [readColumnsLoop]. destruct (dataLine line) as [l|] eqn:Hd.
  - apply dataLine_Some in Hd as [-> Hdata].
    intros Hrun Hl Ha Hq Hon.
    assert (Hcur : forall l', ls !! index s = Some l' -> notBoundsOrEnd l' = true).
    { intros l' Hl'. rewrite (Hon l eq_refl) in Hl'. injection Hl' as <-.
      apply data_notBoundsOrEnd, Hdata. }
    destruct (String.eqb (field3 l) "'MARKER'").
    + destruct (String.eqb (field4 l) "'INTORG'");
        [|destruct (String.eqb (field4 l) "'INTEND'"); [|discriminate]];
        destruct (nextLine s) as [s1 line1] eqn:Hnext;
        destruct (nextLine_quiet _ _ _ Hnext Hl Ha Hq Hcur) as (H1 & H2 & H3 & H4 & _);
        exact (IH _ _ _ _ _ _ Hrun H1 H2 H3 H4).
    + destruct (String.eqb (field2 l) ""); [discriminate|].
      destruct (JS.has (variables m) (field2 l)); [discriminate|].
      destruct (columnBlock (fuelFor s) s ∅ (field2 l) l)
        as [[s1 [err|[variable line1]]]|] eqn:Hb; try discriminate.
      destruct (columnBlock_quiet _ _ _ _ _ _ _ _ Hb Hl Ha Hq (Hon l eq_refl) Hdata)
        as (H1 & H2 & H3 & H4).
      exact (IH _ _ _ _ _ _ Hrun H1 H2 H3 H4).
  - intros Hrun Hl Ha Hq _. exact (readRHS_arrives _ _ _ _ Hrun Hl Ha Hq).
Qed.

Lemma readRowsLoop_arrives (fuel : nat) : forall s m line s_f m_f,
  readRowsLoop fuel s m line = Some (s_f, m_f, None) ->
  lines s = ls -> a < index s -> quiet ls a (index s) -> onLine ls s line ->
  arrives ls a s_f m_f.
Proof.
  induction fuel as [|fuel IH]; intros s m line s_f m_f; [discriminate|].
  cbn [readRowsLoop]. destruct (dataLine line) as [l|] eqn:Hd.
  - apply dataLine_Some in Hd as [-> Hdata].
    destruct (rowsLine s m l) as [err|[s1 m1]] eqn:Hrow; [discriminate|].
    apply rowsLine_cursor in Hrow as [Hl1 Hi1].
    destruct (nextLine s1) as [s2 line2] eqn:Hnext.
    intros Hrun Hl Ha Hq Hon.
    destruct (nextLine_quiet _ _ _ Hnext) as (H1 & H2 & H3 & H4 & _).
    + congruence.
    + lia.
    + rewrite Hi1. exact Hq.
    + rewrite Hi1. intros l' Hl'. rewrite (Hon l eq_refl) in Hl'.
      injection Hl' as <-. apply data_notBoundsOrEnd, Hdata.
    + exact (IH _ _ _ _ _ Hrun H1 H2 H3 H4).
  - unfold readColumns. destruct (expectSection s "COLUMNS") eqn:He; [discriminate|].
    apply expectSection_None in He.
    destruct (nextLine s) as [s1 line1] eqn:Hnext.
    intros Hrun Hl Ha Hq _.
    destruct (nextLine_quiet _ _ _ Hnext Hl Ha Hq) as (H1 & H2 & H3 & H4 & _).
    { apply (header_quiet s "COLUMNS"); [exact Hl | exact He | discriminate | discriminate]. }
    exact (readColumnsLoop_arrives _ _ _ _ _ _ _ Hrun H1 H2 H3 H4).
Qed.

Lemma readName_arrives (s s_f : ParseState) (m m_f : Model) :
  readName s m = Some (s_f, m_f, None) ->
  lines s = ls -> JS.findIndex (JS.startsWith "NAME") ls = Some a ->
  arrives ls a s_f m_f.
Proof.
  unfold readName. intros Hrun Hl Hname. rewrite Hl, Hname in Hrun.
  unfold readRows in Hrun.
  destruct (expectSection _ "ROWS") eqn:He; [discriminate|].
  apply expectSection_None in He.
  destruct (nextLine _) as [s1 line1] eqn:Hnext.
  destruct (nextLine_quiet _ _ _ Hnext) as (H1 & H2 & H3 & H4 & _).
  - exact Hl.
  - cbn. lia.
  - intros k l Hk. cbn [index set_index] in Hk. lia.
  - apply (header_quiet _ "ROWS"); [exact Hl | exact He | discriminate | discriminate].
  - exact (readRowsLoop_arrives _ _ _ _ _ _ Hrun H1 H2 H3 H4).
Qed.

End ToBounds.

(** *** The entries of a section *)

Lemma bodyFrom_nextLineFrom (ls : list string) : forall i,
  bodyFrom ls =
  match nextLineFrom ls i with
  | Some (j, l) =>
      if JS.startsWith " " l then l :: bodyFrom (drop (S (j - i)) ls) else []
  | None => []
  end.
Proof.
  induction ls as [|x ls IH]; intros i; [reflexivity|].
  cbn [bodyFrom nextLineFrom].
  destruct (JS.startsWith "*" x) eqn:Hx; cbn [negb].
  - rewrite (IH (S i)).
    destruct (nextLineFrom ls (S i)) as [[j l]|] eqn:Hnext; [|reflexivity].
    apply nextLineFrom_spec in Hnext as (Hle & _).
    replace (S (j - i)) with (S (S (j - S i))) by lia. reflexivity.
  - rewrite Nat.sub_diag. reflexivity.
Qed.

Lemma bodyFrom_nextLine (s s1 : ParseState) (line1 : option string) :
  nextLine s = (s1, line1) ->
  bodyFrom (drop (S (index s)) (lines s)) =
  match line1 with
  | Some l1 =>
      if JS.startsWith " " l1
      then l1 :: bodyFrom (drop (S (index s1)) (lines s)) else []
  | None => []
  end.
Proof.
  unfold nextLine.
  rewrite (bodyFrom_nextLineFrom (drop (S (index s)) (lines s)) (S (index s))).
  destruct (nextLineFrom _ _) as [[j l]|] eqn:Hnext; intros [= <- <-];
    [|reflexivity].
  apply nextLineFrom_spec in Hnext as (Hle & _).
  cbn [index set_index]. rewrite drop_drop.
  replace (S (index s) + S (j - S (index s))) with (S j) by lia. reflexivity.
Qed.

(** The entries a section loop goes through are the data lines of the
    document from the line of the loop on. *)
Lemma sectionEntries_body (fuel : nat) : forall s line,
  enough fuel s line ->
  sectionEntries fuel s line =
  match line with
  | Some l =>
      if JS.startsWith " " l
      then l :: bodyFrom (drop (S (index s)) (lines s)) else []
  | None => []
  end.
Proof.
  induction fuel as [|fuel IH]; intros s line He.
  { destruct line; simpl in He; lia. }
  cbn [sectionEntries]. destruct line as [l|]; [|reflexivity].
  destruct (JS.startsWith " " l) eqn:Hd.
  - rewrite (dataLine_data _ Hd).
    destruct (nextLine s) as [s1 line1] eqn:Hnext.
    rewrite (bodyFrom_nextLine _ _ _ Hnext).
    pose proof (nextLine_advanced _ _ _ Hnext) as Hadv.
    rewrite (IH s1 line1 (enough_step _ _ _ _ _ He Hadv)).
    destruct Hadv as [Hl _]. rewrite Hl. reflexivity.
  - rewrite (dataLine_section_end _ Hd). reflexivity.
Qed.

(** C4: in a document that [modelFromMps] reads without error, a column
    whose only entry in the BOUNDS section is of type UP with the value
    -5.0 has the pair (0, -5.0) in the model returned: the lower bound is
    the default 0, not [-Infinity]. The BOUNDS section is the one under
    the first line after the NAME line to read BOUNDS or ENDATA. *)
Theorem up_only_bound (mps : string) (direction : OptimizationDirection)
    (m : Model) (i0 b : nat) (col entry : string) :
  modelFromMps mps direction = Some (inr m) ->
  boundsHeader (JS.splitLines mps) i0 b ->
  List.filter (fun l => String.eqb (field3 l) col)
    (sectionBody (JS.splitLines mps) b) = [entry] ->
  field1 entry = "UP" ->
  JS.parseFloat (field4 entry) = (-5)%float ->
  bounds m !! col = Some (0%float, (-5)%float).
Proof.
  intros Hrun (Hname & Hb & Hsec & Hquiet) Hfilter Hup Hval.
  rewrite thrownOrModel_eq in Hrun.
  destruct (readName _ _) as [[[s_f m_f] [e|]]|] eqn:Hread; try discriminate.
  cbn in Hrun. injection Hrun as ->.
  pose proof (between_forall _ _ _ _ Hquiet) as Hq.
  destruct (header_line _ _ _ "B" Hsec eq_refl) as (lb & Hlb & Htrim & _);
    [discriminate | discriminate |].
  assert (Hlb' : notBoundsOrEnd lb = false)
    by (unfold notBoundsOrEnd; rewrite Htrim; reflexivity).
  destruct (readName_arrives (JS.splitLines mps) i0 _ _ _ _ Hread eq_refl Hname)
    as [(sb & mb & Hls & Ha & Hqb & Hsb & Hbounds)|(Hls & Ha & Hqe & Hend)].
  - assert (Hidx : index sb = b).
    { destruct (Nat.lt_trichotomy (index sb) b) as [Hlt|[Heq|Hgt]]; [|exact Heq|].
      - exfalso. destruct (header_line _ _ _ "B" Hsb eq_refl) as (l' & Hl' & Ht' & _);
          [discriminate | discriminate |].
        pose proof (Hq (index sb) l' ltac:(lia) Hl') as Hno.
        unfold notBoundsOrEnd in Hno. rewrite Ht' in Hno. discriminate.
      - exfalso. rewrite (Hqb b lb ltac:(lia) Hlb) in Hlb'. discriminate. }
    unfold readBounds in Hbounds.
    destruct (nextLine sb) as [s1 line1] eqn:Hnext.
    pose proof (nextLine_advanced _ _ _ Hnext) as Hadv.
    apply (readBoundsLoop_up_only _ _ _ _ _ _ col entry Hbounds); try assumption.
    rewrite (sectionEntries_body _ _ _ (enough_start _ _ _ Hadv)).
    rewrite <- Hfilter. f_equal. unfold sectionBody.
    rewrite <- Hidx, <- Hls. rewrite (bodyFrom_nextLine _ _ _ Hnext).
    destruct Hadv as [Hl1 _]. rewrite Hl1. reflexivity.
  - exfalso.
    destruct (header_line _ _ _ "E" Hend eq_refl) as (le & Hle & Hte & _);
      [discriminate | discriminate |].
    destruct (Nat.lt_trichotomy (index s_f) b) as [Hlt|[Heq|Hgt]].
    + pose proof (Hq (index s_f) le ltac:(lia) Hle) as Hno.
      unfold notBoundsOrEnd in Hno. rewrite Hte in Hno.
      rewrite andb_false_r in Hno. discriminate.
    + rewrite Heq in Hend. congruence.
    + rewrite (Hqe b lb ltac:(lia) Hlb) in Hlb'. discriminate.
Qed.

(** [up_only_bound] on [doc_up_only]: NAME at 0, BOUNDS at 8, and the one
    entry of the section is for [X]. *)
Lemma up_only_bound_witness :
  modelFromMps doc_up_only minimize = Some (inr up_only_result) /\
  bounds up_only_result !! "X" = Some (0%float, (-5)%float).
Proof.
  split; [vm_compute; reflexivity|].
  apply (up_only_bound doc_up_only minimize up_only_result 0 8 "X"
           " UP BND       X         -5.0").
  - vm_compute. reflexivity.
  - repeat split; vm_compute; try reflexivity; lia.
  - vm_compute. reflexivity.
  - vm_compute. reflexivity.
  - vm_compute. reflexivity.
Defined.

(* ===================================================================== *)
(** * The solution report *)
(* ===================================================================== *)

(** The built-ins the report reader uses, on the inputs that tell them
    apart. *)

Example toNumber_examples :
  JSNumber.toNumber "" = 0%float /\
  JSNumber.toNumber "   " = 0%float /\
  JSNumber.toNumber " 12 " = 12%float /\
  JSNumber.toNumber "17.5" = 17.5%float /\
  JSNumber.toNumber "-0" = (-0)%float /\
  JSNumber.toNumber "1e3" = 1000%float /\
  JSNumber.toNumber ".5" = 0.5%float /\
  JSNumber.toNumber "5." = 5%float /\
  JSNumber.toNumber "0x1F" = 31%float /\
  JSNumber.toNumber "0b101" = 5%float /\
  JSNumber.toNumber "0o17" = 15%float /\
  JSNumber.toNumber "-Infinity" = neg_infinity.
Proof. repeat split; vm_compute; reflexivity. Qed.

Example toNumber_nan :
  JS.isNaN (JSNumber.toNumber "inf") = true /\
  JS.isNaN (JSNumber.toNumber "12abc") = true /\
  JS.isNaN (JSNumber.toNumber "1.5e") = true /\
  JS.isNaN (JSNumber.toNumber "1 2") = true /\
  JS.isNaN (JSNumber.toNumber ".") = true /\
  JS.isNaN (JSNumber.toNumber "-0x10") = true /\
  JS.isNaN (JSNumber.toNumber "0x") = true /\
  JS.isNaN (JSNumber.toNumber "infinity") = true.
Proof. repeat split. Qed.

Example parseInt_examples :
  JSNumber.parseInt "12" = 12%float /\
  JSNumber.parseInt "  42" = 42%float /\
  JSNumber.parseInt "12px" = 12%float /\
  JSNumber.parseInt "1e3" = 1%float /\
  JSNumber.parseInt "17.5" = 17%float /\
  JSNumber.parseInt "-0" = (-0)%float /\
  JSNumber.parseInt "+7" = 7%float /\
  JSNumber.parseInt "-0x10" = (-16)%float /\
  JSNumber.parseInt "0b11" = 0%float /\
  JS.isNaN (JSNumber.parseInt "") = true /\
  JS.isNaN (JSNumber.parseInt "0x") = true /\
  JS.isNaN (JSNumber.parseInt "abc") = true.
Proof. repeat split; vm_compute; reflexivity. Qed.

Example parseNum_examples :
  parseNum "inf" = infinity /\
  parseNum "-inf" = neg_infinity /\
  parseNum "2.5" = 2.5%float /\
  JS.isNaN (parseNum "+inf") = true /\
  JS.isNaN (parseNum " inf") = true.
Proof. repeat split; vm_compute; reflexivity. Qed.

Example matchObjective_examples :
  matchObjective "Objective value: 87.5" = Some "87.5" /\
  matchObjective "  Objective value:  1 2 " = Some " 1 2 " /\
  matchObjective "Objective value: Objective value: 3" = Some "Objective value: 3" /\
  matchObjective "Objective value: " = None /\
  matchObjective "objective value: 3" = None /\
  matchObjective "" = None.
Proof. repeat split. Qed.

Example lineToObj_examples :
  lineToObj ["Index"; "Name"] (Some "  7   x1") =
    inr (<["Index" := CellNumber 7]> (<["Name" := CellString "x1"]> ∅)) /\
  lineToObj ["Index"; "Name"] (Some "7") = inr (<["Index" := CellNumber 7]> ∅) /\
  lineToObj ["Index"; "Name"] (Some "") = inr ∅ /\
  lineToObj ["Name"; "Name"] (Some "a b") = inr (<["Name" := CellString "b"]> ∅) /\
  lineToObj ["Index"] (Some "7 x1") = inl (UnparseableLine "7 x1") /\
  lineToObj ["valueOf"] (Some "7") = inl TypeError /\
  lineToObj ["Index"] None = inl TypeError.
Proof. repeat split; vm_compute; reflexivity. Qed.

Example parseResult_examples :
  parseResult report_lines "Optimal" = inr report_solution /\
  parseResult (take 2 report_lines) "Optimal" = inl TooFewLines /\
  parseResult (take 4 report_lines) "Optimal" = inl TypeError /\
  parseResult (take 7 report_lines) "Optimal" = inl TypeError /\
  parseResult (take 10 report_lines) "Optimal" = inl TypeError /\
  parseResult ["Columns"; "  Index Name"; "  0 x1 extra"; "Rows"] "Optimal" =
    inl (UnparseableLine "  0 x1 extra").
Proof. repeat split; vm_compute; reflexivity. Qed.

(** ** Records *)

(** A parser throws nothing but the engine's [TypeError]. *)
Lemma decode_error (header value : string) (e : ReportError) :
  decode header value = inl e -> e = TypeError.
Proof.
  unfold decode. repeat case_match; congruence.
Qed.

Lemma lineToObjLoop_short (headers : list string) (line : string) :
  forall values idx result,
    idx <= length headers ->
    length headers < idx + length values ->
    exists e, lineToObjLoop headers line values idx result = inl e /\
              (e = UnparseableLine line \/ e = TypeError) /\
              ((forall h v, In h headers -> decode h v <> inl TypeError) ->
               e = UnparseableLine line).
Proof.
  induction values as [|value rest IH]; intros idx result Hidx Hlen;
    cbn [length] in Hlen.
  - lia.
  - cbn [lineToObjLoop].
    destruct (headers !! idx) as [header|] eqn:Hh.
    + destruct (decode header value) as [e|parsed] eqn:Hd.
      * exists e. pose proof (decode_error _ _ _ Hd) as ->.
        split; [reflexivity|]. split; [right; reflexivity|].
        intros Hno. exfalso. apply (Hno header value); [|exact Hd].
        apply list_elem_of_In. eapply list_elem_of_lookup_2. exact Hh.
      * apply lookup_lt_Some in Hh. apply IH; lia.
    + exists (UnparseableLine line). auto.
Qed.

(** A line with more values than there are headers has no record:
    [lineToObj] throws, and what it throws is its own error unless a header
    before names a property of [Object.prototype] that cannot be called. *)
Theorem record_longer_than_headers (headers : list string) (line : string) :
  length headers < length (lineValues line) ->
  exists e, lineToObj headers (Some line) = inl e /\
            (e = UnparseableLine line \/ e = TypeError) /\
            ((forall h v, In h headers -> decode h v <> inl TypeError) ->
             e = UnparseableLine line).
Proof.
  intros Hlen. unfold lineToObj. apply lineToObjLoop_short; [lia | exact Hlen].
Qed.

(** [record_longer_than_headers] on a line of three values under two
    headers. *)
Lemma record_longer_than_headers_witness :
  exists e, lineToObj ["Index"; "Name"] (Some "1 a b") = inl e /\
            (e = UnparseableLine "1 a b" \/ e = TypeError) /\
            ((forall h v, In h ["Index"; "Name"] -> decode h v <> inl TypeError) ->
             e = UnparseableLine "1 a b").
Proof.
  apply (record_longer_than_headers ["Index"; "Name"] "1 a b").
  vm_compute. reflexivity.
Defined.

Lemma lineToObjLoop_fields (headers : list string) (line : string) :
  NoDup headers ->
  forall values idx result obj,
    lineToObjLoop headers line values idx result = inr obj ->
    idx + length values <= Nat.max idx (length headers) /\
    (forall k h v, headers !! (idx + k) = Some h -> values !! k = Some v ->
                   exists c, decode h v = inr c /\ obj !! h = Some c) /\
    (forall h, (forall k, k < length values -> headers !! (idx + k) <> Some h) ->
               obj !! h = result !! h).
Proof.
  intros Hnd.
  induction values as [|value rest IH]; intros idx result obj Hrun;
    cbn [lineToObjLoop] in Hrun.
  - injection Hrun as <-. cbn [length]. split; [lia|]. split.
    + intros k h v _ Hv. rewrite lookup_nil in Hv. discriminate.
    + reflexivity.
  - destruct (headers !! idx) as [header|] eqn:Hh; [|discriminate].
    destruct (decode header value) as [e|parsed] eqn:Hd; [discriminate|].
    apply IH in Hrun as (Hlen & Hin & Hout).
    pose proof (lookup_lt_Some _ _ _ Hh) as Hlt.
    cbn [length]. split; [lia|]. split.
    + intros [|k] h v Hk Hv.
      * rewrite Nat.add_0_r, Hh in Hk. injection Hk as <-.
        cbn in Hv. injection Hv as <-.
        exists parsed. split; [exact Hd|].
        rewrite Hout, lookup_insert_eq; [reflexivity|].
        intros k _ Hk.
        pose proof (NoDup_lookup _ _ _ _ Hnd Hh Hk). lia.
      * cbn in Hv. apply (Hin k h v); [|exact Hv].
        rewrite <- Hk. f_equal. lia.
    + intros h Hno.
      rewrite Hout.
      * apply lookup_insert_ne. intros ->.
        apply (Hno 0); [lia|]. rewrite Nat.add_0_r. exact Hh.
      * intros k Hk Hk'. apply (Hno (S k)); [lia|].
        rewrite <- Hk'. f_equal. lia.
Qed.

(** Fields go by position: under headers that are all different, a record
    holds, for each value of the line, the value decoded by the parser of
    the header at the same index, and nothing for the headers that are
    left. *)
Theorem record_fields (headers : list string) (line : string)
    (obj : gmap string Cell) :
  NoDup headers ->
  lineToObj headers (Some line) = inr obj ->
  length (lineValues line) <= length headers /\
  (forall k h v, headers !! k = Some h -> lineValues line !! k = Some v ->
                 exists c, decode h v = inr c /\ obj !! h = Some c) /\
  (forall k h, headers !! k = Some h -> length (lineValues line) <= k ->
               obj !! h = None).
Proof.
  intros Hnd Hrun. unfold lineToObj in Hrun.
  destruct (lineToObjLoop_fields headers line Hnd _ _ _ _ Hrun)
    as (Hlen & Hin & Hout).
  split; [lia|]. split.
  - intros k h v Hk Hv. apply (Hin k h v); assumption.
  - intros k h Hk Hle. rewrite Hout; [apply lookup_empty|].
    intros k' Hk' Hh. cbn [Nat.add] in Hh.
    pose proof (NoDup_lookup _ _ _ _ Hnd Hk Hh). lia.
Qed.

(** [record_fields] on the first line of the rows table of
    [report_lines]. *)
Lemma record_fields_witness :
  length (lineValues (default "" (report_lines !! 6))) <= length report_headers /\
  (forall k h v, report_headers !! k = Some h ->
                 lineValues (default "" (report_lines !! 6)) !! k = Some v ->
                 exists c, decode h v = inr c /\ report_c1 !! h = Some c) /\
  (forall k h, report_headers !! k = Some h ->
               length (lineValues (default "" (report_lines !! 6))) <= k ->
               report_c1 !! h = None).
Proof.
  apply (record_fields report_headers (default "" (report_lines !! 6)) report_c1).
  - apply (bool_decide_unpack _). vm_compute. exact I.
  - vm_compute. reflexivity.
Defined.

(** *** The two tables *)

Lemma lookup_after {A : Type} (pre post : list A) (n k : nat) :
  n = length pre -> (pre ++ post)%list !! (n + k) = post !! k.
Proof.
  intros ->. rewrite lookup_app_r by lia. f_equal. lia.
Qed.

Lemma drop_after {A : Type} (pre post : list A) (n k : nat) :
  n = length pre -> drop (n + k) (pre ++ post)%list = drop k post.
Proof.
  intros ->. apply drop_app_add.
Qed.

Lemma columnsLoop_run (headers : list string) (rest : list string) :
  forall cols i columns objs,
    Forall (fun l => l <> "Rows") cols ->
    lineRecords headers cols = inr objs ->
    columnsLoop headers (cols ++ "Rows" :: rest) i columns =
    inr (i + length cols, foldl insertColumn columns objs).
Proof.
  induction cols as [|l cols IH]; intros i columns objs Hall Hrec.
  - injection Hrec as <-. cbn. f_equal. f_equal. lia.
  - apply Forall_cons in Hall as [Hl Hall].
    cbn [lineRecords] in Hrec. cbn [app columnsLoop].
    apply String.eqb_neq in Hl. rewrite Hl.
    destruct (lineToObj headers (Some l)) as [e|obj]; [discriminate|].
    destruct (lineRecords headers cols) as [e|objs']; [discriminate|].
    injection Hrec as <-.
    rewrite (IH _ _ objs' Hall eq_refl). cbn [foldl length].
    f_equal. f_equal. lia.
Qed.

Lemma rowsLoop_run (headers : list string) (rest : list string) :
  forall ls j rows objs,
    Forall (fun l => l <> "") ls ->
    lineRecords headers ls = inr objs ->
    rowsLoop headers (ls ++ "" :: rest) j rows =
    inr (j + length ls, (rows ++ objs)%list).
Proof.
  induction ls as [|l ls IH]; intros j rows objs Hall Hrec.
  - injection Hrec as <-. cbn. rewrite app_nil_r. f_equal. f_equal. lia.
  - apply Forall_cons in Hall as [Hl Hall].
    cbn [lineRecords] in Hrec. cbn [app rowsLoop].
    apply String.eqb_neq in Hl. rewrite Hl.
    destruct (lineToObj headers (Some l)) as [e|obj]; [discriminate|].
    destruct (lineRecords headers ls) as [e|objs']; [discriminate|].
    injection Hrec as <-.
    rewrite (IH _ _ objs' Hall eq_refl). cbn [length].
    rewrite <- app_assoc. cbn [app]. f_equal. f_equal. lia.
Qed.

Lemma columnsLoop_stops (headers : list string) :
  forall rest i columns i' columns',
    columnsLoop headers rest i columns = inr (i', columns') ->
    exists objs,
      i <= i' /\ rest !! (i' - i) = Some "Rows" /\
      (forall k, k < i' - i -> rest !! k <> Some "Rows") /\
      lineRecords headers (take (i' - i) rest) = inr objs /\
      columns' = foldl insertColumn columns objs.
Proof.
  induction rest as [|l rest IH]; intros i columns i' columns' Hrun;
    cbn [columnsLoop] in Hrun; [discriminate|].
  destruct (String.eqb l "Rows") eqn:Hl.
  - injection Hrun as <- <-. apply String.eqb_eq in Hl as ->.
    exists []. rewrite Nat.sub_diag.
    split; [lia|]. split; [reflexivity|]. split; [intros k Hk; lia|].
    split; reflexivity.
  - destruct (lineToObj headers (Some l)) as [e|obj] eqn:Hobj; [discriminate|].
    apply IH in Hrun as (objs & Hle & Hat & Hbefore & Hrec & ->).
    apply String.eqb_neq in Hl.
    exists (obj :: objs).
    replace (i' - i) with (S (i' - S i)) by lia.
    split; [lia|]. split; [exact Hat|]. split.
    + intros [|k] Hk; cbn; [congruence|]. apply Hbefore. lia.
    + cbn [take lineRecords]. rewrite Hobj, Hrec. split; reflexivity.
Qed.

Lemma rowsLoop_stops (headers : list string) :
  forall rest j rows j' rows',
    rowsLoop headers rest j rows = inr (j', rows') ->
    exists objs,
      j <= j' /\ rest !! (j' - j) = Some "" /\
      (forall k, k < j' - j -> rest !! k <> Some "") /\
      lineRecords headers (take (j' - j) rest) = inr objs /\
      rows' = (rows ++ objs)%list.
Proof.
  induction rest as [|l rest IH]; intros j rows j' rows' Hrun;
    cbn [rowsLoop] in Hrun; [discriminate|].
  destruct (String.eqb l "") eqn:Hl.
  - injection Hrun as <- <-. apply String.eqb_eq in Hl as ->.
    exists []. rewrite Nat.sub_diag, app_nil_r.
    split; [lia|]. split; [reflexivity|]. split; [intros k Hk; lia|].
    split; reflexivity.
  - destruct (lineToObj headers (Some l)) as [e|obj] eqn:Hobj; [discriminate|].
    apply IH in Hrun as (objs & Hle & Hat & Hbefore & Hrec & ->).
    apply String.eqb_neq in Hl.
    exists (obj :: objs).
    replace (j' - j) with (S (j' - S j)) by lia.
    split; [lia|]. split; [exact Hat|]. split.
    + intros [|k] Hk; cbn; [congruence|]. apply Hbefore. lia.
    + cbn [take lineRecords]. rewrite Hobj, Hrec.
      split; [reflexivity|]. rewrite <- app_assoc. reflexivity.
Qed.

Lemma length_lineRecords (headers : list string) :
  forall ls objs, lineRecords headers ls = inr objs -> length objs = length ls.
Proof.
  induction ls as [|l ls IH]; intros objs Hrec; cbn [lineRecords] in Hrec.
  - injection Hrec as <-. reflexivity.
  - destruct (lineToObj headers (Some l)) as [e|obj]; [discriminate|].
    destruct (lineRecords headers ls) as [e|objs']; [discriminate|].
    injection Hrec as <-. cbn [length]. f_equal. apply IH. reflexivity.
Qed.

(** What comes of a report that is laid out as the reader goes through it:
    a title, a header, the column lines up to the line [Rows], a header, the
    row lines up to an empty line, and the objective on the third line
    after it. The headers of each table are read against the line below
    them. *)
Theorem parseResult_layout (title h1 h2 a b objLine status text : string)
    (cols rows tail : list string) (objs1 objs2 : list (gmap string Cell)) :
  Forall (fun l => l <> "Rows") cols ->
  Forall (fun l => l <> "") rows ->
  lineRecords (headersForNonEmptyColumns h1 (default "Rows" (head cols))) cols
    = inr objs1 ->
  lineRecords (headersForNonEmptyColumns h2 (default "" (head rows))) rows
    = inr objs2 ->
  matchObjective objLine = Some text ->
  parseResult
    (title :: h1 :: cols ++ "Rows" :: h2 :: rows ++ "" :: a :: b :: objLine :: tail)
    status
  = inr (mkSolution status (foldl insertColumn ∅ objs1) objs2 (parseNum text)).
Proof.
  intros Hcols Hrows Hrec1 Hrec2 Hobj.
  set (R2 := "" :: a :: b :: objLine :: tail).
  set (R1 := "Rows" :: h2 :: rows ++ R2).
  set (lines := title :: h1 :: cols ++ R1).
  assert (Hlen : Nat.ltb (length lines) 3 = false).
  { apply Nat.ltb_ge. unfold lines, R1. cbn [length]. rewrite length_app.
    cbn [length]. lia. }
  assert (H1 : lines !! 1 = Some h1) by reflexivity.
  assert (H2 : lines !! 2 = Some (default "Rows" (head cols)))
    by (destruct cols; reflexivity).
  assert (Hd : drop 2 lines = (cols ++ R1)%list) by reflexivity.
  assert (HR1 : forall k, lines !! (2 + length cols + k) = R1 !! k).
  { intros k. apply (lookup_after (title :: h1 :: cols) R1). reflexivity. }
  assert (HdR1 : forall k, drop (2 + length cols + k) lines = drop k R1).
  { intros k. apply (drop_after (title :: h1 :: cols) R1). reflexivity. }
  assert (HR2 : forall k, R1 !! (2 + length rows + k) = R2 !! k).
  { intros k. apply (lookup_after ("Rows" :: h2 :: rows) R2). reflexivity. }
  unfold parseResult. rewrite Hlen, H1, H2, Hd. cbn [headersOf].
  unfold R1 at 1. rewrite (columnsLoop_run _ _ _ _ _ _ Hcols Hrec1).
  cbv beta iota zeta.
  rewrite (HR1 1).
  rewrite (HR1 2), (HdR1 2).
  assert (H3 : R1 !! 1 = Some h2) by reflexivity.
  assert (H4 : R1 !! 2 = Some (default "" (head rows)))
    by (destruct rows; reflexivity).
  assert (Hd' : drop 2 R1 = (rows ++ R2)%list) by reflexivity.
  rewrite H3, H4, Hd'. cbn [headersOf].
  unfold R2 at 1. rewrite (rowsLoop_run _ _ _ _ _ _ Hrows Hrec2).
  cbv beta iota zeta.
  replace (2 + length cols + 2 + length rows + 3)
    with (2 + length cols + (2 + length rows + 3)) by lia.
  rewrite HR1, HR2.
  change (R2 !! 3) with (Some objLine). cbv beta iota. rewrite Hobj.
  reflexivity.
Qed.

(** [parseResult_layout] on [report_lines]. *)
Lemma parseResult_layout_witness :
  parseResult report_lines "Optimal"
  = inr (mkSolution "Optimal" (foldl insertColumn ∅ [report_x1; report_x2])
           [report_c1] (parseNum "87.5")).
Proof.
  apply (parseResult_layout "Columns"
           "    Index Status        Lower        Upper       Primal         Dual  Name"
           "    Index Status        Lower        Upper       Primal         Dual  Name"
           "Model status: Optimal" "" "Objective value: 87.5" "Optimal" "87.5"
           [ "        0     BS            0           40         17.5           -0  x1";
             "        1     LB            0          inf            0          2.5  x2" ]
           [ "        0     UB         -inf           20           20           -1  c1" ]
           []).
  - repeat constructor; discriminate.
  - repeat constructor; discriminate.
  - vm_compute. reflexivity.
  - vm_compute. reflexivity.
  - vm_compute. reflexivity.
Defined.

(** A report that is read has that layout: counting from 0, its line [i]
    is the first from line 2 on to read [Rows], its line [j] the first from
    [i + 2] on to be empty, the lines between give the records, and line
    [j + 3] holds the objective. *)
Theorem parseResult_success_shape (lines : list string) (status : string)
    (sol : Solution) :
  parseResult lines status = inr sol ->
  exists i j h1 d1 h2 d2 objLine text objs,
    lines !! 1 = Some h1 /\ lines !! 2 = Some d1 /\
    2 <= i /\ lines !! i = Some "Rows" /\
    (forall k, 2 <= k < i -> lines !! k <> Some "Rows") /\
    lines !! (i + 1) = Some h2 /\ lines !! (i + 2) = Some d2 /\
    i + 2 <= j /\ lines !! j = Some "" /\
    (forall k, i + 2 <= k < j -> lines !! k <> Some "") /\
    lines !! (j + 3) = Some objLine /\ matchObjective objLine = Some text /\
    lineRecords (headersForNonEmptyColumns h1 d1) (take (i - 2) (drop 2 lines))
      = inr objs /\
    lineRecords (headersForNonEmptyColumns h2 d2)
      (take (j - (i + 2)) (drop (i + 2) lines)) = inr (Rows sol) /\
    Columns sol = foldl insertColumn ∅ objs /\
    Status sol = status /\ ObjectiveValue sol = parseNum text.
Proof.
  unfold parseResult. intros Hrun.
  destruct (Nat.ltb (length lines) 3) eqn:Hlen; [discriminate|].
  apply Nat.ltb_ge in Hlen.
  destruct (lookup_lt_is_Some_2 lines 1 ltac:(lia)) as [h1 H1].
  destruct (lookup_lt_is_Some_2 lines 2 ltac:(lia)) as [d1 H2].
  rewrite H1, H2 in Hrun. cbn [headersOf] in Hrun. cbv beta iota in Hrun.
  destruct (columnsLoop _ _ _ _) as [e|[i columns]] eqn:Hcols; [discriminate|].
  apply columnsLoop_stops in Hcols as (objs & Hi & Hat & Hbefore & Hrec1 & ->).
  rewrite lookup_drop in Hat. replace (2 + (i - 2)) with i in Hat by lia.
  cbv beta iota zeta in Hrun.
  destruct (lines !! (i + 1)) as [h2|] eqn:H3; [|discriminate].
  destruct (lines !! (i + 2)) as [d2|] eqn:H4.
  2: { apply lookup_ge_None in H4. rewrite (drop_ge _ _ H4) in Hrun.
       destruct (headersOf _ _); [discriminate|].
       cbv beta iota in Hrun. cbn [rowsLoop] in Hrun. discriminate. }
  cbn [headersOf] in Hrun. cbv beta iota in Hrun.
  destruct (rowsLoop _ _ _ _) as [e|[j rows]] eqn:Hrows; [discriminate|].
  apply rowsLoop_stops in Hrows as (objs2 & Hj & Hat2 & Hbefore2 & Hrec2 & ->).
  rewrite lookup_drop in Hat2. replace (i + 2 + (j - (i + 2))) with j in Hat2 by lia.
  cbv beta iota zeta in Hrun.
  destruct (lines !! (j + 3)) as [objLine|] eqn:H5; [|discriminate].
  destruct (matchObjective objLine) as [text|] eqn:Hobj; [|discriminate].
  injection Hrun as <-. cbn [Rows Columns Status ObjectiveValue app].
  exists i, j, h1, d1, h2, d2, objLine, text, objs.
  repeat match goal with |- _ /\ _ => split end;
    try assumption; try reflexivity.
  - intros k Hk. specialize (Hbefore (k - 2) ltac:(lia)).
    rewrite lookup_drop in Hbefore.
    replace (2 + (k - 2)) with k in Hbefore by lia. exact Hbefore.
  - intros k Hk. specialize (Hbefore2 (k - (i + 2)) ltac:(lia)).
    rewrite lookup_drop in Hbefore2.
    replace (i + 2 + (k - (i + 2))) with k in Hbefore2 by lia. exact Hbefore2.
Qed.

(** [parseResult_success_shape] on [report_lines]. *)
Lemma parseResult_success_shape_witness :
  exists i j h1 d1 h2 d2 objLine text objs,
    report_lines !! 1 = Some h1 /\ report_lines !! 2 = Some d1 /\
    2 <= i /\ report_lines !! i = Some "Rows" /\
    (forall k, 2 <= k < i -> report_lines !! k <> Some "Rows") /\
    report_lines !! (i + 1) = Some h2 /\ report_lines !! (i + 2) = Some d2 /\
    i + 2 <= j /\ report_lines !! j = Some "" /\
    (forall k, i + 2 <= k < j -> report_lines !! k <> Some "") /\
    report_lines !! (j + 3) = Some objLine /\ matchObjective objLine = Some text /\
    lineRecords (headersForNonEmptyColumns h1 d1) (take (i - 2) (drop 2 report_lines))
      = inr objs /\
    lineRecords (headersForNonEmptyColumns h2 d2)
      (take (j - (i + 2)) (drop (i + 2) report_lines)) = inr (Rows report_solution) /\
    Columns report_solution = foldl insertColumn ∅ objs /\
    Status report_solution = "Optimal" /\
    ObjectiveValue report_solution = parseNum text.
Proof.
  apply (parseResult_success_shape report_lines "Optimal" report_solution).
  vm_compute. reflexivity.
Defined.

(** *** The columns by name *)

Lemma lineRecords_Forall2 (headers : list string) :
  forall ls objs,
    lineRecords headers ls = inr objs ->
    Forall2 (fun l obj => lineToObj headers (Some l) = inr obj) ls objs.
Proof.
  induction ls as [|l ls IH]; intros objs Hrec; cbn [lineRecords] in Hrec.
  - injection Hrec as <-. constructor.
  - destruct (lineToObj headers (Some l)) as [e|obj] eqn:Hobj; [discriminate|].
    destruct (lineRecords headers ls) as [e|objs']; [discriminate|].
    injection Hrec as <-. constructor; [exact Hobj | apply IH; reflexivity].
Qed.

(** What [columns[obj["Name"]] = obj], done for each of [objs] in turn,
    leaves under a name: what was there, or the last of [objs] with that
    name. *)
Lemma insertColumn_last (n : string) (obj : gmap string Cell) :
  forall objs columns,
    foldl insertColumn columns objs !! n = Some obj ->
    (columns !! n = Some obj /\
     Forall (fun o => columnKey o = n -> n = "__proto__") objs) \/
    (n <> "__proto__" /\ columnKey obj = n /\
     exists pre post, objs = (pre ++ obj :: post)%list /\
                      Forall (fun o => columnKey o <> n) post).
Proof.
  induction objs as [|o objs IH]; intros columns Hin; cbn [foldl] in Hin.
  - left. split; [exact Hin | constructor].
  - apply IH in Hin as [[Hin Hall]|(Hn & Hkey & pre & post & -> & Hpost)].
    + unfold insertColumn in Hin.
      destruct (String.eqb (columnKey o) "__proto__") eqn:Hproto.
      * left. split; [exact Hin|]. constructor; [|exact Hall].
        apply String.eqb_eq in Hproto. congruence.
      * apply String.eqb_neq in Hproto.
        destruct (decide (columnKey o = n)) as [Heq|Hne].
        -- rewrite Heq, lookup_insert_eq in Hin. injection Hin as ->.
           right. split; [congruence|]. split; [exact Heq|].
           exists [], objs. split; [reflexivity|].
           eapply Forall_impl; [exact Hall|].
           cbv beta. intros o' Ho' Hk. apply Ho' in Hk. congruence.
        -- rewrite lookup_insert_ne in Hin by exact Hne.
           left. split; [exact Hin|]. constructor; [|exact Hall].
           intros Hk. contradiction.
    + right. split; [exact Hn|]. split; [exact Hkey|].
      exists (o :: pre), post. split; [reflexivity | exact Hpost].
Qed.

Lemma parseResult_columns (lines : list string) (status : string)
    (sol : Solution) :
  parseResult lines status = inr sol ->
  exists i h1 d1 objs,
    lines !! 1 = Some h1 /\ lines !! 2 = Some d1 /\
    2 <= i /\ lines !! i = Some "Rows" /\
    (forall k, 2 <= k < i -> lines !! k <> Some "Rows") /\
    lineRecords (headersForNonEmptyColumns h1 d1) (take (i - 2) (drop 2 lines))
      = inr objs /\
    Columns sol = foldl insertColumn ∅ objs.
Proof.
  unfold parseResult. intros Hrun.
  destruct (Nat.ltb (length lines) 3) eqn:Hlen; [discriminate|].
  apply Nat.ltb_ge in Hlen.
  destruct (lookup_lt_is_Some_2 lines 1 ltac:(lia)) as [h1 H1].
  destruct (lookup_lt_is_Some_2 lines 2 ltac:(lia)) as [d1 H2].
  rewrite H1, H2 in Hrun. cbn [headersOf] in Hrun. cbv beta iota in Hrun.
  destruct (columnsLoop _ _ _ _) as [e|[i columns]] eqn:Hcols; [discriminate|].
  apply columnsLoop_stops in Hcols as (objs & Hi & Hat & Hbefore & Hrec1 & ->).
  rewrite lookup_drop in Hat. replace (2 + (i - 2)) with i in Hat by lia.
  cbv beta iota zeta in Hrun.
  destruct (headersOf _ _) as [e|headers']; [discriminate|].
  cbv beta iota in Hrun.
  destruct (rowsLoop _ _ _ _) as [e|[j rows]]; [discriminate|].
  cbv beta iota zeta in Hrun.
  destruct (lines !! (j + 3)) as [objLine|]; [|discriminate].
  destruct (matchObjective objLine) as [text|]; [|discriminate].
  injection Hrun as <-. cbn [Columns].
  exists i, h1, d1, objs.
  repeat match goal with |- _ /\ _ => split end;
    try assumption; try reflexivity.
  intros k Hk. specialize (Hbefore (k - 2) ltac:(lia)).
  rewrite lookup_drop in Hbefore.
  replace (2 + (k - 2)) with k in Hbefore by lia. exact Hbefore.
Qed.

(** Every entry of [Columns] sits under the name its record holds, and is
    the record of the last line of the columns table with that name: a
    line further down with the same name replaces it. No entry sits under
    [__proto__]. *)
Theorem column_under_its_name (lines : list string) (status : string)
    (sol : Solution) (n : string) (obj : gmap string Cell) :
  parseResult lines status = inr sol ->
  Columns sol !! n = Some obj ->
  columnKey obj = n /\ n <> "__proto__" /\
  exists k l h1 d1,
    lines !! 1 = Some h1 /\ lines !! 2 = Some d1 /\
    2 <= k /\ lines !! k = Some l /\
    (forall q, 2 <= q <= k -> lines !! q <> Some "Rows") /\
    lineToObj (headersForNonEmptyColumns h1 d1) (Some l) = inr obj /\
    (forall k' l' obj',
       k < k' -> (forall q, 2 <= q <= k' -> lines !! q <> Some "Rows") ->
       lines !! k' = Some l' ->
       lineToObj (headersForNonEmptyColumns h1 d1) (Some l') = inr obj' ->
       columnKey obj' <> n).
Proof.
  intros Hrun Hin.
  apply parseResult_columns in Hrun
    as (i & h1 & d1 & objs & H1 & H2 & Hi & Hat & Hbefore & Hrec & Hcols).
  rewrite Hcols in Hin.
  apply insertColumn_last in Hin
    as [[Hin _]|(Hn & Hkey & pre & post & -> & Hpost)];
    [rewrite lookup_empty in Hin; discriminate|].
  split; [exact Hkey|]. split; [exact Hn|].
  apply lineRecords_Forall2 in Hrec.
  assert (Htake : forall k x, take (i - 2) (drop 2 lines) !! k = Some x ->
                              k < i - 2 /\ lines !! (2 + k) = Some x).
  { intros k x Hk. rewrite lookup_take in Hk.
    destruct (decide (k < i - 2)); [|discriminate].
    rewrite lookup_drop in Hk. auto. }
  destruct (Forall2_lookup_r _ _ _ (length pre) obj Hrec) as (l & Hl & Hobj).
  { apply list_lookup_middle. reflexivity. }
  apply Htake in Hl as [Hlt Hl].
  exists (2 + length pre), l, h1, d1.
  repeat match goal with |- _ /\ _ => split end; try assumption; try lia.
  - intros q Hq. apply Hbefore. lia.
  - intros k' l' obj' Hk' Hno Hl' Hobj'.
    assert (Hk'i : k' < i).
    { destruct (Nat.lt_ge_cases k' i) as [Hlt'|Hge]; [exact Hlt'|].
      exfalso. exact (Hno i ltac:(lia) Hat). }
    assert (Hl'' : take (i - 2) (drop 2 lines) !! (k' - 2) = Some l').
    { rewrite lookup_take. destruct (decide (k' - 2 < i - 2)); [|lia].
      rewrite lookup_drop. rewrite <- Hl'. f_equal. lia. }
    destruct (Forall2_lookup_l _ _ _ _ _ Hrec Hl'') as (obj'' & Hat' & Hobj'').
    rewrite Hobj' in Hobj''. injection Hobj'' as <-.
    rewrite lookup_app_r in Hat' by lia.
    replace (k' - 2 - length pre) with (S (k' - 3 - length pre)) in Hat' by lia.
    cbn in Hat'. rewrite Forall_lookup in Hpost. exact (Hpost _ _ Hat').
Qed.

(** [column_under_its_name] on [report_lines] and the name [x1]. *)
Lemma column_under_its_name_witness :
  columnKey report_x1 = "x1" /\ "x1" <> "__proto__" /\
  exists k l h1 d1,
    report_lines !! 1 = Some h1 /\ report_lines !! 2 = Some d1 /\
    2 <= k /\ report_lines !! k = Some l /\
    (forall q, 2 <= q <= k -> report_lines !! q <> Some "Rows") /\
    lineToObj (headersForNonEmptyColumns h1 d1) (Some l) = inr report_x1 /\
    (forall k' l' obj',
       k < k' -> (forall q, 2 <= q <= k' -> report_lines !! q <> Some "Rows") ->
       report_lines !! k' = Some l' ->
       lineToObj (headersForNonEmptyColumns h1 d1) (Some l') = inr obj' ->
       columnKey obj' <> "x1").
Proof.
  apply (column_under_its_name report_lines "Optimal" report_solution "x1" report_x1).
  - vm_compute. reflexivity.
  - vm_compute. reflexivity.
Defined.

(** *** Words and the objective *)

Lemma string_app_cons (c : ascii) (a b : string) :
  String c a +:+ b = String c (a +:+ b).
Proof. reflexivity. Qed.

Lemma string_app_empty (b : string) : "" +:+ b = b.
Proof. reflexivity. Qed.

Lemma string_app_assoc (a b c : string) : (a +:+ b) +:+ c = a +:+ (b +:+ c).
Proof.
  induction a as [|x a IH]; [reflexivity|].
  change (String x ((a +:+ b) +:+ c) = String x (a +:+ (b +:+ c))).
  rewrite IH. reflexivity.
Qed.

Lemma matchAllFrom_ge (s : string) (k i : nat) (t : string) :
  In (i, t) (JS.matchAllFrom s k) -> k <= i.
Proof.
  intros Hin. destruct (matchAllFrom_tokens s k) as [H _].
  apply H in Hin. tauto.
Qed.

Lemma matchAllFrom_whiteSpace (w s : string) :
  allWhiteSpace w = true ->
  forall i, JS.matchAllFrom (w +:+ s) i = JS.matchAllFrom s (i + String.length w).
Proof.
  induction w as [|c w IH]; intros Hw i;
    rewrite ?string_app_cons, ?string_app_empty; cbn [String.length].
  - rewrite Nat.add_0_r. reflexivity.
  - cbn [allWhiteSpace] in Hw. apply andb_prop in Hw as [Hc Hw].
    cbn [JS.matchAllFrom]. rewrite Hc, (IH Hw). f_equal. lia.
Qed.

(** [s] is empty or starts with white space. *)
Lemma matchAllFrom_after_word (s : string) (i : nat) :
  (forall c, firstChar s = Some c -> JS.isWhiteSpace c = true) ->
  forall j t, In (j, t) (JS.matchAllFrom s i) -> i < j.
Proof.
  destruct s as [|c s]; intros Hs j t Hin; [destruct Hin|].
  cbn [JS.matchAllFrom] in Hin.
  rewrite (Hs c eq_refl) in Hin. apply matchAllFrom_ge in Hin. lia.
Qed.

Lemma matchAllFrom_cons (c : ascii) (s : string) (i : nat) :
  JS.matchAllFrom (String c s) i =
  if JS.isWhiteSpace c then JS.matchAllFrom s (S i)
  else match JS.matchAllFrom s (S i) with
       | (j, t) :: rest =>
           if Nat.eqb j (S i) then (i, String c t) :: rest
           else (i, String c EmptyString) :: (j, t) :: rest
       | [] => [(i, String c EmptyString)]
       end.
Proof. reflexivity. Qed.

Lemma matchAllFrom_word (s : string) :
  (forall c, firstChar s = Some c -> JS.isWhiteSpace c = true) ->
  forall t c i,
    noWhiteSpace (String c t) = true ->
    JS.matchAllFrom (String c t +:+ s) i =
    (i, String c t) :: JS.matchAllFrom s (i + String.length (String c t)).
Proof.
  intros Hs.
  induction t as [|c' t IH]; intros c i Ht;
    cbn [noWhiteSpace] in Ht; apply andb_prop in Ht as [Hc Ht];
    apply negb_true_iff in Hc;
    rewrite (string_app_cons c), matchAllFrom_cons, Hc.
  - rewrite string_app_empty. cbn [String.length]. replace (i + 1) with (S i) by lia.
    destruct (JS.matchAllFrom s (S i)) as [|[j t'] rest] eqn:Hm; [reflexivity|].
    assert (Hj : S i < j).
    { apply (matchAllFrom_after_word s (S i) Hs j t'). rewrite Hm. left. reflexivity. }
    destruct (Nat.eqb_spec j (S i)); [lia | reflexivity].
  - rewrite (IH c' (S i) Ht), Nat.eqb_refl.
    f_equal. f_equal. cbn [String.length]. lia.
Qed.

Lemma matchAllFrom_nothing (w : string) (i : nat) :
  allWhiteSpace w = true -> JS.matchAllFrom w i = [].
Proof.
  revert i. induction w as [|c w IH]; intros i Hw; [reflexivity|].
  cbn [allWhiteSpace] in Hw. apply andb_prop in Hw as [Hc Hw].
  cbn [JS.matchAllFrom]. rewrite Hc. apply IH. exact Hw.
Qed.

Lemma allWhiteSpace_first (w s : string) :
  allWhiteSpace w = true -> w <> "" ->
  forall c, firstChar (w +:+ s) = Some c -> JS.isWhiteSpace c = true.
Proof.
  intros Hw Hne c. destruct w as [|x w]; [contradiction|].
  cbn [allWhiteSpace] in Hw. apply andb_prop in Hw as [Hx _].
  cbn. intros [= <-]. exact Hx.
Qed.

Lemma allWhiteSpace_first' (w : string) :
  allWhiteSpace w = true ->
  forall c, firstChar w = Some c -> JS.isWhiteSpace c = true.
Proof.
  intros Hw c. destruct w as [|x w]; [discriminate|].
  cbn [allWhiteSpace] in Hw. apply andb_prop in Hw as [Hx _].
  cbn. intros [= <-]. exact Hx.
Qed.

Lemma matchAllFrom_spaced (gap trail : string) :
  allWhiteSpace gap = true -> gap <> "" -> allWhiteSpace trail = true ->
  forall ts i,
    Forall (fun t => t <> "" /\ noWhiteSpace t = true) ts ->
    map snd (JS.matchAllFrom (spaced gap ts +:+ trail) i) = ts.
Proof.
  intros Hgap Hne Htrail.
  induction ts as [|t ts IH]; intros i Hall.
  - cbn [spaced]. rewrite string_app_empty, matchAllFrom_nothing by exact Htrail.
    reflexivity.
  - apply Forall_cons in Hall as [[Ht Hnw] Hall].
    destruct t as [|c t]; [contradiction|].
    destruct ts as [|t2 ts].
    + cbn [spaced].
      rewrite (matchAllFrom_word trail (allWhiteSpace_first' trail Htrail) t c i Hnw).
      rewrite matchAllFrom_nothing by exact Htrail. reflexivity.
    + cbn [spaced] in *. rewrite !string_app_assoc.
      rewrite (matchAllFrom_word _ (allWhiteSpace_first gap _ Hgap Hne) t c i Hnw).
      rewrite (matchAllFrom_whiteSpace _ _ Hgap).
      cbn [map snd]. f_equal. apply IH. exact Hall.
Qed.

(** The values of a line are its words: from words, none empty and none
    with white space in it, put one after the other with white space
    between them, before the first and after the last, [lineValues] gives
    the words back. *)
Theorem lineValues_spaced (lead gap trail : string) (ts : list string) :
  allWhiteSpace lead = true -> allWhiteSpace gap = true -> gap <> "" ->
  allWhiteSpace trail = true ->
  Forall (fun t => t <> "" /\ noWhiteSpace t = true) ts ->
  lineValues (lead +:+ spaced gap ts +:+ trail) = ts.
Proof.
  intros Hlead Hgap Hne Htrail Hall.
  unfold lineValues, JS.matchAll.
  rewrite (matchAllFrom_whiteSpace _ _ Hlead).
  apply matchAllFrom_spaced; assumption.
Qed.

(** [lineValues_spaced] on three words. *)
Lemma lineValues_spaced_witness :
  lineValues ("    " +:+ spaced "   " ["0"; "BS"; "x1"] +:+ " ") = ["0"; "BS"; "x1"].
Proof.
  apply (lineValues_spaced "    " "   " " " ["0"; "BS"; "x1"]).
  - vm_compute. reflexivity.
  - vm_compute. reflexivity.
  - discriminate.
  - vm_compute. reflexivity.
  - repeat constructor; discriminate.
Defined.

Lemma takeLine_oneLine (text : string) :
  oneLine text = true -> takeLine text = text.
Proof.
  induction text as [|c text IH]; intros Hone; [reflexivity|].
  cbn [oneLine] in Hone. apply andb_prop in Hone as [Hc Hone].
  apply negb_true_iff in Hc. cbn [takeLine]. rewrite Hc, (IH Hone). reflexivity.
Qed.

Lemma takeLine_stops (text post : string) :
  oneLine text = true ->
  (forall c, firstChar post = Some c ->
             Ascii.eqb c "010" || Ascii.eqb c "013" = true) ->
  takeLine (text +:+ post) = text.
Proof.
  intros Hone Hpost.
  induction text as [|c text IH];
    rewrite ?string_app_cons, ?string_app_empty.
  - destruct post as [|c post]; [reflexivity|].
    cbn [takeLine]. rewrite (Hpost c eq_refl). reflexivity.
  - cbn [oneLine] in Hone. apply andb_prop in Hone as [Hc Hone].
    apply negb_true_iff in Hc. cbn [takeLine]. rewrite Hc, (IH Hone). reflexivity.
Qed.

Lemma substring_all (s : string) : String.substring 0 (String.length s) s = s.
Proof.
  induction s as [|c s IH]; [reflexivity|].
  cbn [String.length String.substring]. rewrite IH. reflexivity.
Qed.

Lemma length_string_app (p r : string) :
  String.length (p +:+ r) = String.length p + String.length r.
Proof.
  induction p as [|c p IH]; [reflexivity|].
  rewrite string_app_cons. cbn [String.length]. rewrite IH. reflexivity.
Qed.

Lemma substring_after (p r : string) :
  JS.substring (String.length p) (String.length (p +:+ r)) (p +:+ r) = r.
Proof.
  unfold JS.substring. cbv zeta. rewrite length_string_app.
  set (n := String.length p). set (m := String.length r).
  replace (Nat.min (Nat.min n (n + m)) (Nat.min (n + m) (n + m))) with n by lia.
  replace (Nat.max (Nat.min n (n + m)) (Nat.min (n + m) (n + m)) - n) with m by lia.
  subst n m. induction p as [|c p IH]; [apply substring_all|].
  rewrite string_app_cons. cbn [String.length String.substring]. exact IH.
Qed.

(** A line that starts with [Objective value: ] gives what follows up to
    the end of the line, when something follows. *)
Theorem objective_after_label (text post : string) :
  text <> "" -> oneLine text = true ->
  (forall c, firstChar post = Some c ->
             Ascii.eqb c "010" || Ascii.eqb c "013" = true) ->
  matchObjective ("Objective value: " +:+ text +:+ post) = Some text.
Proof.
  intros Hne Hone Hpost.
  set (rest := text +:+ post).
  assert (Hsub : JS.substring 17
                   (String.length ("Objective value: " +:+ rest))
                   ("Objective value: " +:+ rest) = rest).
  { apply (substring_after "Objective value: " rest). }
  assert (Hpre : JS.startsWith "Objective value: " ("Objective value: " +:+ rest) = true).
  { unfold JS.startsWith. cbn. destruct rest; reflexivity. }
  remember ("Objective value: " +:+ rest) as s eqn:Hs.
  destruct s as [|c s]; [discriminate|].
  cbn [matchObjective]. rewrite Hpre, Hsub. unfold rest.
  rewrite (takeLine_stops _ _ Hone Hpost).
  destruct text; [contradiction | reflexivity].
Qed.

(** [objective_after_label] on the line of [report_lines]. *)
Lemma objective_after_label_witness :
  matchObjective ("Objective value: " +:+ "87.5" +:+ "") = Some "87.5".
Proof.
  apply (objective_after_label "87.5" "").
  - discriminate.
  - vm_compute. reflexivity.
  - discriminate.
Defined.
